(** * Hub-to-spoke file synchronisation: the action's [run] loop and its API helpers

    A shallow embedding of [src/unnamed/part_000] (the action's entry point,
    function [run]) and of [src/lib/api-calls.js] (the helpers around the
    hosting platform's REST and GraphQL API), followed by the properties the
    specification states about diffing, branch/commit/PR creation, retries
    and per-repository failure isolation.

    The JavaScript is sequential ([async]/[await] with no concurrent
    promises), so every function is a computation that reads the history of
    what happened so far and emits a trace of new events: log lines, sleeps,
    file reads and remote calls.  The hosting platform, the local file
    system and the helpers of [./utils] (not part of the sources at hand)
    are an environment that answers each call, possibly depending on the
    history. *)

From Stdlib Require Import String Ascii List ZArith Bool Lia DecimalString.
Import ListNotations.

Local Open Scope list_scope.
Local Open Scope string_scope.

(** ** JavaScript values that the code inspects *)

(** A thrown JavaScript error: the code reads [error.status] and
    [error.message], and renders the error inside template strings. *)
Record Exn : Type := mkExn {
  exn_name : string;
  exn_message : string;
  exn_status : option Z
}.

(** [new Error(msg)] *)
Definition new_Error (msg : string) : Exn :=
  {| exn_name := "Error"; exn_message := msg; exn_status := None |}.

(** A [TypeError] raised by the runtime itself. *)
Definition TypeError (msg : string) : Exn :=
  {| exn_name := "TypeError"; exn_message := msg; exn_status := None |}.

(** [Error.prototype.toString], used by [`${error}`]. *)
Definition exn_toString (e : Exn) : string :=
  if String.eqb (exn_name e) "" then exn_message e
  else if String.eqb (exn_message e) "" then exn_name e
  else exn_name e ++ ": " ++ exn_message e.

(** [error.status === n] *)
Definition status_is (e : Exn) (n : Z) : bool :=
  match exn_status e with
  | Some s => Z.eqb s n
  | None => false
  end.

(** Truthiness of a string: the empty string is falsy. *)
Definition truthy (s : string) : bool := negb (String.eqb s "").

(** Truthiness of a value that is a string or [undefined]. *)
Definition truthy_opt (o : option string) : bool :=
  match o with
  | Some s => truthy s
  | None => false
  end.

(** A string or [undefined] inside a template string. *)
Definition template_opt (o : option string) : string :=
  match o with
  | Some s => s
  | None => "undefined"
  end.

(** An arbitrary JSON-like value: what [encodeAdditions] and
    [encodeDeletions] of [./utils] hand back. *)
#[local] Unset Elimination Schemes.
Inductive Json : Type :=
| JNull
| JBool (b : bool)
| JNum (z : Z)
| JStr (s : string)
| JArr (l : list Json)
| JObj (l : list (string * Json)).
#[local] Set Elimination Schemes.

(** [String.prototype.split] on a one-character separator. *)
Fixpoint split_aux (sep : ascii) (s : string) (cur : string) : list string :=
  match s with
  | EmptyString => [cur]
  | String c rest =>
      if Ascii.eqb c sep then cur :: split_aux sep rest ""
      else split_aux sep rest (cur ++ String c "")
  end.

Definition split (sep : ascii) (s : string) : list string := split_aux sep s "".

(** The decimal rendering of an array index, as [for ... in] yields it. *)
Definition index_key (n : nat) : string := NilEmpty.string_of_uint (Nat.to_uint n).

(** The keys [for (const k in arr)] enumerates for an array: its indices,
    as strings, in ascending order. *)
Definition for_in_keys {A : Type} (arr : list A) : list string :=
  map index_key (seq 0 (length arr)).

#[global] Arguments index_key : simpl never.
#[global] Arguments String.append : simpl never.

(** ** Data exchanged with the platform *)

(** One repository as the REST API describes it. *)
Record RepoData : Type := mkRepoData {
  rd_name : string;
  rd_html_url : string;
  rd_node_id : string;
  rd_default_branch : string;
  rd_private : bool;
  rd_fork : bool;
  rd_archived : bool;
  rd_topics : list string
}.

(** The descriptor [getRepo] and [getReposList] build. *)
Record Repo : Type := mkRepo {
  name : string;
  url : string;
  id : string;
  defaultBranch : string;
  private : bool;
  fork : bool;
  archived : bool;
  topics : list string
}.

(** The response object of [octokit.repos.getContent]: a plain object
    [{status, url, headers, data}].  [cr_bytes] stands for the remote file's
    bytes carried in [data]. *)
Record ContentResponse : Type := mkContentResponse {
  cr_status : Z;
  cr_bytes : string
}.

(** What [getFile] returns: the response object, or [false] on a 404. *)
Inductive GetFileResult : Type :=
| GFfalse
| GFresponse (r : ContentResponse).

(** [.toString()] on the value [getFile] returned: [false] renders as
    ["false"], and a plain object through [Object.prototype.toString]. *)
Definition getFile_toString (v : GetFileResult) : string :=
  match v with
  | GFfalse => "false"
  | GFresponse _ => "[object Object]"
  end.

(** The GraphQL answer to the head-oid query; nullable fields are options. *)
Record RefNode : Type := mkRefNode { ref_target : option string (* target.oid *) }.
Record RepositoryNode : Type := mkRepositoryNode {
  rn_id : string;
  rn_ref : option RefNode
}.
Record HeadOidData : Type := mkHeadOidData { hd_repository : option RepositoryNode }.

(** The GraphQL answer to [createCommitOnBranch]. *)
Record CommitPayload : Type := mkCommitPayload { cp_commit : option string (* commit.url *) }.
Record CommitData : Type := mkCommitData { cd_createCommitOnBranch : option CommitPayload }.

(** The GraphQL answer to [createPullRequest]. *)
Record PrPayload : Type := mkPrPayload { pp_pullRequest : option string (* pullRequest.url *) }.
Record PrData : Type := mkPrData { pd_createPullRequest : option PrPayload }.

(** The [fileChanges] object literal of [run]: both keys start absent. *)
Record FileChanges : Type := mkFileChanges {
  additions : option (list Json);
  deletions : option (list Json)
}.

(** What [getListOfFilesToReplicate] resolves to. *)
Record FileLists : Type := mkFileLists {
  filesForReplication : list string;
  filesForRemoval : list string
}.

(** The options object handed to [getListOfReposToIgnore]. *)
Record IgnoreOptions : Type := mkIgnoreOptions {
  reposToIgnore : string;
  topicsToInclude : string;
  excludePrivate : bool;
  excludeForked : bool
}.

Inductive ListEndpoint : Type := listForUser | listForOrg.

(** ** Events *)

Inductive Event : Type :=
(* @actions/core *)
| EInfo (msg : string)
| EWarning (msg : string)
| EDebug
| ESetFailed (msg : string)
| EStartGroup (title : string)
| EEndGroup
(* timers and the local file system *)
| ESleep (ms : Z)
| EReadFile (path : string)
(* REST *)
| EOrgsGet (org : string)
| EUsersGetByUsername (username : string)
| EPaginate (endpoint : ListEndpoint) (account : string) (per_page : Z)
| EReposGet (owner repo : string)
| EReposGetContent (owner repo path ref : string)
(* GraphQL *)
| EHeadOidQuery (owner rname ref : string)
| ECreateRef (repoId ref oid : string)
| ECreateCommitOnBranch (repositoryNameWithOwner branchName : string)
    (fileChanges : FileChanges) (headline : string) (expectedHeadOid : string)
| ECreatePullRequest (branchName rid commitMessage base : string)
(* ./utils *)
| EGetListOfFilesToReplicate (commitId owner : string) (repo : option string)
    (patternsToIgnore patternsToInclude : string) (triggerEventName : option string)
| EGetListOfReposToIgnore (repo : option string) (reposList : list Repo) (opts : IgnoreOptions)
| EGetBranchName (customBranchName commitId : string)
| EEncodeAdditions (files : option (list string)) (destination : string)
| EEncodeDeletions (files : option (list string)) (destination : string).

Definition History : Type := list Event.
Definition Trace : Type := list Event.

(** ** Results and computations *)

Inductive Result (A : Type) : Type :=
| Ok (a : A)
| Throw (e : Exn).
Arguments Ok {A} a.
Arguments Throw {A} e.

(** A computation sees the history so far and yields a result together
    with the events it emitted, oldest first. *)
Definition Act (A : Type) : Type := History -> Result A * Trace.

Definition ret {A : Type} (a : A) : Act A := fun _ => (Ok a, []).

Definition throw {A : Type} (e : Exn) : Act A := fun _ => (Throw e, []).

Definition bind {A B : Type} (m : Act A) (f : A -> Act B) : Act B :=
  fun h =>
    match m h with
    | (Ok a, t) => let (r, t') := f a (h ++ t)%list in (r, (t ++ t')%list)
    | (Throw e, t) => (Throw e, t)
    end.

(** [try { m } catch (error) { handler error }] *)
Definition try_catch {A : Type} (m : Act A) (handler : Exn -> Act A) : Act A :=
  fun h =>
    match m h with
    | (Ok a, t) => (Ok a, t)
    | (Throw e, t) => let (r, t') := handler e (h ++ t)%list in (r, (t ++ t')%list)
    end.

(** Emit one event. *)
Definition emit (ev : Event) : Act unit := fun _ => (Ok tt, [ev]).

(** Ask the environment: the call is recorded, the answer may depend on
    everything that happened before it. *)
Definition ask {A : Type} (ev : Event) (answer : History -> Result A) : Act A :=
  fun h => (answer h, [ev]).

Definition when (b : bool) (m : Act unit) : Act unit := if b then m else ret tt.

Declare Scope act_scope.
Delimit Scope act_scope with act.
Notation "x <- m ;; k" := (bind m (fun x => k))
  (at level 61, m at next level, right associativity) : act_scope.
Notation "m ;; k" := (bind m (fun _ => k))
  (at level 61, right associativity) : act_scope.
Local Open Scope act_scope.

Definition info (msg : string) : Act unit := emit (EInfo msg).
Definition warning (msg : string) : Act unit := emit (EWarning msg).
Definition debug : Act unit := emit EDebug.
Definition setFailed (msg : string) : Act unit := emit (ESetFailed msg).
Definition startGroup (title : string) : Act unit := emit (EStartGroup title).
Definition endGroup : Act unit := emit EEndGroup.
Definition sleep (ms : Z) : Act unit := emit (ESleep ms).

(** ** The environment *)

(** Everything outside the two source files: the platform behind
    [octokit], the local file system, and the helpers of [./utils].  Each
    answer may depend on the history, so a remote whose state changes
    (a branch that appears, a commit that succeeds at the third attempt)
    is an environment too. *)
Record Env : Type := mkEnv {
  orgs_get : History -> string -> Result unit;
  users_getByUsername : History -> string -> Result unit;
  paginate : History -> ListEndpoint -> string -> Z -> Result (list RepoData);
  repos_get : History -> string -> string -> Result RepoData;
  repos_getContent : History -> string -> string -> string -> string -> Result ContentResponse;
  graphql_headOid : History -> string -> string -> string -> Result (option HeadOidData);
  graphql_createRef : History -> string -> string -> string -> Result unit;
  graphql_createCommitOnBranch :
    History -> string -> string -> FileChanges -> string -> string -> Result (option CommitData);
  graphql_createPullRequest :
    History -> string -> string -> string -> string -> Result (option PrData);
  fs_readFile : History -> string -> Result string;
  utils_getListOfFilesToReplicate :
    History -> string -> string -> option string -> string -> string -> option string ->
    Result FileLists;
  utils_getListOfReposToIgnore :
    History -> option string -> list Repo -> IgnoreOptions -> Result (list string);
  utils_getBranchName : History -> string -> string -> Result string;
  utils_encodeAdditions : History -> option (list string) -> string -> Result Json;
  utils_encodeDeletions : History -> option (list string) -> string -> Result Json
}.

(** ** [src/lib/api-calls.js] *)

Module ApiCalls.

Section WithEnv.

Variable env : Env.

Definition repoDetails_of (data : RepoData) : Repo :=
  {| name := rd_name data;
     url := rd_html_url data;
     id := rd_node_id data;
     defaultBranch := rd_default_branch data;
     private := rd_private data;
     fork := rd_fork data;
     archived := rd_archived data;
     topics := rd_topics data |}.

Definition getRepo (owner repo : string) : Act Repo :=
  info ("Getting details of manually selected " ++ repo ++ " repository") ;;
  data <- ask (EReposGet owner repo) (fun h => repos_get env h owner repo) ;;
  let repoDetails := repoDetails_of data in
  debug ;; debug ;; debug ;; debug ;;
  ret repoDetails.

Definition getReposList (owner : string) : Act (list Repo) :=
  startGroup ("Getting list of all repositories owned by " ++ owner) ;;
  isUser <-
    try_catch
      (ask (EOrgsGet owner) (fun h => orgs_get env h owner) ;;
       ret false)
      (fun error =>
         if status_is error 404 then
           try_catch
             (ask (EUsersGetByUsername owner) (fun h => users_getByUsername env h owner) ;;
              ret true)
             (fun error => throw (new_Error ("Invalid user/org: " ++ exn_toString error)))
         else
           throw (new_Error ("Failed checking if workflow runs for org or user: "
                             ++ exn_toString error))) ;;
  response <-
    (if isUser : bool then
       ask (EPaginate listForUser owner 100) (fun h => paginate env h listForUser owner 100)
     else
       ask (EPaginate listForOrg owner 100) (fun h => paginate env h listForOrg owner 100)) ;;
  let reposList := map repoDetails_of response in
  debug ;; debug ;;
  endGroup ;;
  ret reposList.

(** [response["repository"]["ref"]["target"]["oid"]] and
    [response["repository"]["id"]]: reading through a null link is a
    [TypeError]. *)
Definition getRefOidAndRepoId (owner repo branch : string) : Act (string * string) :=
  let ref := "refs/heads/" ++ branch in
  response <- ask (EHeadOidQuery owner repo ref) (fun h => graphql_headOid env h owner repo ref) ;;
  match response with
  | None => throw (TypeError "Cannot read properties of undefined (reading 'repository')")
  | Some d =>
      match hd_repository d with
      | None => throw (TypeError "Cannot read properties of null (reading 'ref')")
      | Some r =>
          match rn_ref r with
          | None => throw (TypeError "Cannot read properties of null (reading 'target')")
          | Some rf =>
              match ref_target rf with
              | None => throw (TypeError "Cannot read properties of null (reading 'oid')")
              | Some headOid => ret (headOid, rn_id r)
              end
          end
      end
  end.

(** The destructuring pattern
    [{ createPullRequest: { pullRequest: { url: pullRequestUrl } } }]. *)
Definition destructure_pr (response : option PrData) : Act string :=
  match response with
  | None => throw (TypeError "Cannot destructure property 'createPullRequest' as it is undefined.")
  | Some d =>
      match pd_createPullRequest d with
      | None => throw (TypeError "Cannot destructure property 'pullRequest' as it is null.")
      | Some p =>
          match pp_pullRequest p with
          | None => throw (TypeError "Cannot destructure property 'url' as it is null.")
          | Some pullRequestUrl => ret pullRequestUrl
          end
      end
  end.

(** The [while (retries-- > 0)] loop of [createPr]; [retries] is the value
    the test reads, [count] the attempts made so far.  One pass either
    returns (inner [Some]) or falls through to the next test ([None]);
    when the test fails the function ends without a [return]. *)
Fixpoint createPr_loop (branchName rid commitMessage base : string)
    (retries count : nat) : Act (option string) :=
  match retries with
  | O => ret None
  | S retries' =>
      let count := S count in
      pass <-
        try_catch
          (info "Waiting 5sec before PR creation" ;;
           sleep 5000 ;;
           info ("PR creation attempt " ++ index_key count) ;;
           response <- ask (ECreatePullRequest branchName rid commitMessage base)
                         (fun h => graphql_createPullRequest env h branchName rid commitMessage base) ;;
           pullRequestUrl <- destructure_pr response ;;
           ret (Some pullRequestUrl))
          (fun error =>
             if negb (String.eqb (exn_message error) "was submitted too quickly") then
               throw (new_Error ("Unable to create a PR: " ++ exn_toString error))
             else ret None) ;;
      match pass with
      | Some pullRequestUrl => ret (Some pullRequestUrl)
      | None => createPr_loop branchName rid commitMessage base retries' count
      end
  end.

Definition createPr (branchName rid commitMessage base : string) : Act (option string) :=
  createPr_loop branchName rid commitMessage base 5 0.

(** Resolves to [false] when the ref was created and to [true] when the
    platform answered 422. *)
Definition createBranch (owner repo newBranchName base : string) : Act bool :=
  info ("Creating branch " ++ newBranchName ++ " in the " ++ repo ++ " repository") ;;
  r <- getRefOidAndRepoId owner repo base ;;
  let headOid := fst r in
  let repoId := snd r in
  try_catch
    (ask (ECreateRef repoId ("refs/heads/" ++ newBranchName) headOid)
       (fun h => graphql_createRef env h repoId ("refs/heads/" ++ newBranchName) headOid) ;;
     ret false)
    (fun error =>
       if status_is error 422 then
         info ("Branch " ++ newBranchName ++ " already exists in the " ++ repo ++ " repository") ;;
         ret true
       else
         throw (new_Error ("Unable to create a branch " ++ newBranchName ++ " in the " ++ repo
                           ++ " repository: " ++ exn_toString error))).

Definition getFile (owner repo ref path : string) : Act GetFileResult :=
  try_catch
    (response <- ask (EReposGetContent owner repo path ref)
                   (fun h => repos_getContent env h owner repo path ref) ;;
     ret (GFresponse response))
    (fun error =>
       if status_is error 404 then ret GFfalse
       else throw (new_Error ("Unable to check if file " ++ path ++ " exists in the " ++ repo
                              ++ " repository: " ++ exn_toString error))).

Definition fileExists (owner repo ref path : string) : Act bool :=
  file <- getFile owner repo ref path ;;
  ret (match file with GFfalse => false | GFresponse _ => true end).

(** [response["createCommitOnBranch"]["commit"]["url"]] *)
Definition commit_url_of (d : CommitData) : Act string :=
  match cd_createCommitOnBranch d with
  | None => throw (TypeError "Cannot read properties of null (reading 'commit')")
  | Some p =>
      match cp_commit p with
      | None => throw (TypeError "Cannot read properties of null (reading 'url')")
      | Some u => ret u
      end
  end.

(** The [while (tries > 0)] loop of [commitFiles]: [tries] only goes down
    in the catch clause, once per pass that ended with 'Response is null'.
    When it reaches zero the function ends without a [return]. *)
Fixpoint commitFiles_loop (owner repo branch : string) (fileChanges : FileChanges)
    (commitMessage : string) (tries : nat) : Act (option string) :=
  match tries with
  | O => ret None
  | S tries' =>
      pass <-
        try_catch
          (r <- getRefOidAndRepoId owner repo branch ;;
           let headOid := fst r in
           debug ;; debug ;; debug ;;
           response <- ask (ECreateCommitOnBranch (owner ++ "/" ++ repo) branch fileChanges
                              commitMessage headOid)
                         (fun h => graphql_createCommitOnBranch env h (owner ++ "/" ++ repo) branch
                                     fileChanges commitMessage headOid) ;;
           debug ;; debug ;;
           match response with
           | None => throw (new_Error "Response is null")
           | Some d => u <- commit_url_of d ;; ret (Some u)
           end)
          (fun error =>
             if String.eqb (exn_message error) "Response is null" then
               sleep 1000 ;; ret None
             else
               throw (new_Error ("Unable to commit changes to the " ++ repo ++ " repository: "
                                 ++ exn_toString error))) ;;
      match pass with
      | Some u => ret (Some u)
      | None => commitFiles_loop owner repo branch fileChanges commitMessage tries'
      end
  end.

Definition commitFiles (owner repo branch : string) (fileChanges : FileChanges)
    (commitMessage : string) : Act (option string) :=
  info ("Committing changes to the " ++ repo ++ " repository") ;;
  commitFiles_loop owner repo branch fileChanges commitMessage 10.

End WithEnv.

End ApiCalls.

(** ** [src/unnamed/part_000]: the entry point *)

Module Action.

Import ApiCalls.

(** [eventPayload.inputs] of a [workflow_dispatch] event. *)
Record PayloadInputs : Type := mkPayloadInputs { repo_name : option string }.

(** What the process is started with: environment variables, the parsed
    event payload, the working directory and the workflow inputs as
    [core.getInput] returns them. *)
Record Config : Type := mkConfig {
  GITHUB_EVENT_NAME : option string;
  GITHUB_TOKEN : option string;
  GITHUB_REPOSITORY : option string;
  payload_inputs : option PayloadInputs;
  payload_commits : option (list string);   (* the [id] of each of [eventPayload.commits] *)
  cwd : string;
  getInput : string -> string
}.

(** The double-quote character. *)
Definition dq : string := String (Ascii.ascii_of_nat 34) EmptyString.

Definition opt_is (o : option string) (s : string) : bool :=
  match o with
  | Some x => String.eqb x s
  | None => false
  end.

(** [core.getInput(name, { required: true })] *)
Definition getInput_required (cfg : Config) (key : string) : Act string :=
  if truthy (getInput cfg key) then ret (getInput cfg key)
  else throw (new_Error ("Input required and not supplied: " ++ key)).

(** [arr.includes(x)] on an array of strings. *)
Definition includes (arr : list string) (x : string) : bool :=
  existsb (String.eqb x) arr.

(** [if (fc["additions"] == null) fc["additions"] = []; fc["additions"].push(x)] *)
Definition push_addition (fc : FileChanges) (x : Json) : FileChanges :=
  {| additions := Some (match additions fc with
                        | None => [x]
                        | Some l => (l ++ [x])%list
                        end);
     deletions := deletions fc |}.

Definition push_deletion (fc : FileChanges) (x : Json) : FileChanges :=
  {| additions := additions fc;
     deletions := Some (match deletions fc with
                        | None => [x]
                        | Some l => (l ++ [x])%list
                        end) |}.

(** [fileChanges["additions"] || fileChanges["deletions"]]: an array is
    truthy even when empty, an absent key is not. *)
Definition has_changes (fc : FileChanges) : bool :=
  match additions fc, deletions fc with
  | None, None => false
  | _, _ => true
  end.

Section WithEnv.

Variable env : Env.
Variable cfg : Config.

(** The variables of [run] that the per-repository loop closes over. *)
Record Locals : Type := mkLocals {
  owner : string;
  commitId : string;
  commitMessage : string;
  destination : string;
  customBranchName : string;
  filesToReplicate : option (list string);   (* [None]: still [undefined] *)
  filesToRemove : option (list string);
  ignoredRepositories : list string
}.

Variable L : Locals.

(** Lines 114-128: the body of [for (const path of filesToReplicate)],
    iterated over the remaining [paths]. *)
Fixpoint replicate_loop (repo : Repo) (paths : list string) (fileChanges : FileChanges)
    : Act FileChanges :=
  match paths with
  | [] => ret fileChanges
  | path :: rest =>
      targetContentsBefore <- getFile env (owner L) (name repo) (defaultBranch repo) path ;;
      sourceContents <- ask (EReadFile (cwd cfg ++ "/" ++ path))
                          (fun h => fs_readFile env h (cwd cfg ++ "/" ++ path)) ;;
      debug ;; debug ;; debug ;; debug ;;
      fileChanges' <-
        (if negb (String.eqb sourceContents (getFile_toString targetContentsBefore)) then
           entry <- ask (EEncodeAdditions (filesToReplicate L) (destination L))
                      (fun h => utils_encodeAdditions env h (filesToReplicate L) (destination L)) ;;
           ret (push_addition fileChanges entry)
         else ret fileChanges) ;;
      replicate_loop repo rest fileChanges'
  end.

(** Lines 130-136: the body of [for (const path in filesToRemove)],
    iterated over the remaining keys. *)
Fixpoint remove_loop (repo : Repo) (keys : list string) (fileChanges : FileChanges)
    : Act FileChanges :=
  match keys with
  | [] => ret fileChanges
  | path :: rest =>
      ex <- fileExists env (owner L) (name repo) (defaultBranch repo) path ;;
      fileChanges' <-
        (if ex : bool then
           entry <- ask (EEncodeDeletions (filesToRemove L) (destination L))
                      (fun h => utils_encodeDeletions env h (filesToRemove L) (destination L)) ;;
           ret (push_deletion fileChanges entry)
         else ret fileChanges) ;;
      remove_loop repo rest fileChanges'
  end.

(** Lines 112-136, step 4a: [for ... of] over [undefined] throws, while
    [for ... in] over [undefined] runs zero times. *)
Definition diff (repo : Repo) : Act FileChanges :=
  let fileChanges := {| additions := None; deletions := None |} in
  fileChanges <-
    match filesToReplicate L with
    | None => throw (TypeError "filesToReplicate is not iterable")
    | Some paths => replicate_loop repo paths fileChanges
    end ;;
  remove_loop repo
    (match filesToRemove L with
     | None => []
     | Some arr => for_in_keys arr
     end)
    fileChanges.

(** Lines 162-178: the PR step and the closing report. *)
Definition pr_step (repo : Repo) (newBranchName : string) (wasBranchThereAlready : bool)
    : Act unit :=
  pullRequestUrl <-
    try_catch
      (createPr env newBranchName (id repo) (commitMessage L) (defaultBranch repo))
      (fun error =>
         when wasBranchThereAlready
           (info ("PR creation for " ++ name repo
                  ++ " failed as the branch was there already. Insted only push was performed to existing "
                  ++ newBranchName ++ " branch")) ;;
         ret None) ;;
  endGroup ;;
  if truthy_opt pullRequestUrl then
    info ("Workflow finished with success and PR for " ++ name repo ++ " is created -> "
          ++ template_opt pullRequestUrl)
  else if negb (truthy_opt pullRequestUrl) && wasBranchThereAlready then
    info ("Workflow finished without PR creation for " ++ name repo
          ++ ". Insted push was performed to existing " ++ newBranchName ++ " branch")
  else
    info ("Unable to create a PR because of timeouts. Create PR manually from the branch "
          ++ newBranchName ++ " that was already created in the upstream").

(** Lines 145-178: from the branch line to the closing report.  The
    file has no strict-mode directive, so the assignment to the undeclared
    [commitUrl] creates a global and does not throw. *)
Definition commit_and_pr (repo : Repo) (fileChanges : FileChanges) (newBranchName : string)
    (wasBranchThereAlready : bool) : Act unit :=
  (if wasBranchThereAlready then
     info ("Branch " ++ newBranchName ++ " already exists in the " ++ name repo ++ " repo")
   else
     info ("Branch " ++ newBranchName ++ " was created in the " ++ name repo ++ " repo")) ;;
  commitUrl <- commitFiles env (owner L) (name repo) newBranchName fileChanges (commitMessage L) ;;
  info ("Commit was created in the " ++ name repo ++ " repo -> " ++ template_opt commitUrl) ;;
  pr_step repo newBranchName wasBranchThereAlready.

(** Lines 138-183, steps 4b to 4f. *)
Definition mutate (repo : Repo) (fileChanges : FileChanges) : Act unit :=
  if has_changes fileChanges then
    newBranchName <- ask (EGetBranchName (customBranchName L) (commitId L))
                       (fun h => utils_getBranchName env h (customBranchName L) (commitId L)) ;;
    wasBranchThereAlready <-
      createBranch env (owner L) (name repo) newBranchName (defaultBranch repo) ;;
    commit_and_pr repo fileChanges newBranchName wasBranchThereAlready
  else
    info ("No changes in repo " ++ name repo ++ " detected") ;;
    endGroup.

(** Lines 105-184: the [try] block of one iteration. *)
Definition process_repo (repo : Repo) : Act unit :=
  if negb (includes (ignoredRepositories L) (name repo)) then
    startGroup ("Started updating " ++ name repo ++ " repo") ;;
    fileChanges <- diff repo ;;
    mutate repo fileChanges
  else ret tt.

(** Lines 103-189: one iteration with its [catch] clause. *)
Definition iteration (repo : Repo) : Act unit :=
  try_catch
    (process_repo repo)
    (fun error =>
       endGroup ;;
       warning ("Failed replicating files for this repo: " ++ exn_toString error)).

(** Line 102: [for (const repo of reposList)]. *)
Fixpoint for_each_repo (reposList : list Repo) : Act unit :=
  match reposList with
  | [] => ret tt
  | repo :: rest => iteration repo ;; for_each_repo rest
  end.

End WithEnv.

Section Run.

Variable env : Env.
Variable cfg : Config.

(** Lines 30-190: the body of the outer [try]. *)
Definition main (isPush isWorkflowDispatch : bool) : Act unit :=
  gitHubKey <-
    (if truthy_opt (GITHUB_TOKEN cfg) then ret (template_opt (GITHUB_TOKEN cfg))
     else getInput_required cfg "github_token") ;;
  let patternsToIgnore := getInput cfg "patterns_to_ignore" in
  let patternsToInclude := getInput cfg "patterns_to_include" in
  let patternsToRemove := getInput cfg "patterns_to_remove" in
  let commitMessage := getInput cfg "commit_message" in
  let branches := getInput cfg "branches" in
  let destination := getInput cfg "destination" in
  let customBranchName := getInput cfg "bot_branch_name" in
  let repoNameManual :=
    match payload_inputs cfg with
    | None => None
    | Some inputs => repo_name inputs
    end in
  pieces <-
    match GITHUB_REPOSITORY cfg with
    | None => throw (TypeError "Cannot read properties of undefined (reading 'split')")
    | Some s => ret (split "/" s)
    end ;;
  let owner := hd "" pieces in
  let repo := nth_error pieces 1 in
  commitId <-
    (if isPush : bool then
       match payload_commits cfg with
       | None => throw (TypeError "Cannot read properties of undefined (reading '0')")
       | Some [] => throw (TypeError "Cannot read properties of undefined (reading 'id')")
       | Some (c :: _) => ret c
       end
     else ret "") ;;
  if truthy patternsToRemove && truthy patternsToInclude then
    setFailed "Fields patterns_to_include and patterns_to_remove are mutually exclusive. If you want to remove files from repos then do not use patterns_to_include."
  else
    when (truthy patternsToRemove && truthy destination)
      (warning "The destination field will be ignored as it doesn't make sense when removal is expected and patterns_to_remove field is used") ;;
    selection <-
      (if negb (truthy patternsToRemove) then
         filesToCheckForReplication <-
           ask (EGetListOfFilesToReplicate commitId owner repo patternsToIgnore patternsToInclude
                  (GITHUB_EVENT_NAME cfg))
             (fun h => utils_getListOfFilesToReplicate env h commitId owner repo patternsToIgnore
                         patternsToInclude (GITHUB_EVENT_NAME cfg)) ;;
         ret (Some filesToCheckForReplication)
       else ret None) ;;
    let filesToReplicate := option_map filesForReplication selection in
    let filesToRemove := option_map filesForRemoval selection in
    if match selection with
       | Some f =>
           (length (filesForReplication f) =? 0)%nat && (length (filesForRemoval f) =? 0)%nat
       | None => false
       end
    then ret tt
    else
      reposList <-
        (if isWorkflowDispatch && truthy_opt repoNameManual then
           r <- getRepo env owner (template_opt repoNameManual) ;;
           ret [r]
         else getReposList env owner) ;;
      let opts :=
        {| reposToIgnore := getInput cfg "repos_to_ignore";
           topicsToInclude := getInput cfg "topics_to_include";
           excludePrivate := String.eqb (getInput cfg "exclude_private") "true";
           excludeForked := String.eqb (getInput cfg "exclude_forked") "true" |} in
      ignoredRepositories <-
        ask (EGetListOfReposToIgnore repo reposList opts)
          (fun h => utils_getListOfReposToIgnore env h repo reposList opts) ;;
      for_each_repo env cfg
        {| owner := owner;
           commitId := commitId;
           commitMessage := commitMessage;
           destination := destination;
           customBranchName := customBranchName;
           filesToReplicate := filesToReplicate;
           filesToRemove := filesToRemove;
           ignoredRepositories := ignoredRepositories |}
        reposList.

(** Lines 15-194. *)
Definition run : Act unit :=
  let isPush := opt_is (GITHUB_EVENT_NAME cfg) "push" in
  when isPush (info "Workflow started on push event") ;;
  let isWorkflowDispatch := opt_is (GITHUB_EVENT_NAME cfg) "workflow_dispatch" in
  when isWorkflowDispatch (info "Workflow started on workflow_dispatch event") ;;
  if negb isPush && negb isWorkflowDispatch then
    setFailed ("This GitHub Action works only when triggered by " ++ dq ++ "push" ++ dq
               ++ " or " ++ dq ++ "workflow_dispatch" ++ dq ++ " webhooks.")
  else
    debug ;; debug ;;
    try_catch
      (main isPush isWorkflowDispatch)
      (fun error => setFailed ("Action failed because of: " ++ exn_toString error)).

End Run.

End Action.

(** * The vocabulary of the properties *)

(** The trace [t] begins with the events [p]. *)
Definition starts_with (p t : Trace) : Prop := exists rest, t = (p ++ rest)%list.

(** A computation all of whose events satisfy [P], whatever the history. *)
Definition emits (P : Event -> bool) {A : Type} (m : Act A) : Prop :=
  forall h, forallb P (snd (m h)) = true.

(** A computation whose result and events do not depend on the history. *)
Definition steady {A : Type} (m : Act A) : Prop := forall h h', m h = m h'.

(** ** What the code logs and asks, by step *)

Module Vocabulary.

Import ApiCalls Action.

(** What the catch clause of an iteration logs for the error [e]. *)
Definition failure_report (e : Exn) : Trace :=
  [ EEndGroup; EWarning ("Failed replicating files for this repo: " ++ exn_toString e) ].

(** The answers of the environment never depend on the history. *)
Record steady_env (env : Env) : Prop := mkSteadyEnv {
  st_getContent : forall h h', repos_getContent env h = repos_getContent env h';
  st_headOid : forall h h', graphql_headOid env h = graphql_headOid env h';
  st_createRef : forall h h', graphql_createRef env h = graphql_createRef env h';
  st_createCommit :
    forall h h', graphql_createCommitOnBranch env h = graphql_createCommitOnBranch env h';
  st_createPr : forall h h', graphql_createPullRequest env h = graphql_createPullRequest env h';
  st_readFile : forall h h', fs_readFile env h = fs_readFile env h';
  st_getBranchName : forall h h', utils_getBranchName env h = utils_getBranchName env h';
  st_encodeAdditions : forall h h', utils_encodeAdditions env h = utils_encodeAdditions env h';
  st_encodeDeletions : forall h h', utils_encodeDeletions env h = utils_encodeDeletions env h'
}.

(** A line logged with [core.warning]. *)
Definition is_warning (ev : Event) : bool :=
  match ev with
  | EWarning _ => true
  | _ => false
  end.

(** The events of the [k]-th attempt of [createPr]. *)
Definition attempt_events (branchName rid commitMessage base : string) (k : nat) : Trace :=
  [ EInfo "Waiting 5sec before PR creation";
    ESleep 5000;
    EInfo ("PR creation attempt " ++ index_key k);
    ECreatePullRequest branchName rid commitMessage base ].

(** What the platform is shown when the [k]-th attempt's mutation is sent. *)
Definition before_call (h : History) (k : nat) : History :=
  (h ++ [ EInfo "Waiting 5sec before PR creation";
          ESleep 5000;
          EInfo ("PR creation attempt " ++ index_key k) ])%list.

(** [true] when the catch clause of [createPr] lets the loop go on. *)
Definition retryable (e : Exn) : bool :=
  String.eqb (exn_message e) "was submitted too quickly".

(** What [pr_step] logs after [createPr] threw. *)
Definition after_pr_failure (repo : Repo) (newBranchName : string)
    (wasBranchThereAlready : bool) : Trace :=
  if wasBranchThereAlready then
    [ EInfo ("PR creation for " ++ name repo
             ++ " failed as the branch was there already. Insted only push was performed to existing "
             ++ newBranchName ++ " branch");
      EEndGroup;
      EInfo ("Workflow finished without PR creation for " ++ name repo
             ++ ". Insted push was performed to existing " ++ newBranchName ++ " branch") ]
  else
    [ EEndGroup;
      EInfo ("Unable to create a PR because of timeouts. Create PR manually from the branch "
             ++ newBranchName ++ " that was already created in the upstream") ].

Definition creating_line (repo newBranchName : string) : Event :=
  EInfo ("Creating branch " ++ newBranchName ++ " in the " ++ repo ++ " repository").

(** An event that reaches outside the process: the platform, the file
    system or a helper of [./utils].  Log lines and sleeps are not. *)
Definition is_outside_call (ev : Event) : bool :=
  match ev with
  | EInfo _ | EWarning _ | EDebug | ESetFailed _ | EStartGroup _ | EEndGroup | ESleep _ => false
  | _ => true
  end.

Definition mutually_exclusive_message : string :=
  "Fields patterns_to_include and patterns_to_remove are mutually exclusive. If you want to remove files from repos then do not use patterns_to_include.".

(** The run gets as far as line 52: the trigger is one of the two
    supported events, a token is available, [GITHUB_REPOSITORY] is set
    and, on a push, the payload lists a commit. *)
Definition reaches_pattern_check (cfg : Config) : bool :=
  (opt_is (GITHUB_EVENT_NAME cfg) "push" || opt_is (GITHUB_EVENT_NAME cfg) "workflow_dispatch")
  && (truthy_opt (GITHUB_TOKEN cfg) || truthy (getInput cfg "github_token"))
  && match GITHUB_REPOSITORY cfg with Some _ => true | None => false end
  && (if opt_is (GITHUB_EVENT_NAME cfg) "push" then
        match payload_commits cfg with
        | Some (_ :: _) => true
        | _ => false
        end
      else true).

(** Everything the diff and mutation steps do outside the process, and
    the file selection of step 1. *)
Definition is_selection_or_repo_work (ev : Event) : bool :=
  match ev with
  | EGetListOfFilesToReplicate _ _ _ _ _ _ => true
  | EReposGetContent _ _ _ _ => true
  | EReadFile _ => true
  | EEncodeAdditions _ _ => true
  | EEncodeDeletions _ _ => true
  | EGetBranchName _ _ => true
  | EHeadOidQuery _ _ _ => true
  | ECreateRef _ _ _ => true
  | ECreateCommitOnBranch _ _ _ _ _ => true
  | ECreatePullRequest _ _ _ _ => true
  | _ => false
  end.

Definition removal_mode_allows (ev : Event) : bool := negb (is_selection_or_repo_work ev).

(** What one iteration emits while [filesToReplicate] is [undefined]. *)
Definition undefined_selection_events (L : Locals) (repo : Repo) : Trace :=
  if includes (ignoredRepositories L) (name repo) then []
  else
    [ EStartGroup ("Started updating " ++ name repo ++ " repo");
      EEndGroup;
      EWarning "Failed replicating files for this repo: TypeError: filesToReplicate is not iterable" ].

End Vocabulary.

(** ** Concrete environments *)

Module Scenario.

Import ApiCalls Action.

(** What a scenario fixes about the remote side. *)
Record Remote : Type := mkRemote {
  r_repos : list RepoData;
  r_file : string -> string -> option string;        (* repository, path *)
  r_createRef : string -> Result unit;               (* repository id *)
  r_commit : string -> Result (option CommitData);   (* owner/name *)
  r_pr : string -> Result (option PrData)            (* repository id *)
}.

Definition not_found : Exn :=
  {| exn_name := "HttpError"; exn_message := "Not Found"; exn_status := Some 404%Z |}.

Definition already_exists : Exn :=
  {| exn_name := "HttpError";
     exn_message := "Reference already exists";
     exn_status := Some 422%Z |}.

Definition forbidden : Exn :=
  {| exn_name := "HttpError";
     exn_message := "Resource not accessible by integration";
     exn_status := Some 403%Z |}.

Definition too_quickly : Exn :=
  {| exn_name := "GraphqlResponseError";
     exn_message := "was submitted too quickly";
     exn_status := None |}.

Definition enoent : Exn :=
  {| exn_name := "Error"; exn_message := "ENOENT: no such file or directory"; exn_status := None |}.

Definition paths_of (files : option (list string)) : Json :=
  JArr (map JStr (match files with Some l => l | None => [] end)).

(** An environment whose answers never depend on the history.  The helpers
    of [./utils] are stand-ins: the branch is [sync/<commit id>], the hub
    itself is the one ignored repository, and an encoded entry only shows
    which list the encoder was handed. *)
Definition world (rm : Remote) (local : string -> option string) (fl : FileLists) : Env :=
  {| orgs_get := fun _ _ => Ok tt;
     users_getByUsername := fun _ _ => Ok tt;
     paginate := fun _ _ _ _ => Ok (r_repos rm);
     repos_get := fun _ _ rname =>
       match find (fun d => String.eqb (rd_name d) rname) (r_repos rm) with
       | Some d => Ok d
       | None => Throw not_found
       end;
     repos_getContent := fun _ _ rname path _ =>
       match r_file rm rname path with
       | Some bytes => Ok {| cr_status := 200; cr_bytes := bytes |}
       | None => Throw not_found
       end;
     graphql_headOid := fun _ _ rname _ =>
       Ok (Some {| hd_repository :=
                     Some {| rn_id := "id-" ++ rname;
                             rn_ref := Some {| ref_target := Some "0a1b2c" |} |} |});
     graphql_createRef := fun _ repoId _ _ => r_createRef rm repoId;
     graphql_createCommitOnBranch := fun _ nwo _ _ _ _ => r_commit rm nwo;
     graphql_createPullRequest := fun _ _ rid _ _ => r_pr rm rid;
     fs_readFile := fun _ path =>
       match local path with
       | Some bytes => Ok bytes
       | None => Throw enoent
       end;
     utils_getListOfFilesToReplicate := fun _ _ _ _ _ _ _ => Ok fl;
     utils_getListOfReposToIgnore := fun _ _ _ _ => Ok ["hub"];
     utils_getBranchName := fun _ _ commitId => Ok ("sync/" ++ commitId);
     utils_encodeAdditions := fun _ files _ => Ok (paths_of files);
     utils_encodeDeletions := fun _ files _ => Ok (paths_of files) |}.

Definition spoke (rname : string) : RepoData :=
  {| rd_name := rname;
     rd_html_url := "https://git.example/acme/" ++ rname;
     rd_node_id := "id-" ++ rname;
     rd_default_branch := "main";
     rd_private := false;
     rd_fork := false;
     rd_archived := false;
     rd_topics := [] |}.

Definition commit_ok : Result (option CommitData) :=
  Ok (Some {| cd_createCommitOnBranch := Some {| cp_commit := Some "https://git.example/c/1" |} |}).

Definition pr_ok : Result (option PrData) :=
  Ok (Some {| pd_createPullRequest := Some {| pp_pullRequest := Some "https://git.example/pr/1" |} |}).

(** A healthy remote with the given repositories and files. *)
Definition healthy (repos : list string) (file : string -> string -> option string) : Remote :=
  {| r_repos := map spoke repos;
     r_file := file;
     r_createRef := fun _ => Ok tt;
     r_commit := fun _ => commit_ok;
     r_pr := fun _ => pr_ok |}.

(** A push to [acme/hub] whose first commit is [abc123]; [inputs] lists the
    workflow inputs that are set. *)
Definition push_config (inputs : list (string * string)) : Config :=
  {| GITHUB_EVENT_NAME := Some "push";
     GITHUB_TOKEN := Some "token";
     GITHUB_REPOSITORY := Some "acme/hub";
     payload_inputs := None;
     payload_commits := Some ["abc123"];
     cwd := "/work";
     getInput := fun key =>
       match find (fun kv => String.eqb (fst kv) key) inputs with
       | Some kv => snd kv
       | None => ""
       end |}.

(** The local checkout: [/work/README.md] and [/work/LICENSE]. *)
Definition checkout (path : string) : option string :=
  if String.eqb path "/work/README.md" then Some "hello"
  else if String.eqb path "/work/LICENSE" then Some "MIT"
  else None.

(** The loop's variables as [run] sets them up on a [push_config] whose
    [commit_message] input is [sync files]. *)
Definition locals (fl : option FileLists) : Locals :=
  {| owner := "acme";
     commitId := "abc123";
     commitMessage := "sync files";
     destination := "";
     customBranchName := "";
     filesToReplicate := option_map filesForReplication fl;
     filesToRemove := option_map filesForRemoval fl;
     ignoredRepositories := ["hub"] |}.

(** The closing line of each repository's processing. *)
Definition is_summary (ev : Event) : bool :=
  match ev with
  | EWarning _ => true
  | EInfo msg =>
      String.prefix "Workflow finished" msg || String.prefix "No changes" msg
      || String.prefix "Unable to create a PR" msg
  | _ => false
  end.

Definition is_remote_write (ev : Event) : bool :=
  match ev with
  | ECreateRef _ _ _ => true
  | ECreateCommitOnBranch _ _ _ _ _ => true
  | ECreatePullRequest _ _ _ _ => true
  | _ => false
  end.

(** The events that tell how a repository's processing went: remote
    writes, warnings, branch lines and closing lines. *)
Definition is_milestone (ev : Event) : bool :=
  is_remote_write ev || is_summary ev
  || match ev with
     | EInfo msg => String.prefix "Branch " msg || String.prefix "Commit was created" msg
     | _ => false
     end.

Definition is_content_read (ev : Event) : bool :=
  match ev with
  | EReposGetContent _ _ _ _ => true
  | _ => false
  end.

Definition spoke1 : Repo := ApiCalls.repoDetails_of (spoke "spoke1").

(** Three spokes; the commit mutation is refused for the second one. *)
Definition commit_refused_for (rname : string) : Remote :=
  {| r_repos := map spoke ["alpha"; "beta"; "gamma"];
     r_file := fun _ _ => None;
     r_createRef := fun _ => Ok tt;
     r_commit := fun nwo =>
       if String.eqb nwo ("acme/" ++ rname) then Throw forbidden
       else commit_ok;
     r_pr := fun _ => pr_ok |}.

Definition three_spokes_env : Env :=
  world (commit_refused_for "beta") checkout (mkFileLists ["README.md"] []).

Definition three_spokes : list Repo :=
  map repoDetails_of (map spoke ["alpha"; "beta"; "gamma"]).

Definition three_spokes_locals : Locals :=
  locals (Some (mkFileLists ["README.md"] [])).

(** Two spokes; creating the sync ref is refused for the first one with
    the given error. *)
Definition ref_refused (e : Exn) : Remote :=
  {| r_repos := map spoke ["spoke1"; "spoke2"];
     r_file := fun _ _ => None;
     r_createRef := fun repoId =>
       if String.eqb repoId "id-spoke1" then Throw e else Ok tt;
     r_commit := fun _ => commit_ok;
     r_pr := fun _ => pr_ok |}.

(** The remote copy of [README.md] equals the local one, byte for byte. *)
Definition same_readme (path : string) : option string :=
  if String.eqb path "README.md" then Some "hello" else None.

(** The remote [README.md] differs from the local one, the remote
    [LICENSE] does not. *)
Definition stale_readme (path : string) : option string :=
  if String.eqb path "README.md" then Some "old"
  else if String.eqb path "LICENSE" then Some "MIT"
  else None.

(** The remote holds [legacy/old.yml] and nothing else. *)
Definition legacy_only (path : string) : option string :=
  if String.eqb path "legacy/old.yml" then Some "x" else None.

(** The remote holds a file named [0] and nothing else. *)
Definition zero_only (path : string) : option string :=
  if String.eqb path "0" then Some "x" else None.

(** A checkout whose [flag.txt] holds the five characters [false]. *)
Definition flag_checkout (path : string) : option string :=
  if String.eqb path "/work/flag.txt" then Some "false" else None.

Definition one_spoke (file : string -> option string) (local : string -> option string)
    (fl : FileLists) : Env :=
  world (healthy ["spoke1"] (fun _ => file)) local fl.

Definition sync_inputs : list (string * string) := [("commit_message", "sync files")].

(** The commit mutation answers [null], every time. *)
Definition commit_always_null : Remote :=
  {| r_repos := [spoke "spoke1"];
     r_file := fun _ _ => None;
     r_createRef := fun _ => Ok tt;
     r_commit := fun _ => Ok None;
     r_pr := fun _ => pr_ok |}.

Definition is_commit_call (ev : Event) : bool :=
  match ev with
  | ECreateCommitOnBranch _ _ _ _ _ => true
  | _ => false
  end.

Definition is_head_query_for (branch : string) (ev : Event) : bool :=
  match ev with
  | EHeadOidQuery _ _ ref => String.eqb ref ("refs/heads/" ++ branch)
  | _ => false
  end.

Definition is_second_sleep (ev : Event) : bool :=
  match ev with
  | ESleep ms => Z.eqb ms 1000
  | _ => false
  end.

(** Branch and commit succeed, the pull request is refused. *)
Definition pr_refused : Remote :=
  {| r_repos := [spoke "spoke1"];
     r_file := fun _ _ => None;
     r_createRef := fun _ => Ok tt;
     r_commit := fun _ => commit_ok;
     r_pr := fun _ => Throw forbidden |}.

Definition pr_refused_env : Env := world pr_refused checkout (mkFileLists ["README.md"] []).

End Scenario.

(** ** Further vocabulary: what each step may emit *)

Module Coverage.

Import ApiCalls Action Vocabulary.

(** A call to [core.setFailed]. *)
Definition is_setFailed (ev : Event) : bool :=
  match ev with
  | ESetFailed _ => true
  | _ => false
  end.

Definition quiet (ev : Event) : bool := negb (is_setFailed ev).

(** The calls [getReposList] makes to find and list an account. *)
Definition is_account_listing (ev : Event) : bool :=
  match ev with
  | EOrgsGet _ | EUsersGetByUsername _ | EPaginate _ _ _ => true
  | _ => false
  end.

(** The events the processing of one repository can emit: log lines other
    than [setFailed], sleeps, local reads, content requests, the branch
    name and encoder helpers, and the GraphQL calls. *)
Definition repo_work_event (ev : Event) : bool :=
  match ev with
  | EInfo _ | EWarning _ | EDebug | EStartGroup _ | EEndGroup | ESleep _ => true
  | EReadFile _ | EReposGetContent _ _ _ _ => true
  | EEncodeAdditions _ _ | EEncodeDeletions _ _ | EGetBranchName _ _ => true
  | EHeadOidQuery _ _ _ | ECreateRef _ _ _ => true
  | ECreateCommitOnBranch _ _ _ _ _ | ECreatePullRequest _ _ _ _ => true
  | _ => false
  end.

Definition is_head_query (ev : Event) : bool :=
  match ev with
  | EHeadOidQuery _ _ _ => true
  | _ => false
  end.

Definition is_commit_mutation (ev : Event) : bool :=
  match ev with
  | ECreateCommitOnBranch _ _ _ _ _ => true
  | _ => false
  end.

Definition is_ref_mutation (ev : Event) : bool :=
  match ev with
  | ECreateRef _ _ _ => true
  | _ => false
  end.

Definition is_pr_mutation (ev : Event) : bool :=
  match ev with
  | ECreatePullRequest _ _ _ _ => true
  | _ => false
  end.

(** The three mutations of the platform's state. *)
Definition is_mutation (ev : Event) : bool :=
  is_ref_mutation ev || is_commit_mutation ev || is_pr_mutation ev.

Definition is_one_second_sleep (ev : Event) : bool :=
  match ev with
  | ESleep ms => Z.eqb ms 1000
  | _ => false
  end.

Definition count (P : Event -> bool) (t : Trace) : nat := length (filter P t).

(** What [commitFiles] may emit when asked to commit [fileChanges] with
    [message] to [branch] of [owner]/[repo]: log lines, one-second sleeps,
    head queries for that branch and commit mutations for that very
    branch, change set and message. *)
Definition commit_event_ok (owner repo branch : string) (fileChanges : FileChanges)
    (message : string) (ev : Event) : Prop :=
  match ev with
  | EInfo _ | EDebug => True
  | ESleep ms => ms = 1000%Z
  | EHeadOidQuery o r ref => o = owner /\ r = repo /\ ref = "refs/heads/" ++ branch
  | ECreateCommitOnBranch nwo b fc headline _ =>
      nwo = owner ++ "/" ++ repo /\ b = branch /\ fc = fileChanges /\ headline = message
  | _ => False
  end.

(** The error [commitFiles] throws for the cause [e]. *)
Definition commit_error (repo : string) (e : Exn) : Exn :=
  new_Error ("Unable to commit changes to the " ++ repo ++ " repository: " ++ exn_toString e).

(** What the diff step may emit for [repo]: debug lines, content requests
    for that repository at its default branch, reads below the working
    directory, and encoder calls on the two lists of the run. *)
Definition diff_event_ok (cfg : Config) (L : Locals) (repo : Repo) (ev : Event) : Prop :=
  match ev with
  | EDebug => True
  | EReposGetContent o r _ ref => o = owner L /\ r = name repo /\ ref = defaultBranch repo
  | EReadFile p => exists path, p = cwd cfg ++ "/" ++ path
  | EEncodeAdditions files d => files = filesToReplicate L /\ d = destination L
  | EEncodeDeletions files d => files = filesToRemove L /\ d = destination L
  | _ => False
  end.

Definition is_content_request (ev : Event) : bool :=
  match ev with
  | EReposGetContent _ _ _ _ => true
  | _ => false
  end.

Definition is_local_read (ev : Event) : bool :=
  match ev with
  | EReadFile _ => true
  | _ => false
  end.

(** How many entries each loop of the diff step runs over. *)
Definition replicate_count (L : Locals) : nat :=
  match filesToReplicate L with
  | Some paths => length paths
  | None => 0
  end.

Definition remove_count (L : Locals) : nat :=
  match filesToRemove L with
  | Some arr => length arr
  | None => 0
  end.

(** The repository is not on the list of ignored names. *)
Definition selected (L : Locals) (repo : Repo) : bool :=
  negb (includes (ignoredRepositories L) (name repo)).

Definition trigger_message : string :=
  "This GitHub Action works only when triggered by " ++ dq ++ "push" ++ dq
  ++ " or " ++ dq ++ "workflow_dispatch" ++ dq ++ " webhooks.".

(** [run]'s result and trace are tidy when [setFailed] is either absent or
    the very last event. *)
Definition failed_last_or_never (t : Trace) : Prop :=
  forallb quiet t = true
  \/ exists pre msg, t = (pre ++ [ESetFailed msg])%list /\ forallb quiet pre = true.

(** The descriptors [getReposList] builds from a listing answer. *)
Definition listing_result (answer : Result (list RepoData)) : Result (list Repo) :=
  match answer with
  | Ok data => Ok (map repoDetails_of data)
  | Throw e => Throw e
  end.

(** A thrown computation has not called [setFailed]; a finished one has
    called it last or not at all. *)
Definition tidy {A : Type} (m : Act A) : Prop :=
  forall h,
    match fst (m h) with
    | Throw _ => forallb quiet (snd (m h)) = true
    | Ok _ => failed_last_or_never (snd (m h))
    end.

(** What the run may ask when the repository is named by hand: no account
    lookup, no listing, and the one repository request is for [rname]. *)
Definition manual_target_only (rname : string) (ev : Event) : bool :=
  match ev with
  | EOrgsGet _ | EUsersGetByUsername _ | EPaginate _ _ _ => false
  | EReposGet _ r => String.eqb r rname
  | _ => true
  end.

(** How one pass of the loop of [commitFiles] ends. *)
Inductive PassEnd : Type :=
  | PassUrl (u : string)
  | PassRetry
  | PassError (cause : Exn).

(** The catch clause seen from a pass that emitted [t] and ended with the
    error [e]: a one-second sleep and another pass, or the end. *)
Definition close_pass (e : Exn) (t : Trace) : PassEnd * Trace :=
  if String.eqb (exn_message e) "Response is null" then (PassRetry, (t ++ [ESleep 1000])%list)
  else (PassError e, t).

(** One pass of the loop of [commitFiles] entered at the history [h], told
    from the platform's answers: how it ends and what it emits. *)
Definition commit_pass (env : Env) (owner repo branch : string) (fileChanges : FileChanges)
    (message : string) (h : History) : PassEnd * Trace :=
  let query := EHeadOidQuery owner repo ("refs/heads/" ++ branch) in
  match fst (getRefOidAndRepoId env owner repo branch h) with
  | Throw e => close_pass e [query]
  | Ok (headOid, _) =>
      let sent := [query; EDebug; EDebug; EDebug;
                   ECreateCommitOnBranch (owner ++ "/" ++ repo) branch fileChanges message
                     headOid] in
      match graphql_createCommitOnBranch env (h ++ [query; EDebug; EDebug; EDebug])%list
              (owner ++ "/" ++ repo) branch fileChanges message headOid with
      | Throw e => close_pass e sent
      | Ok None => close_pass (new_Error "Response is null") (sent ++ [EDebug; EDebug])%list
      | Ok (Some d) =>
          match fst (commit_url_of d []) with
          | Ok u => (PassUrl u, (sent ++ [EDebug; EDebug])%list)
          | Throw e => close_pass e (sent ++ [EDebug; EDebug])%list
          end
      end
  end.

(** The history at the start of pass number [j] (from 0) of a loop entered
    at [h], every pass before it having been made. *)
Fixpoint history_before_pass (env : Env) (owner repo branch : string)
    (fileChanges : FileChanges) (message : string) (h : History) (j : nat) : History :=
  match j with
  | O => h
  | S j' =>
      let hj := history_before_pass env owner repo branch fileChanges message h j' in
      (hj ++ snd (commit_pass env owner repo branch fileChanges message hj))%list
  end.

(** How pass number [j] of [commitFiles] started at [h] ends. *)
Definition commit_pass_end (env : Env) (owner repo branch : string) (fileChanges : FileChanges)
    (message : string) (h : History) (j : nat) : PassEnd :=
  fst (commit_pass env owner repo branch fileChanges message
         (history_before_pass env owner repo branch fileChanges message
            (h ++ [EInfo ("Committing changes to the " ++ repo ++ " repository")])%list j)).

(** What [commitFiles] resolves to when its last pass ended as [p]. *)
Definition commit_result_of (repo : string) (p : PassEnd) : Result (option string) :=
  match p with
  | PassUrl u => Ok (Some u)
  | PassRetry => Ok None
  | PassError cause => Throw (commit_error repo cause)
  end.

(** The catch clause of [commitFiles] at a pass that emitted [t] from the
    history [h] and ended with the error [e], [tries] passes being left
    after this one. *)
Definition after_commit_error (env : Env) (owner repo branch : string)
    (fileChanges : FileChanges) (message : string) (tries : nat) (h : History)
    (e : Exn) (t : Trace) : Result (option string) * Trace :=
  if String.eqb (exn_message e) "Response is null" then
    let next := commitFiles_loop env owner repo branch fileChanges message tries
                  (h ++ t ++ [ESleep 1000])%list in
    (fst next, (t ++ [ESleep 1000] ++ snd next)%list)
  else (Throw (commit_error repo e), t).

(** What holds of a run of the commit loop that started with [tries]
    passes left: at most [tries] head queries, never more commit mutations
    or one-second sleeps than head queries, only events of this commit;
    no URL and no error only when every pass was spent and slept; a URL
    only after a commit mutation was sent. *)
Definition commit_policy (owner repo branch : string) (fileChanges : FileChanges)
    (message : string) (tries : nat) (res : Result (option string) * Trace) : Prop :=
  count is_head_query (snd res) <= tries
  /\ count is_commit_mutation (snd res) <= count is_head_query (snd res)
  /\ count is_one_second_sleep (snd res) <= count is_head_query (snd res)
  /\ Forall (commit_event_ok owner repo branch fileChanges message) (snd res)
  /\ (fst res = Ok None ->
      count is_head_query (snd res) = tries /\ count is_one_second_sleep (snd res) = tries)
  /\ (forall u, fst res = Ok (Some u) -> 1 <= count is_commit_mutation (snd res)).

(** Every event of the computation satisfies [ok], whatever the history. *)
Definition within (ok : Event -> Prop) {A : Type} (m : Act A) : Prop :=
  forall h, Forall ok (snd (m h)).

(** The computation emits at most [n] events that satisfy [P]. *)
Definition at_most (P : Event -> bool) (n : nat) {A : Type} (m : Act A) : Prop :=
  forall h, count P (snd (m h)) <= n.

(** The environment of [env] in which every head query is answered by
    [answer], given the qualified ref. *)
Definition with_head_answer (env : Env) (answer : string -> Result (option HeadOidData)) : Env :=
  {| orgs_get := orgs_get env;
     users_getByUsername := users_getByUsername env;
     paginate := paginate env;
     repos_get := repos_get env;
     repos_getContent := repos_getContent env;
     graphql_headOid := fun _ _ _ ref => answer ref;
     graphql_createRef := graphql_createRef env;
     graphql_createCommitOnBranch := graphql_createCommitOnBranch env;
     graphql_createPullRequest := graphql_createPullRequest env;
     fs_readFile := fs_readFile env;
     utils_getListOfFilesToReplicate := utils_getListOfFilesToReplicate env;
     utils_getListOfReposToIgnore := utils_getListOfReposToIgnore env;
     utils_getBranchName := utils_getBranchName env;
     utils_encodeAdditions := utils_encodeAdditions env;
     utils_encodeDeletions := utils_encodeDeletions env |}.

(** The head of [main] is there, the head of any other branch is not
    visible yet. *)
Definition only_main_is_visible (ref : string) : Result (option HeadOidData) :=
  Ok (Some {| hd_repository :=
                Some {| rn_id := "id-spoke1";
                        rn_ref := if String.eqb ref "refs/heads/main"
                                  then Some {| ref_target := Some "0a1b2c" |}
                                  else None |} |}).

Definition lagging_env : Env :=
  with_head_answer
    (Scenario.world (Scenario.healthy ["spoke1"] (fun _ _ => None)) Scenario.checkout
       (mkFileLists ["README.md"] []))
    only_main_is_visible.

(** The mutations of a trace come in the order of the steps: at most one
    ref creation, then at most 10 commit mutations, then at most 5 pull
    request mutations, and none of the latter two without the first. *)
Definition in_step_order (t : Trace) : Prop :=
  exists refs commits prs,
    filter is_mutation t = (refs ++ commits ++ prs)%list
    /\ length refs <= 1 /\ forallb is_ref_mutation refs = true
    /\ length commits <= 10 /\ forallb is_commit_mutation commits = true
    /\ length prs <= 5 /\ forallb is_pr_mutation prs = true
    /\ (refs = [] -> commits = [] /\ prs = []).

Definition no_mutation (ev : Event) : bool := negb (is_mutation ev).

(** Not a mutation, or a pull request mutation. *)
Definition pr_or_none (ev : Event) : bool := negb (is_mutation ev) || is_pr_mutation ev.

(** The answer of the platform to attempt number [S j] of [createPr]
    started at the history [h], all attempts before it having been made. *)
Definition pr_answer (env : Env) (branchName rid commitMessage base : string)
    (h : History) (j : nat) : Result (option PrData) :=
  graphql_createPullRequest env
    (before_call
       (h ++ flat_map (attempt_events branchName rid commitMessage base) (seq 1 j))%list
       (S j))
    branchName rid commitMessage base.

(** The attempt was refused with the one error [createPr] retries on. *)
Definition refused_too_quickly (answer : Result (option PrData)) : bool :=
  match answer with
  | Throw e => retryable e
  | Ok _ => false
  end.

(** What [createPr] resolves to once [answer] was its last attempt's. *)
Definition pr_result_of (answer : Result (option PrData)) : Result (option string) :=
  match answer with
  | Ok response =>
      match fst (destructure_pr response []) with
      | Ok pullRequestUrl => Ok (Some pullRequestUrl)
      | Throw e => Throw (new_Error ("Unable to create a PR: " ++ exn_toString e))
      end
  | Throw e =>
      if retryable e then Ok None
      else Throw (new_Error ("Unable to create a PR: " ++ exn_toString e))
  end.

(** The closing line of [pr_step] when [createPr] resolved to [url]. *)
Definition closing_line (repo : Repo) (newBranchName : string) (wasBranchThereAlready : bool)
    (url : option string) : Event :=
  if truthy_opt url then
    EInfo ("Workflow finished with success and PR for " ++ name repo ++ " is created -> "
           ++ template_opt url)
  else if wasBranchThereAlready then
    EInfo ("Workflow finished without PR creation for " ++ name repo
           ++ ". Insted push was performed to existing " ++ newBranchName ++ " branch")
  else
    EInfo ("Unable to create a PR because of timeouts. Create PR manually from the branch "
           ++ newBranchName ++ " that was already created in the upstream").

Definition started_line (repo : Repo) : Event :=
  EStartGroup ("Started updating " ++ name repo ++ " repo").

Definition branch_line (repo : Repo) (newBranchName : string) (wasBranchThereAlready : bool)
    : Event :=
  EInfo ("Branch " ++ newBranchName
         ++ (if wasBranchThereAlready then " already exists in the " else " was created in the ")
         ++ name repo ++ " repo").

Definition committed_line (repo : Repo) (commitUrl : option string) : Event :=
  EInfo ("Commit was created in the " ++ name repo ++ " repo -> " ++ template_opt commitUrl).

(** Three spokes; the pull request is refused for one of them. *)
Definition pr_refused_for (rname : string) : Scenario.Remote :=
  {| Scenario.r_repos := map Scenario.spoke ["alpha"; "beta"; "gamma"];
     Scenario.r_file := fun _ _ => None;
     Scenario.r_createRef := fun _ => Ok tt;
     Scenario.r_commit := fun _ => Scenario.commit_ok;
     Scenario.r_pr := fun rid =>
       if String.eqb rid ("id-" ++ rname) then Throw Scenario.forbidden
       else Scenario.pr_ok |}.

Definition pr_refused_for_beta : Env :=
  Scenario.world (pr_refused_for "beta") Scenario.checkout (mkFileLists ["README.md"] []).

(** [owner] and [repo] as line 40 of [run] splits them. *)
Definition owner_of (cfg : Config) : string :=
  match GITHUB_REPOSITORY cfg with
  | Some s => hd "" (split "/" s)
  | None => ""
  end.

Definition repo_of (cfg : Config) : option string :=
  match GITHUB_REPOSITORY cfg with
  | Some s => nth_error (split "/" s) 1
  | None => None
  end.

(** [commitId] as line 50 of [run] sets it. *)
Definition commitId_of (cfg : Config) : string :=
  if opt_is (GITHUB_EVENT_NAME cfg) "push" then
    match payload_commits cfg with
    | Some (c :: _) => c
    | _ => ""
    end
  else "".

(** Lines 82-87 of [run]: the one named repository, or the whole account. *)
Definition list_repositories (env : Env) (cfg : Config) : Act (list Repo) :=
  (if opt_is (GITHUB_EVENT_NAME cfg) "workflow_dispatch"
      && truthy_opt (match payload_inputs cfg with
                     | None => None
                     | Some inputs => repo_name inputs
                     end)
   then
     r <- getRepo env (owner_of cfg)
            (template_opt (match payload_inputs cfg with
                           | None => None
                           | Some inputs => repo_name inputs
                           end)) ;;
     ret [r]
   else getReposList env (owner_of cfg))%act.

(** The options object of lines 92-97. *)
Definition ignore_options (cfg : Config) : IgnoreOptions :=
  {| reposToIgnore := getInput cfg "repos_to_ignore";
     topicsToInclude := getInput cfg "topics_to_include";
     excludePrivate := String.eqb (getInput cfg "exclude_private") "true";
     excludeForked := String.eqb (getInput cfg "exclude_forked") "true" |}.

(** The loop's variables when the selection of step 1 was skipped. *)
Definition removal_locals (cfg : Config) (ignored : list string) : Locals :=
  {| owner := owner_of cfg;
     commitId := commitId_of cfg;
     commitMessage := getInput cfg "commit_message";
     destination := getInput cfg "destination";
     customBranchName := getInput cfg "bot_branch_name";
     filesToReplicate := None;
     filesToRemove := None;
     ignoredRepositories := ignored |}.

(** What [run] logs before it lists the repositories in removal mode. *)
Definition removal_prelude (cfg : Config) : Trace :=
  ((if opt_is (GITHUB_EVENT_NAME cfg) "push"
    then [EInfo "Workflow started on push event"]
    else [EInfo "Workflow started on workflow_dispatch event"])
   ++ [EDebug; EDebug]
   ++ (if truthy (getInput cfg "destination")
       then [EWarning "The destination field will be ignored as it doesn't make sense when removal is expected and patterns_to_remove field is used"]
       else []))%list.

Definition action_failed (e : Exn) : Event :=
  ESetFailed ("Action failed because of: " ++ exn_toString e).

End Coverage.

(** * Properties *)

(** ** Reasoning about computations *)

Section ActLemmas.

Context {A B : Type}.

Lemma bind_Ok (m : Act A) (f : A -> Act B) (h : History) (a : A) (t : Trace) :
  m h = (Ok a, t) ->
  bind m f h = (fst (f a (h ++ t)%list), (t ++ snd (f a (h ++ t)%list))%list).
Proof.
  intros Hm. unfold bind. rewrite Hm.
  destruct (f a (h ++ t)%list) as [r t']. reflexivity.
Qed.

Lemma bind_Throw (m : Act A) (f : A -> Act B) (h : History) (e : Exn) (t : Trace) :
  m h = (Throw e, t) -> bind m f h = (Throw e, t).
Proof. intros Hm. unfold bind. rewrite Hm. reflexivity. Qed.

Lemma try_catch_Ok (m : Act A) (k : Exn -> Act A) (h : History) (a : A) (t : Trace) :
  m h = (Ok a, t) -> try_catch m k h = (Ok a, t).
Proof. intros Hm. unfold try_catch. rewrite Hm. reflexivity. Qed.

Lemma try_catch_Throw (m : Act A) (k : Exn -> Act A) (h : History) (e : Exn) (t : Trace) :
  m h = (Throw e, t) ->
  try_catch m k h = (fst (k e (h ++ t)%list), (t ++ snd (k e (h ++ t)%list))%list).
Proof.
  intros Hm. unfold try_catch. rewrite Hm.
  destruct (k e (h ++ t)%list) as [r t']. reflexivity.
Qed.

End ActLemmas.

Lemma pair_eta {X Y : Type} (p : X * Y) : p = (fst p, snd p).
Proof. destruct p; reflexivity. Qed.

Lemma starts_with_refl (t : Trace) : starts_with t t.
Proof. exists []. rewrite app_nil_r. reflexivity. Qed.

Lemma starts_with_app (p q t : Trace) :
  starts_with q t -> starts_with (p ++ q)%list (p ++ t)%list.
Proof. intros [rest ->]. exists rest. rewrite app_assoc. reflexivity. Qed.

Lemma starts_bind {A B : Type} (m : Act A) (f : A -> Act B) (h : History) (p : Trace) :
  starts_with p (snd (m h)) -> starts_with p (snd (bind m f h)).
Proof.
  intros [rest Hm]. unfold bind.
  destruct (m h) as [[a | e] t]; cbn [snd] in *.
  - destruct (f a (h ++ t)%list) as [r t']. cbn [snd]. subst t.
    exists (rest ++ t')%list. rewrite app_assoc. reflexivity.
  - exists rest. exact Hm.
Qed.

Lemma starts_try_catch {A : Type} (m : Act A) (k : Exn -> Act A) (h : History) (p : Trace) :
  starts_with p (snd (m h)) -> starts_with p (snd (try_catch m k h)).
Proof.
  intros [rest Hm]. unfold try_catch.
  destruct (m h) as [[a | e] t]; cbn [snd] in *.
  - exists rest. exact Hm.
  - destruct (k e (h ++ t)%list) as [r t']. cbn [snd]. subst t.
    exists (rest ++ t')%list. rewrite app_assoc. reflexivity.
Qed.

Lemma starts_bind_Ok {A B : Type} (m : Act A) (f : A -> Act B) (h : History)
    (a : A) (t p : Trace) :
  m h = (Ok a, t) ->
  starts_with p (snd (f a (h ++ t)%list)) ->
  starts_with (t ++ p)%list (snd (bind m f h)).
Proof.
  intros Hm Hp. rewrite (bind_Ok _ _ _ _ _ Hm). cbn [snd].
  apply starts_with_app. exact Hp.
Qed.

Section Emits.

Variable P : Event -> bool.

Lemma emits_ret {A : Type} (a : A) : emits P (ret a).
Proof. intros h. reflexivity. Qed.

Lemma emits_throw {A : Type} (e : Exn) : emits P (@throw A e).
Proof. intros h. reflexivity. Qed.

Lemma emits_emit (ev : Event) : P ev = true -> emits P (emit ev).
Proof. intros H h. simpl. rewrite H. reflexivity. Qed.

Lemma emits_ask {A : Type} (ev : Event) (answer : History -> Result A) :
  P ev = true -> emits P (ask ev answer).
Proof. intros H h. simpl. rewrite H. reflexivity. Qed.

Lemma emits_bind {A B : Type} (m : Act A) (f : A -> Act B) :
  emits P m -> (forall a, emits P (f a)) -> emits P (bind m f).
Proof.
  intros Hm Hf h. unfold bind. specialize (Hm h).
  destruct (m h) as [[a | e] t]; simpl in *; [ | exact Hm ].
  specialize (Hf a (h ++ t)%list). destruct (f a (h ++ t)%list) as [r t']. simpl in *.
  rewrite forallb_app, Hm, Hf. reflexivity.
Qed.

Lemma emits_try_catch {A : Type} (m : Act A) (k : Exn -> Act A) :
  emits P m -> (forall e, emits P (k e)) -> emits P (try_catch m k).
Proof.
  intros Hm Hk h. unfold try_catch. specialize (Hm h).
  destruct (m h) as [[a | e] t]; simpl in *; [ exact Hm | ].
  specialize (Hk e (h ++ t)%list). destruct (k e (h ++ t)%list) as [r t']. simpl in *.
  rewrite forallb_app, Hm, Hk. reflexivity.
Qed.

Lemma emits_when (b : bool) (m : Act unit) : emits P m -> emits P (when b m).
Proof. intros H. destruct b; [ exact H | apply emits_ret ]. Qed.

End Emits.

Section Steady.

Lemma steady_ret {A : Type} (a : A) : steady (ret a).
Proof. intros h h'. reflexivity. Qed.

Lemma steady_throw {A : Type} (e : Exn) : steady (@throw A e).
Proof. intros h h'. reflexivity. Qed.

Lemma steady_emit (ev : Event) : steady (emit ev).
Proof. intros h h'. reflexivity. Qed.

Lemma steady_ask {A : Type} (ev : Event) (answer : History -> Result A) :
  (forall h h', answer h = answer h') -> steady (ask ev answer).
Proof. intros H h h'. unfold ask. rewrite (H h h'). reflexivity. Qed.

Lemma steady_bind {A B : Type} (m : Act A) (f : A -> Act B) :
  steady m -> (forall a, steady (f a)) -> steady (bind m f).
Proof.
  intros Hm Hf h h'. unfold bind. rewrite (Hm h h').
  destruct (m h') as [[a | e] t]; [ | reflexivity ].
  rewrite (Hf a (h ++ t)%list (h' ++ t)%list). reflexivity.
Qed.

Lemma steady_try_catch {A : Type} (m : Act A) (k : Exn -> Act A) :
  steady m -> (forall e, steady (k e)) -> steady (try_catch m k).
Proof.
  intros Hm Hk h h'. unfold try_catch. rewrite (Hm h h').
  destruct (m h') as [[a | e] t]; [ reflexivity | ].
  rewrite (Hk e (h ++ t)%list (h' ++ t)%list). reflexivity.
Qed.

Lemma steady_when (b : bool) (m : Act unit) : steady m -> steady (when b m).
Proof. intros H. destruct b; [ exact H | apply steady_ret ]. Qed.

End Steady.

(** ** The PR step's retry policy *)

Module PrRetry.

Import ApiCalls Vocabulary.

Section WithEnv.

Variable env : Env.
Variables branchName rid commitMessage base : string.

Local Abbreviation attempt := (attempt_events branchName rid commitMessage base).

Lemma destructure_pr_pure (response : option PrData) (h : History) :
  destructure_pr response h = destructure_pr response [] /\
  snd (destructure_pr response h) = [].
Proof.
  unfold destructure_pr.
  destruct response as [d | ]; [ | split; reflexivity ].
  destruct (pd_createPullRequest d) as [p | ]; [ | split; reflexivity ].
  destruct (pp_pullRequest p); split; reflexivity.
Qed.

Lemma destructure_pr_not_retryable (response : option PrData) (h : History) (e : Exn) (t : Trace) :
  destructure_pr response h = (Throw e, t) -> retryable e = false.
Proof.
  unfold destructure_pr.
  destruct response as [d | ]; [ | intros H; inversion H; reflexivity ].
  destruct (pd_createPullRequest d) as [p | ]; [ | intros H; inversion H; reflexivity ].
  destruct (pp_pullRequest p); intros H; inversion H; reflexivity.
Qed.

(** One pass of the loop, case by case on the platform's answer. *)
Lemma createPr_loop_pass (retries count : nat) (h : History) :
  createPr_loop env branchName rid commitMessage base (S retries) count h =
  match graphql_createPullRequest env (before_call h (S count)) branchName rid commitMessage base with
  | Ok response =>
      match fst (destructure_pr response []) with
      | Ok pullRequestUrl => (Ok (Some pullRequestUrl), attempt (S count))
      | Throw e =>
          (Throw (new_Error ("Unable to create a PR: " ++ exn_toString e)), attempt (S count))
      end
  | Throw e =>
      if retryable e then
        let next := createPr_loop env branchName rid commitMessage base retries (S count)
                      (h ++ attempt (S count))%list in
        (fst next, (attempt (S count) ++ snd next)%list)
      else
        (Throw (new_Error ("Unable to create a PR: " ++ exn_toString e)), attempt (S count))
  end.
Proof.
  cbn [createPr_loop].
  unfold bind at 1. unfold try_catch at 1.
  unfold bind at 1. unfold info at 1, emit at 1.
  unfold bind at 1. unfold sleep at 1, emit at 1.
  unfold bind at 1. unfold info at 1, emit at 1.
  unfold bind at 1. unfold ask at 1.
  cbn [app].
  replace (((h ++ [EInfo "Waiting 5sec before PR creation"]) ++ [ESleep 5000]) ++
           [EInfo ("PR creation attempt " ++ index_key (S count))])%list
    with (before_call h (S count))
    by (unfold before_call; rewrite <- !app_assoc; reflexivity).
  destruct (graphql_createPullRequest env (before_call h (S count)) branchName rid
              commitMessage base) as [response | e].
  - unfold bind at 1.
    destruct (destructure_pr_pure response
                (before_call h (S count) ++ [ECreatePullRequest branchName rid commitMessage base])%list)
      as [Hpure Hnil].
    rewrite Hpure in *.
    destruct (destructure_pr response []) as [[u | e] t] eqn:Hd; simpl in Hnil; subst t.
    + reflexivity.
    + pose proof (destructure_pr_not_retryable _ _ _ _ Hd) as Hr.
      unfold retryable in Hr. cbn. rewrite Hr. reflexivity.
  - unfold retryable. cbn [fst snd app].
    destruct (String.eqb (exn_message e) "was submitted too quickly"); cbn [negb].
    + unfold ret. cbn [app]. unfold attempt, attempt_events.
      destruct (createPr_loop env branchName rid commitMessage base retries (S count) _)
        as [r t'].
      reflexivity.
    + reflexivity.
Qed.

(** The loop makes at most [retries] attempts, numbered from [count + 1],
    and emits nothing but their events. *)
Lemma createPr_loop_shape (retries : nat) :
  forall (count : nat) (h : History),
  exists n, n <= retries /\
    snd (createPr_loop env branchName rid commitMessage base retries count h)
    = flat_map attempt (seq (S count) n).
Proof.
  induction retries as [ | retries IH]; intros count h.
  - exists 0. split; [ lia | reflexivity ].
  - rewrite createPr_loop_pass.
    destruct (graphql_createPullRequest env (before_call h (S count)) branchName rid
                commitMessage base) as [response | e].
    + exists 1. split; [ lia | ].
      destruct (fst (destructure_pr response [])); reflexivity.
    + destruct (retryable e).
      * destruct (IH (S count) (h ++ attempt (S count))%list) as [n [Hn Ht]].
        exists (S n). split; [ lia | ].
        cbn [snd]. rewrite Ht. reflexivity.
      * exists 1. split; [ lia | reflexivity ].
Qed.

End WithEnv.

Import Coverage.

Section Exact.

Variable env : Env.
Variables branchName rid commitMessage base : string.

Local Abbreviation attempts := (attempt_events branchName rid commitMessage base).
Local Abbreviation answer := (pr_answer env branchName rid commitMessage base).

Lemma attempts_through (count k : nat) :
  (attempts (S count) ++ flat_map attempts (seq (S (S count)) k))%list
  = flat_map attempts (seq (S count) (S k)).
Proof. reflexivity. Qed.

Lemma attempts_snoc (count k : nat) :
  flat_map attempts (seq (S count) (S k))
  = (flat_map attempts (seq (S count) k) ++ attempts (S count + k))%list.
Proof.
  rewrite seq_S, flat_map_app. cbn [flat_map]. rewrite app_nil_r. reflexivity.
Qed.

Lemma attempts_one (count : nat) :
  flat_map attempts (seq (S count) (S count - count)) = attempts (S count).
Proof.
  replace (S count - count) with 1 by lia.
  cbn [seq flat_map]. apply app_nil_r.
Qed.

(** The loop entered for attempt [S count], all attempts before it made:
    it stops at the first attempt that is not refused as submitted too
    quickly, or at its last attempt, and resolves as that attempt's answer
    says. *)
Lemma createPr_loop_exact (retries : nat) :
  forall (count : nat) (h : History),
  exists last,
    count <= last < count + S retries
    /\ snd (createPr_loop env branchName rid commitMessage base (S retries) count
              (h ++ flat_map attempts (seq 1 count))%list)
       = flat_map attempts (seq (S count) (S last - count))
    /\ (forall j, count <= j < last -> refused_too_quickly (answer h j) = true)
    /\ (refused_too_quickly (answer h last) = true -> last = count + retries)
    /\ fst (createPr_loop env branchName rid commitMessage base (S retries) count
              (h ++ flat_map attempts (seq 1 count))%list)
       = pr_result_of (answer h last).
Proof.
  induction retries as [ | retries IH]; intros count h; rewrite createPr_loop_pass;
    change (graphql_createPullRequest env
              (before_call (h ++ flat_map attempts (seq 1 count))%list (S count))
              branchName rid commitMessage base)
      with (answer h count);
    destruct (answer h count) as [response | e] eqn:Hanswer.
  - exists count. rewrite Hanswer. cbn [pr_result_of refused_too_quickly].
    rewrite attempts_one.
    destruct (fst (destructure_pr response [])); cbn [fst snd];
      (split; [ lia | split; [ reflexivity | split; [ intros; lia | split;
        [ discriminate | reflexivity ] ] ] ]).
  - exists count. rewrite Hanswer. cbn [pr_result_of refused_too_quickly].
    rewrite attempts_one.
    destruct (retryable e); cbn [createPr_loop ret fst snd];
      (split; [ lia | split; [ rewrite ?app_nil_r; reflexivity | split; [ intros; lia | split;
        [ intros; try discriminate; lia | reflexivity ] ] ] ]).
  - exists count. rewrite Hanswer. cbn [pr_result_of refused_too_quickly].
    rewrite attempts_one.
    destruct (fst (destructure_pr response [])); cbn [fst snd];
      (split; [ lia | split; [ reflexivity | split; [ intros; lia | split;
        [ discriminate | reflexivity ] ] ] ]).
  - destruct (retryable e) eqn:Hretry.
    + destruct (IH (S count) h) as [last [Hlast [Htrace [Hbefore [Hstop Hresult]]]]].
      rewrite (attempts_snoc 0 count), app_assoc in Htrace, Hresult.
      cbn [Nat.add] in Htrace, Hresult.
      exists last. cbv zeta. cbn [fst snd].
      split; [ lia | split; [ | split; [ | split ] ] ].
      * rewrite Htrace, attempts_through. f_equal. f_equal. lia.
      * intros j Hj. destruct (Nat.eq_dec j count) as [-> | Hne].
        -- rewrite Hanswer. exact Hretry.
        -- apply Hbefore. lia.
      * intros Hrefused. specialize (Hstop Hrefused). lia.
      * exact Hresult.
    + exists count. rewrite Hanswer. cbn [pr_result_of refused_too_quickly].
      rewrite attempts_one, Hretry. cbn [fst snd].
      split; [ lia | split; [ reflexivity | split; [ intros; lia | split;
        [ discriminate | reflexivity ] ] ] ].
Qed.

(** [createPr] itself: the loop entered with five tries and no attempt made. *)
Lemma createPr_exact (h : History) :
  exists last,
    last < 5
    /\ snd (createPr env branchName rid commitMessage base h)
       = flat_map attempts (seq 1 (S last))
    /\ (forall j, j < last -> refused_too_quickly (answer h j) = true)
    /\ (refused_too_quickly (answer h last) = true -> last = 4)
    /\ fst (createPr env branchName rid commitMessage base h)
       = pr_result_of (answer h last).
Proof.
  destruct (createPr_loop_exact 4 0 h) as [last [Hlast [Htrace [Hbefore [Hstop Hresult]]]]].
  cbn [seq flat_map] in Htrace, Hresult. rewrite app_nil_r in Htrace, Hresult.
  rewrite Nat.sub_0_r in Htrace.
  exists last. unfold createPr.
  split; [ lia | split; [ exact Htrace | split; [ | split; [ exact Hstop | exact Hresult ] ] ] ].
  intros j Hj. apply Hbefore. lia.
Qed.

End Exact.

Lemma attempts_log_no_warning (branchName rid commitMessage base : string) (ks : list nat) :
  existsb is_warning
    (flat_map (attempt_events branchName rid commitMessage base) ks) = false.
Proof.
  induction ks as [ | k ks IH]; [ reflexivity | ].
  cbn [flat_map]. rewrite existsb_app, IH. reflexivity.
Qed.

End PrRetry.

(** ** Claims about the PR step *)

Module PrClaims.

Import ApiCalls Action Vocabulary Scenario Coverage PrRetry.

(** C10: [createPr] waits 5 seconds before every attempt and makes at most
    5 attempts: its whole trace is the events of attempts 1..last+1 with
    last < 5, each attempt being the waiting line, the 5000 ms sleep, the
    attempt line and the mutation.  Every attempt before the last one was
    answered by the platform with the error 'was submitted too quickly',
    and the last one either was not, or was the fifth.  [createPr] resolves
    as the answer to its last attempt says: the URL read from it; or, for
    any error other than 'was submitted too quickly', from the API or from
    reading its answer, the error 'Unable to create a PR: ...' thrown at
    that very attempt; or nothing, when the fifth attempt too was refused
    as submitted too quickly.  In each pass of the loop an error whose
    message is 'was submitted too quickly' is the only one that lets the
    loop go on. *)
Theorem createPr_retry_policy :
  forall (env : Env) (branchName rid commitMessage base : string) (h : History),
    (exists last,
       last < 5
       /\ snd (createPr env branchName rid commitMessage base h)
          = flat_map (attempt_events branchName rid commitMessage base) (seq 1 (S last))
       /\ (forall j, j < last ->
             refused_too_quickly (pr_answer env branchName rid commitMessage base h j) = true)
       /\ (refused_too_quickly (pr_answer env branchName rid commitMessage base h last) = true ->
           last = 4)
       /\ fst (createPr env branchName rid commitMessage base h)
          = pr_result_of (pr_answer env branchName rid commitMessage base h last))
    /\
    (forall (retries count : nat) (h' : History),
       createPr_loop env branchName rid commitMessage base (S retries) count h' =
       match graphql_createPullRequest env (before_call h' (S count))
               branchName rid commitMessage base with
       | Ok response =>
           match fst (destructure_pr response []) with
           | Ok pullRequestUrl =>
               (Ok (Some pullRequestUrl),
                attempt_events branchName rid commitMessage base (S count))
           | Throw e =>
               (Throw (new_Error ("Unable to create a PR: " ++ exn_toString e)),
                attempt_events branchName rid commitMessage base (S count))
           end
       | Throw e =>
           if retryable e then
             let next :=
               createPr_loop env branchName rid commitMessage base retries (S count)
                 (h' ++ attempt_events branchName rid commitMessage base (S count))%list in
             (fst next,
              (attempt_events branchName rid commitMessage base (S count) ++ snd next)%list)
           else
             (Throw (new_Error ("Unable to create a PR: " ++ exn_toString e)),
              attempt_events branchName rid commitMessage base (S count))
       end).
Proof.
  intros env branchName rid commitMessage base h. split.
  - apply createPr_exact.
  - intros retries count h'. apply createPr_loop_pass.
Qed.

(** The bound is met: a platform that keeps answering 'was submitted too
    quickly' is asked five times, each time after a 5 second sleep, and
    [createPr] then ends without a URL and without an error. *)
Example createPr_five_attempts :
  let rm := {| r_repos := [spoke "spoke1"];
               r_file := fun _ _ => None;
               r_createRef := fun _ => Ok tt;
               r_commit := fun _ => commit_ok;
               r_pr := fun _ => Throw too_quickly |} in
  createPr (world rm checkout (mkFileLists [] []))
    "sync/abc123" "id-spoke1" "sync files" "main" []
  = (Ok None,
     flat_map (attempt_events "sync/abc123" "id-spoke1" "sync files" "main") [1; 2; 3; 4; 5]).
Proof. vm_compute. reflexivity. Qed.

(** A non-retryable error ends the step at the first attempt. *)
Example createPr_aborts_at_once :
  let rm := {| r_repos := [spoke "spoke1"];
               r_file := fun _ _ => None;
               r_createRef := fun _ => Ok tt;
               r_commit := fun _ => commit_ok;
               r_pr := fun _ => Throw forbidden |} in
  createPr (world rm checkout (mkFileLists [] []))
    "sync/abc123" "id-spoke1" "sync files" "main" []
  = (Throw (new_Error
       "Unable to create a PR: HttpError: Resource not accessible by integration"),
     attempt_events "sync/abc123" "id-spoke1" "sync files" "main" 1).
Proof. vm_compute. reflexivity. Qed.


End PrClaims.

(** ** Failure isolation *)

Module Isolation.

Import ApiCalls Action Vocabulary.

Section Loop.

Variable env : Env.
Variable cfg : Config.
Variable L : Locals.

Lemma iteration_catches (repo : Repo) (h : History) :
  iteration env cfg L repo h =
  match process_repo env cfg L repo h with
  | (Ok _, t) => (Ok tt, t)
  | (Throw e, t) => (Ok tt, (t ++ failure_report e)%list)
  end.
Proof.
  unfold iteration, try_catch.
  destruct (process_repo env cfg L repo h) as [[[] | e] t]; reflexivity.
Qed.

Lemma iteration_total (repo : Repo) (h : History) :
  fst (iteration env cfg L repo h) = Ok tt.
Proof.
  rewrite iteration_catches.
  destruct (process_repo env cfg L repo h) as [[[] | e] t]; reflexivity.
Qed.

Lemma for_each_repo_cons (repo : Repo) (rest : list Repo) (h : History) :
  for_each_repo env cfg L (repo :: rest) h =
  (fst (for_each_repo env cfg L rest (h ++ snd (iteration env cfg L repo h))%list),
   (snd (iteration env cfg L repo h)
    ++ snd (for_each_repo env cfg L rest (h ++ snd (iteration env cfg L repo h))%list))%list).
Proof.
  cbn [for_each_repo].
  rewrite (bind_Ok (iteration env cfg L repo) (fun _ => for_each_repo env cfg L rest)
             h tt (snd (iteration env cfg L repo h))).
  - reflexivity.
  - rewrite <- (iteration_total repo h). apply pair_eta.
Qed.

Lemma for_each_repo_total (repos : list Repo) :
  forall h, fst (for_each_repo env cfg L repos h) = Ok tt.
Proof.
  induction repos as [ | repo rest IH]; intros h.
  - reflexivity.
  - rewrite for_each_repo_cons. cbn [fst]. apply IH.
Qed.

Lemma for_each_repo_app (pre post : list Repo) :
  forall h,
    snd (for_each_repo env cfg L (pre ++ post) h)
    = (snd (for_each_repo env cfg L pre h)
       ++ snd (for_each_repo env cfg L post (h ++ snd (for_each_repo env cfg L pre h))%list))%list.
Proof.
  induction pre as [ | repo rest IH]; intros h.
  - cbn [app for_each_repo ret snd]. rewrite app_nil_r. reflexivity.
  - rewrite <- app_comm_cons, !for_each_repo_cons. cbn [snd].
    rewrite IH, <- !app_assoc. reflexivity.
Qed.

End Loop.

Ltac steady_answer Hs :=
  let h1 := fresh "h" in
  let h2 := fresh "h" in
  intros h1 h2;
  first
    [ rewrite (st_getContent _ Hs h1 h2)
    | rewrite (st_headOid _ Hs h1 h2)
    | rewrite (st_createRef _ Hs h1 h2)
    | rewrite (st_createCommit _ Hs h1 h2)
    | rewrite (st_createPr _ Hs h1 h2)
    | rewrite (st_readFile _ Hs h1 h2)
    | rewrite (st_getBranchName _ Hs h1 h2)
    | rewrite (st_encodeAdditions _ Hs h1 h2)
    | rewrite (st_encodeDeletions _ Hs h1 h2) ];
  reflexivity.

Ltac steady_tac Hs :=
  repeat first
    [ apply steady_ret
    | apply steady_throw
    | apply steady_emit
    | apply steady_when
    | apply steady_bind
    | apply steady_try_catch
    | apply steady_ask; steady_answer Hs
    | match goal with |- forall _, _ => intro end
    | match goal with |- steady (match ?x with _ => _ end) => destruct x end
    | assumption ].

Section SteadyCode.

Variable env : Env.
Variable cfg : Config.
Variable L : Locals.
Hypothesis Hs : steady_env env.

Lemma steady_getRefOidAndRepoId (o r b : string) : steady (getRefOidAndRepoId env o r b).
Proof. unfold getRefOidAndRepoId. steady_tac Hs. Qed.

Lemma steady_destructure_pr (response : option PrData) : steady (destructure_pr response).
Proof. unfold destructure_pr. steady_tac Hs. Qed.

Lemma steady_createPr_loop (b i m d : string) (retries : nat) :
  forall count, steady (createPr_loop env b i m d retries count).
Proof.
  induction retries as [ | retries IH]; intros count; cbn [createPr_loop].
  - apply steady_ret.
  - apply steady_bind.
    + apply steady_try_catch; [ | steady_tac Hs ].
      repeat (apply steady_bind; [ solve [ steady_tac Hs ] | intro ]).
      apply steady_bind; [ apply steady_destructure_pr | steady_tac Hs ].
    + intros [u | ]; [ apply steady_ret | apply IH ].
Qed.

Lemma steady_createBranch (o r nb b : string) : steady (createBranch env o r nb b).
Proof.
  unfold createBranch.
  apply steady_bind; [ steady_tac Hs | intro ].
  apply steady_bind; [ apply steady_getRefOidAndRepoId | intro ].
  steady_tac Hs.
Qed.

Lemma steady_getFile (o r rf p : string) : steady (getFile env o r rf p).
Proof. unfold getFile. steady_tac Hs. Qed.

Lemma steady_fileExists (o r rf p : string) : steady (fileExists env o r rf p).
Proof.
  unfold fileExists. apply steady_bind; [ apply steady_getFile | intro; apply steady_ret ].
Qed.

Lemma steady_commit_url_of (d : CommitData) : steady (commit_url_of d).
Proof. unfold commit_url_of. steady_tac Hs. Qed.

Lemma steady_commitFiles_loop (o r b : string) (fc : FileChanges) (m : string) (tries : nat) :
  steady (commitFiles_loop env o r b fc m tries).
Proof.
  induction tries as [ | tries IH]; cbn [commitFiles_loop].
  - apply steady_ret.
  - apply steady_bind.
    + apply steady_try_catch; [ | steady_tac Hs ].
      apply steady_bind; [ apply steady_getRefOidAndRepoId | intro ].
      repeat (apply steady_bind; [ solve [ steady_tac Hs ] | intro ]).
      match goal with |- steady (match ?x with _ => _ end) => destruct x end;
        [ | apply steady_throw ].
      apply steady_bind; [ apply steady_commit_url_of | steady_tac Hs ].
    + intros [u | ]; [ apply steady_ret | apply IH ].
Qed.

Lemma steady_commitFiles (o r b : string) (fc : FileChanges) (m : string) :
  steady (commitFiles env o r b fc m).
Proof.
  unfold commitFiles.
  apply steady_bind; [ steady_tac Hs | intro; apply steady_commitFiles_loop ].
Qed.

Lemma steady_replicate_loop (repo : Repo) (paths : list string) :
  forall fc, steady (replicate_loop env cfg L repo paths fc).
Proof.
  induction paths as [ | path rest IH]; intros fc; cbn [replicate_loop].
  - apply steady_ret.
  - apply steady_bind; [ apply steady_getFile | intro ].
    repeat (apply steady_bind; [ solve [ steady_tac Hs ] | intro ]).
    apply IH.
Qed.

Lemma steady_remove_loop (repo : Repo) (keys : list string) :
  forall fc, steady (remove_loop env L repo keys fc).
Proof.
  induction keys as [ | path rest IH]; intros fc; cbn [remove_loop].
  - apply steady_ret.
  - apply steady_bind; [ apply steady_fileExists | intro ].
    apply steady_bind; [ | intro; apply IH ].
    match goal with |- steady (if ?x then _ else _) => destruct x end; steady_tac Hs.
Qed.

Lemma steady_diff (repo : Repo) : steady (diff env cfg L repo).
Proof.
  unfold diff.
  apply steady_bind; [ | intro; apply steady_remove_loop ].
  destruct (filesToReplicate L); [ apply steady_replicate_loop | apply steady_throw ].
Qed.

Lemma steady_pr_step (repo : Repo) (nb : string) (was : bool) :
  steady (pr_step env L repo nb was).
Proof.
  unfold pr_step.
  apply steady_bind.
  - apply steady_try_catch; [ apply steady_createPr_loop | steady_tac Hs ].
  - intro. apply steady_bind; [ steady_tac Hs | intro ].
    repeat match goal with |- steady (if ?x then _ else _) => destruct x end; steady_tac Hs.
Qed.

Lemma steady_mutate (repo : Repo) (fc : FileChanges) : steady (mutate env L repo fc).
Proof.
  unfold mutate. destruct (has_changes fc); [ | steady_tac Hs ].
  apply steady_bind; [ steady_tac Hs | intro ].
  apply steady_bind; [ apply steady_createBranch | intro ].
  apply steady_bind;
    [ match goal with |- steady (if ?x then _ else _) => destruct x end; steady_tac Hs | intro ].
  apply steady_bind; [ apply steady_commitFiles | intro ].
  apply steady_bind; [ steady_tac Hs | intro; apply steady_pr_step ].
Qed.

Lemma steady_process_repo (repo : Repo) : steady (process_repo env cfg L repo).
Proof.
  unfold process_repo.
  destruct (negb (includes (ignoredRepositories L) (name repo))); [ | apply steady_ret ].
  apply steady_bind; [ steady_tac Hs | intro ].
  apply steady_bind; [ apply steady_diff | intro; apply steady_mutate ].
Qed.

Lemma steady_iteration (repo : Repo) : steady (iteration env cfg L repo).
Proof.
  unfold iteration. apply steady_try_catch; [ apply steady_process_repo | steady_tac Hs ].
Qed.

Lemma for_each_repo_steady (repos : list Repo) :
  forall h,
    snd (for_each_repo env cfg L repos h)
    = flat_map (fun repo => snd (iteration env cfg L repo [])) repos.
Proof.
  induction repos as [ | repo rest IH]; intros h.
  - reflexivity.
  - rewrite for_each_repo_cons. cbn [snd flat_map].
    rewrite IH, (steady_iteration repo h []). reflexivity.
Qed.

End SteadyCode.

End Isolation.

(** ** Claims about the branch step *)

Module BranchClaims.

Import ApiCalls Action Vocabulary Scenario Isolation.

Section WithEnv.

Variable env : Env.

Lemma createBranch_cases (o repo newBranchName base : string) (h : History) :
  createBranch env o repo newBranchName base h =
  match getRefOidAndRepoId env o repo base (h ++ [creating_line repo newBranchName])%list with
  | (Throw e, t) => (Throw e, creating_line repo newBranchName :: t)
  | (Ok (headOid, repoId), t) =>
      let call := ECreateRef repoId ("refs/heads/" ++ newBranchName) headOid in
      match graphql_createRef env (h ++ creating_line repo newBranchName :: t)%list
              repoId ("refs/heads/" ++ newBranchName) headOid with
      | Ok _ => (Ok false, creating_line repo newBranchName :: (t ++ [call])%list)
      | Throw e =>
          if status_is e 422 then
            (Ok true,
             creating_line repo newBranchName
             :: (t ++ [call;
                       EInfo ("Branch " ++ newBranchName ++ " already exists in the " ++ repo
                              ++ " repository")])%list)
          else
            (Throw (new_Error ("Unable to create a branch " ++ newBranchName ++ " in the "
                               ++ repo ++ " repository: " ++ exn_toString e)),
             creating_line repo newBranchName :: (t ++ [call])%list)
      end
  end.
Proof.
  unfold createBranch, creating_line.
  unfold bind at 1. unfold info at 1, emit at 1.
  unfold bind at 1.
  destruct (getRefOidAndRepoId env o repo base
              (h ++ [EInfo ("Creating branch " ++ newBranchName ++ " in the " ++ repo
                            ++ " repository")])%list) as [[[headOid repoId] | e] t];
    [ | reflexivity ].
  cbn [fst snd].
  unfold try_catch, bind, ask, ret. cbn [app].
  replace ((h ++ [EInfo ("Creating branch " ++ newBranchName ++ " in the " ++ repo
                         ++ " repository")]) ++ t)%list
    with (h ++ EInfo ("Creating branch " ++ newBranchName ++ " in the " ++ repo
                      ++ " repository") :: t)%list
    by (rewrite <- app_assoc; reflexivity).
  destruct (graphql_createRef env _ repoId ("refs/heads/" ++ newBranchName) headOid)
    as [[] | e].
  - reflexivity.
  - destruct (status_is e 422); unfold info, emit; cbn [app]; reflexivity.
Qed.

Variable L : Locals.

Lemma mutate_cases (repo : Repo) (fileChanges : FileChanges) (h : History) :
  mutate env L repo fileChanges h =
  if has_changes fileChanges then
    let asked := EGetBranchName (customBranchName L) (commitId L) in
    match utils_getBranchName env h (customBranchName L) (commitId L) with
    | Throw e => (Throw e, [asked])
    | Ok newBranchName =>
        match createBranch env (owner L) (name repo) newBranchName (defaultBranch repo)
                (h ++ [asked])%list with
        | (Throw e, t) => (Throw e, asked :: t)
        | (Ok wasBranchThereAlready, t) =>
            let rest := commit_and_pr env L repo fileChanges newBranchName
                          wasBranchThereAlready (h ++ asked :: t)%list in
            (fst rest, asked :: (t ++ snd rest)%list)
        end
    end
  else (Ok tt, [EInfo ("No changes in repo " ++ name repo ++ " detected"); EEndGroup]).
Proof.
  unfold mutate. destruct (has_changes fileChanges); [ | reflexivity ].
  unfold bind at 1. unfold ask at 1.
  destruct (utils_getBranchName env h (customBranchName L) (commitId L)) as [nb | e];
    [ | reflexivity ].
  unfold bind at 1.
  destruct (createBranch env (owner L) (name repo) nb (defaultBranch repo)
              (h ++ [EGetBranchName (customBranchName L) (commitId L)])%list)
    as [[was | e] t]; [ | reflexivity ].
  replace ((h ++ [EGetBranchName (customBranchName L) (commitId L)]) ++ t)%list
    with (h ++ EGetBranchName (customBranchName L) (commitId L) :: t)%list
    by (rewrite <- app_assoc; reflexivity).
  destruct (commit_and_pr env L repo fileChanges nb was
              (h ++ EGetBranchName (customBranchName L) (commitId L) :: t)%list) as [r t'].
  reflexivity.
Qed.

Lemma getRefOidAndRepoId_asks (o repo branch : string) (h : History) :
  starts_with [EHeadOidQuery o repo ("refs/heads/" ++ branch)]
    (snd (getRefOidAndRepoId env o repo branch h)).
Proof.
  unfold getRefOidAndRepoId. apply starts_bind. apply starts_with_refl.
Qed.

Lemma commitFiles_enters (o repo branch : string) (fileChanges : FileChanges)
    (message : string) (h : History) :
  starts_with
    [ EInfo ("Committing changes to the " ++ repo ++ " repository");
      EHeadOidQuery o repo ("refs/heads/" ++ branch) ]
    (snd (commitFiles env o repo branch fileChanges message h)).
Proof.
  unfold commitFiles.
  apply (starts_bind_Ok _ _ h tt [EInfo ("Committing changes to the " ++ repo ++ " repository")]);
    [ reflexivity | ].
  cbn [commitFiles_loop].
  apply starts_bind, starts_try_catch, starts_bind, getRefOidAndRepoId_asks.
Qed.

(** Whatever [createBranch] resolved to, the commit step is entered: the
    branch line is logged, then [commitFiles] announces itself and asks for
    the head of the sync branch. *)
Lemma commit_and_pr_enters_commit (repo : Repo) (fileChanges : FileChanges)
    (newBranchName : string) (wasBranchThereAlready : bool) (h : History) :
  starts_with
    [ EInfo ("Branch " ++ newBranchName
             ++ (if wasBranchThereAlready then " already exists in the "
                 else " was created in the ")
             ++ name repo ++ " repo");
      EInfo ("Committing changes to the " ++ name repo ++ " repository");
      EHeadOidQuery (owner L) (name repo) ("refs/heads/" ++ newBranchName) ]
    (snd (commit_and_pr env L repo fileChanges newBranchName wasBranchThereAlready h)).
Proof.
  unfold commit_and_pr.
  apply (starts_bind_Ok _ _ h tt
           [EInfo ("Branch " ++ newBranchName
                   ++ (if wasBranchThereAlready then " already exists in the "
                       else " was created in the ")
                   ++ name repo ++ " repo")]).
  - destruct wasBranchThereAlready; reflexivity.
  - apply starts_bind, commitFiles_enters.
Qed.

End WithEnv.


(** Branch pre-exists: the 422 answer is followed by the commit and the PR
    for that repository. *)
Example branch_already_exists :
  filter is_remote_write
    (snd (iteration
            (world (ref_refused already_exists) checkout
               (mkFileLists ["README.md"] []))
            (push_config [])
            (locals (Some (mkFileLists ["README.md"] [])))
            (repoDetails_of (spoke "spoke1")) []))
  = [ ECreateRef "id-spoke1" "refs/heads/sync/abc123" "0a1b2c";
      ECreateCommitOnBranch "acme/spoke1" "sync/abc123"
        {| additions := Some [JArr [JStr "README.md"]]; deletions := None |}
        "sync files" "0a1b2c";
      ECreatePullRequest "sync/abc123" "id-spoke1" "sync files" "main" ].
Proof. vm_compute. reflexivity. Qed.

(** Any other refusal: nothing is committed to that repository, a warning
    is logged, and the next repository gets its branch, commit and PR. *)
Example branch_refused_otherwise :
  filter (fun ev => is_remote_write ev || is_warning ev)
    (snd (for_each_repo
            (world (ref_refused forbidden) checkout
               (mkFileLists ["README.md"] []))
            (push_config [])
            (locals (Some (mkFileLists ["README.md"] [])))
            (map repoDetails_of (map spoke ["spoke1"; "spoke2"])) []))
  = [ ECreateRef "id-spoke1" "refs/heads/sync/abc123" "0a1b2c";
      EWarning "Failed replicating files for this repo: Error: Unable to create a branch sync/abc123 in the spoke1 repository: HttpError: Resource not accessible by integration";
      ECreateRef "id-spoke2" "refs/heads/sync/abc123" "0a1b2c";
      ECreateCommitOnBranch "acme/spoke2" "sync/abc123"
        {| additions := Some [JArr [JStr "README.md"]]; deletions := None |}
        "sync files" "0a1b2c";
      ECreatePullRequest "sync/abc123" "id-spoke2" "sync files" "main" ].
Proof. vm_compute. reflexivity. Qed.

End BranchClaims.

(** ** The diff step on concrete remotes *)

Module DiffClaims.

Import ApiCalls Action Vocabulary Scenario.

(** C1, evaluated where it fails: the one replicated path, [README.md],
    has the same bytes on both sides and nothing is to be removed, yet the
    diff step yields a change set with one addition, and the run goes on to
    create the branch, the commit and the pull request.  The comparison is
    between the local text and the text rendering of the response object. *)
Theorem identical_content_is_still_committed :
  let fl := mkFileLists ["README.md"] [] in
  let env := one_spoke same_readme checkout fl in
  same_readme "README.md" = checkout "/work/README.md"
  /\ fst (diff env (push_config sync_inputs) (locals (Some fl)) spoke1 [])
     = Ok {| additions := Some [paths_of (Some ["README.md"])]; deletions := None |}
  /\ filter is_milestone (snd (run env (push_config sync_inputs) []))
     = [ ECreateRef "id-spoke1" "refs/heads/sync/abc123" "0a1b2c";
         EInfo "Branch sync/abc123 was created in the spoke1 repo";
         ECreateCommitOnBranch "acme/spoke1" "sync/abc123"
           {| additions := Some [paths_of (Some ["README.md"])]; deletions := None |}
           "sync files" "0a1b2c";
         EInfo "Commit was created in the spoke1 repo -> https://git.example/c/1";
         ECreatePullRequest "sync/abc123" "id-spoke1" "sync files" "main";
         EInfo "Workflow finished with success and PR for spoke1 is created -> https://git.example/pr/1" ].
Proof. vm_compute. repeat split; reflexivity. Qed.

(** C3, evaluated where it fails: of two replicated paths only
    [README.md] differs remotely, yet the change set gets two addition
    entries, one per path, and each entry is the encoding of the whole list
    of replicated paths rather than of the path at hand.  A path missing
    remotely is compared as the text [false]: a local file holding exactly
    that text is not added. *)
Theorem additions_are_not_per_differing_path :
  let fl := mkFileLists ["README.md"; "LICENSE"] [] in
  let env := one_spoke stale_readme checkout fl in
  (stale_readme "README.md" <> checkout "/work/README.md"
   /\ stale_readme "LICENSE" = checkout "/work/LICENSE")
  /\ diff env (push_config sync_inputs) (locals (Some fl)) spoke1 []
     = (Ok {| additions := Some [ paths_of (Some ["README.md"; "LICENSE"]);
                                  paths_of (Some ["README.md"; "LICENSE"]) ];
              deletions := None |},
        [ EReposGetContent "acme" "spoke1" "README.md" "main";
          EReadFile "/work/README.md"; EDebug; EDebug; EDebug; EDebug;
          EEncodeAdditions (Some ["README.md"; "LICENSE"]) "";
          EReposGetContent "acme" "spoke1" "LICENSE" "main";
          EReadFile "/work/LICENSE"; EDebug; EDebug; EDebug; EDebug;
          EEncodeAdditions (Some ["README.md"; "LICENSE"]) "" ])
  /\ fst (diff (one_spoke (fun _ => None) flag_checkout (mkFileLists ["flag.txt"] []))
            (push_config sync_inputs) (locals (Some (mkFileLists ["flag.txt"] []))) spoke1 [])
     = Ok {| additions := None; deletions := None |}.
Proof.
  cbv zeta. split; [ split; [ discriminate | reflexivity ] | ].
  split; vm_compute; reflexivity.
Qed.

(** C4, evaluated where it fails: the removal target [legacy/old.yml]
    exists remotely, but the existence check is made for the array index
    [0] and finds nothing, so no deletion entry is appended and the run
    reports no changes; conversely, with a remote file named [0] and no
    [legacy/old.yml], a deletion entry is appended for a target that does
    not exist remotely. *)
Theorem removal_checks_the_index_not_the_path :
  let fl := mkFileLists [] ["legacy/old.yml"] in
  (legacy_only "legacy/old.yml" = Some "x"
   /\ diff (one_spoke legacy_only checkout fl) (push_config sync_inputs) (locals (Some fl))
        spoke1 []
      = (Ok {| additions := None; deletions := None |},
         [ EReposGetContent "acme" "spoke1" "0" "main" ])
   /\ filter is_milestone
        (snd (run (one_spoke legacy_only checkout fl) (push_config sync_inputs) []))
      = [ EInfo "No changes in repo spoke1 detected" ])
  /\
  (zero_only "legacy/old.yml" = None
   /\ diff (one_spoke zero_only checkout fl) (push_config sync_inputs) (locals (Some fl))
        spoke1 []
      = (Ok {| additions := None; deletions := Some [paths_of (Some ["legacy/old.yml"])] |},
         [ EReposGetContent "acme" "spoke1" "0" "main";
           EEncodeDeletions (Some ["legacy/old.yml"]) "" ])).
Proof. vm_compute. repeat split; reflexivity. Qed.

End DiffClaims.

(** ** The commit step when every attempt comes back empty *)

Module CommitClaims.

Import ApiCalls Action Vocabulary Scenario.

(** C9, evaluated where it fails: the commit API answers [null] at each of
    the ten attempts (each preceded by a fresh head query and followed by a
    one-second sleep); [commitFiles] then ends normally with no URL, and
    the run logs the commit as created, opens the pull request and closes
    the repository as a success, with no warning. *)
Theorem exhausted_commit_retries_pass_as_success :
  let fl := mkFileLists ["README.md"] [] in
  let env := world commit_always_null checkout fl in
  let fc := {| additions := Some [paths_of (Some ["README.md"])]; deletions := None |} in
  let attempt := commitFiles env "acme" "spoke1" "sync/abc123" fc "sync files" [] in
  fst attempt = Ok None
  /\ length (filter is_commit_call (snd attempt)) = 10
  /\ length (filter (is_head_query_for "sync/abc123") (snd attempt)) = 10
  /\ length (filter is_second_sleep (snd attempt)) = 10
  /\ filter (fun ev => negb (is_commit_call ev) && is_milestone ev)
       (snd (run env (push_config [("commit_message", "sync files")]) []))
     = [ ECreateRef "id-spoke1" "refs/heads/sync/abc123" "0a1b2c";
         EInfo "Branch sync/abc123 was created in the spoke1 repo";
         EInfo "Commit was created in the spoke1 repo -> undefined";
         ECreatePullRequest "sync/abc123" "id-spoke1" "sync files" "main";
         EInfo "Workflow finished with success and PR for spoke1 is created -> https://git.example/pr/1" ].
Proof. vm_compute. repeat split; reflexivity. Qed.

End CommitClaims.

(** ** The PR step's report on a freshly created branch *)

Module PrReport.

Import ApiCalls Action Vocabulary Scenario.



End PrReport.

(** ** Where a repository's errors end *)

Module Containment.

Import ApiCalls Action Vocabulary Scenario Coverage PrRetry Isolation.

Section WithEnv.

Variable env : Env.
Variable cfg : Config.
Variable L : Locals.

(** Lines 105-184: the group is opened, then the diff, then the mutation;
    an error of either leaves the [try] block. *)
Lemma process_repo_cases (repo : Repo) (h : History) :
  process_repo env cfg L repo h =
  if includes (ignoredRepositories L) (name repo) then (Ok tt, [])
  else
    match diff env cfg L repo (h ++ [started_line repo])%list with
    | (Throw e, t) => (Throw e, started_line repo :: t)
    | (Ok fileChanges, t) =>
        let rest := mutate env L repo fileChanges (h ++ started_line repo :: t)%list in
        (fst rest, started_line repo :: (t ++ snd rest)%list)
    end.
Proof.
  unfold process_repo, started_line.
  destruct (includes (ignoredRepositories L) (name repo)); cbn [negb]; [ reflexivity | ].
  unfold bind at 1. unfold startGroup at 1, emit at 1.
  unfold bind at 1.
  destruct (diff env cfg L repo (h ++ [EStartGroup ("Started updating " ++ name repo ++ " repo")])%list)
    as [[fileChanges | e] t]; [ | reflexivity ].
  rewrite <- app_assoc. cbn [app].
  destruct (mutate env L repo fileChanges _) as [r t']. reflexivity.
Qed.

(** Lines 145-178: an error of [commitFiles] leaves the step; after a
    commit, the step ends as the PR step does. *)
Lemma commit_and_pr_cases (repo : Repo) (fileChanges : FileChanges) (newBranchName : string)
    (wasBranchThereAlready : bool) (h : History) :
  commit_and_pr env L repo fileChanges newBranchName wasBranchThereAlready h =
  let branched := branch_line repo newBranchName wasBranchThereAlready in
  match commitFiles env (owner L) (name repo) newBranchName fileChanges (commitMessage L)
          (h ++ [branched])%list with
  | (Throw e, t) => (Throw e, branched :: t)
  | (Ok commitUrl, t) =>
      let rest := pr_step env L repo newBranchName wasBranchThereAlready
                    (h ++ branched :: t ++ [committed_line repo commitUrl])%list in
      (fst rest, branched :: (t ++ committed_line repo commitUrl :: snd rest)%list)
  end.
Proof.
  cbv zeta. unfold commit_and_pr, branch_line, committed_line.
  rewrite (bind_Ok _ _ h tt
             [EInfo ("Branch " ++ newBranchName
                     ++ (if wasBranchThereAlready then " already exists in the "
                         else " was created in the ")
                     ++ name repo ++ " repo")])
    by (destruct wasBranchThereAlready; reflexivity).
  destruct (commitFiles env (owner L) (name repo) newBranchName fileChanges (commitMessage L) _)
    as [[commitUrl | e] t] eqn:Hcommit.
  - rewrite (bind_Ok _ _ _ _ _ Hcommit).
    rewrite (bind_Ok _ _ _ tt
               [EInfo ("Commit was created in the " ++ name repo ++ " repo -> "
                       ++ template_opt commitUrl)]) by reflexivity.
    rewrite <- !app_assoc. cbn [app fst snd]. reflexivity.
  - rewrite (bind_Throw _ _ _ _ _ Hcommit). reflexivity.
Qed.

(** Lines 162-178: whatever [createPr] does, the PR step ends normally. *)
Lemma pr_step_cases (repo : Repo) (newBranchName : string) (wasBranchThereAlready : bool)
    (h : History) :
  pr_step env L repo newBranchName wasBranchThereAlready h =
  match createPr env newBranchName (id repo) (commitMessage L) (defaultBranch repo) h with
  | (Throw e, t) => (Ok tt, (t ++ after_pr_failure repo newBranchName wasBranchThereAlready)%list)
  | (Ok pullRequestUrl, t) =>
      (Ok tt,
       (t ++ [EEndGroup;
              closing_line repo newBranchName wasBranchThereAlready pullRequestUrl])%list)
  end.
Proof.
  destruct (createPr env newBranchName (id repo) (commitMessage L) (defaultBranch repo) h)
    as [[pullRequestUrl | e] t] eqn:Hpr; unfold pr_step; unfold bind at 1.
  - rewrite (try_catch_Ok _ _ _ _ _ Hpr).
    unfold bind, endGroup, emit, closing_line.
    destruct (truthy_opt pullRequestUrl); cbn [negb andb fst snd app];
      [ | destruct wasBranchThereAlready ]; reflexivity.
  - rewrite (try_catch_Throw _ _ _ _ _ Hpr).
    unfold after_pr_failure. destruct wasBranchThereAlready; cbn.
    + rewrite <- !app_assoc. reflexivity.
    + rewrite app_nil_r. reflexivity.
Qed.

Lemma createPr_logs_no_warning (b i m d : string) (h : History) :
  existsb is_warning (snd (createPr env b i m d h)) = false.
Proof.
  destruct (createPr_exact env b i m d h) as [last [_ [Htrace _]]].
  rewrite Htrace. apply attempts_log_no_warning.
Qed.

Lemma pr_step_logs_no_warning (repo : Repo) (newBranchName : string)
    (wasBranchThereAlready : bool) (h : History) :
  existsb is_warning (snd (pr_step env L repo newBranchName wasBranchThereAlready h)) = false.
Proof.
  rewrite pr_step_cases.
  pose proof (createPr_logs_no_warning newBranchName (id repo) (commitMessage L)
                (defaultBranch repo) h) as Hquiet.
  destruct (createPr env newBranchName (id repo) (commitMessage L) (defaultBranch repo) h)
    as [[pullRequestUrl | e] t]; cbn [snd] in *; rewrite existsb_app, Hquiet.
  - unfold closing_line.
    destruct (truthy_opt pullRequestUrl); [ | destruct wasBranchThereAlready ]; reflexivity.
  - destruct wasBranchThereAlready; reflexivity.
Qed.

End WithEnv.

Lemma three_spokes_env_steady : steady_env three_spokes_env.
Proof. constructor; intros h h'; reflexivity. Qed.




(** The commit for [beta] throws; [alpha] before it and [gamma] after it
    each end with a pull request. *)
Example beta_fails_alone :
  filter is_summary
    (snd (for_each_repo three_spokes_env (push_config []) three_spokes_locals
            three_spokes []))
  = [ EInfo "Workflow finished with success and PR for alpha is created -> https://git.example/pr/1";
      EWarning "Failed replicating files for this repo: Error: Unable to commit changes to the beta repository: HttpError: Resource not accessible by integration";
      EInfo "Workflow finished with success and PR for gamma is created -> https://git.example/pr/1" ].
Proof. vm_compute. reflexivity. Qed.

End Containment.

(** ** Configuration: patterns to include and patterns to remove *)

Module ConfigClaims.

Import ApiCalls Action Vocabulary Scenario Coverage Isolation.

Lemma emits_bind_ret (P : Event -> bool) {A B : Type} (a : A) (f : A -> Act B) :
  emits P (f a) -> emits P (bind (ret a) f).
Proof.
  intros Hf h. unfold bind, ret. specialize (Hf (h ++ [])%list).
  destruct (f a (h ++ [])%list) as [r t]. exact Hf.
Qed.

Ltac emits_tac :=
  repeat first
    [ apply emits_ret
    | apply emits_throw
    | apply emits_emit; reflexivity
    | apply emits_ask; reflexivity
    | apply emits_when
    | apply emits_bind_ret
    | apply emits_bind
    | apply emits_try_catch
    | match goal with |- forall _, _ => intro end
    | progress cbn [andb orb negb option_map]
    | match goal with |- emits _ (match ?x with _ => _ end) => destruct x end
    | assumption ].

Section WithEnv.

Variable env : Env.
Variable cfg : Config.

Lemma iteration_undefined_selection (L : Locals) (repo : Repo) (h : History) :
  filesToReplicate L = None ->
  iteration env cfg L repo h = (Ok tt, undefined_selection_events L repo).
Proof.
  intros HL.
  unfold iteration, process_repo, undefined_selection_events, diff.
  rewrite HL.
  destruct (includes (ignoredRepositories L) (name repo)); reflexivity.
Qed.

Lemma for_each_repo_undefined_selection (L : Locals) (repos : list Repo) :
  filesToReplicate L = None ->
  forall h,
    for_each_repo env cfg L repos h = (Ok tt, flat_map (undefined_selection_events L) repos).
Proof.
  intros HL. induction repos as [ | repo rest IH]; intros h.
  - reflexivity.
  - rewrite for_each_repo_cons, IH, iteration_undefined_selection by exact HL.
    reflexivity.
Qed.

Lemma undefined_selection_events_allowed (L : Locals) (repos : list Repo) :
  forallb removal_mode_allows (flat_map (undefined_selection_events L) repos) = true.
Proof.
  induction repos as [ | repo rest IH].
  - reflexivity.
  - cbn [flat_map]. rewrite forallb_app, IH.
    unfold undefined_selection_events.
    destruct (includes (ignoredRepositories L) (name repo)); reflexivity.
Qed.

Lemma getRepo_allowed (o rname : string) : emits removal_mode_allows (getRepo env o rname).
Proof. unfold getRepo. emits_tac. Qed.

Lemma getReposList_allowed (o : string) : emits removal_mode_allows (getReposList env o).
Proof. unfold getReposList. emits_tac. Qed.

Lemma main_removal_mode (isPush isWorkflowDispatch : bool) :
  truthy (getInput cfg "patterns_to_remove") = true ->
  truthy (getInput cfg "patterns_to_include") = false ->
  emits removal_mode_allows (main env cfg isPush isWorkflowDispatch).
Proof.
  intros Hrem Hinc.
  unfold main, getInput_required. cbv zeta.
  revert Hrem Hinc.
  destruct (truthy (getInput cfg "patterns_to_remove")); [ intros _ | discriminate ].
  destruct (truthy (getInput cfg "patterns_to_include")); [ discriminate | intros _ ].
  apply emits_bind; [ emits_tac | intro gitHubKey ].
  apply emits_bind; [ emits_tac | intro pieces ].
  apply emits_bind; [ emits_tac | intro commitId ].
  cbn [andb negb].
  apply emits_bind; [ emits_tac | intros [] ].
  apply emits_bind_ret. cbn [option_map].
  apply emits_bind.
  - destruct (isWorkflowDispatch && truthy_opt _).
    + apply emits_bind; [ apply getRepo_allowed | intro; apply emits_ret ].
    + apply getReposList_allowed.
  - intro reposList.
    apply emits_bind; [ emits_tac | intro ignored ].
    intros h.
    rewrite for_each_repo_undefined_selection by reflexivity.
    apply undefined_selection_events_allowed.
Qed.

Lemma process_repo_undefined_selection (L : Locals) (repo : Repo) (h : History) :
  filesToReplicate L = None ->
  includes (ignoredRepositories L) (name repo) = false ->
  process_repo env cfg L repo h
  = (Throw (TypeError "filesToReplicate is not iterable"), [started_line repo]).
Proof.
  intros HL Hselected.
  unfold process_repo, diff, started_line.
  rewrite HL, Hselected. reflexivity.
Qed.

(** The whole run in removal mode, once it gets as far as line 52. *)
Lemma run_removal_exact (h : History) :
  truthy (getInput cfg "patterns_to_remove") = true ->
  truthy (getInput cfg "patterns_to_include") = false ->
  reaches_pattern_check cfg = true ->
  run env cfg h =
  let pre := removal_prelude cfg in
  match list_repositories env cfg (h ++ pre)%list with
  | (Throw e, t) => (Ok tt, (pre ++ t ++ [action_failed e])%list)
  | (Ok reposList, t) =>
      let asked := EGetListOfReposToIgnore (repo_of cfg) reposList (ignore_options cfg) in
      match utils_getListOfReposToIgnore env (h ++ pre ++ t)%list (repo_of cfg) reposList
              (ignore_options cfg) with
      | Throw e => (Ok tt, (pre ++ t ++ [asked; action_failed e])%list)
      | Ok ignored =>
          (Ok tt,
           (pre ++ t ++ asked
            :: snd (for_each_repo env cfg (removal_locals cfg ignored) reposList
                      (h ++ pre ++ t ++ [asked])%list))%list)
      end
  end.
Proof.
  intros Hrem Hinc Hreach.
  unfold reaches_pattern_check in Hreach.
  unfold run, main, getInput_required, removal_prelude, list_repositories, removal_locals,
    commitId_of, owner_of, repo_of, ignore_options, action_failed.
  destruct (opt_is (GITHUB_EVENT_NAME cfg) "push") eqn:Hpush;
    destruct (opt_is (GITHUB_EVENT_NAME cfg) "workflow_dispatch") eqn:Hdispatch.
  1: { exfalso. unfold opt_is in *. destruct (GITHUB_EVENT_NAME cfg) as [ev | ];
       [ | discriminate ].
       apply String.eqb_eq in Hpush, Hdispatch. subst ev. discriminate. }
  all: destruct (truthy_opt (GITHUB_TOKEN cfg));
    try destruct (truthy (getInput cfg "github_token"));
    destruct (GITHUB_REPOSITORY cfg);
    try destruct (payload_commits cfg) as [[ | c cs] | ];
    try discriminate Hreach.
  all: rewrite ?Hrem, ?Hinc.
  all: destruct (truthy (getInput cfg "destination")).
  all: destruct (truthy_opt match payload_inputs cfg with
                            | Some inputs => repo_name inputs
                            | None => None
                            end).
  all: cbv beta iota zeta delta
         [try_catch bind ret throw warning info debug when emit ask setFailed fst snd option_map
          negb andb orb].
  all: rewrite <- ?app_assoc; cbn [app].
  all: try match goal with
       | |- context [getReposList ?v ?o ?h0] =>
           destruct (getReposList v o h0) as [[reposList | e] t]
       | |- context [getRepo ?v ?o ?n ?h0] =>
           destruct (getRepo v o n h0) as [[r | e] t]
       end.
  all: rewrite <- ?app_assoc; cbn [app].
  all: try reflexivity.
  all: try match goal with
       | |- context [utils_getListOfReposToIgnore ?v ?h0 ?r0 ?l ?o] =>
           destruct (utils_getListOfReposToIgnore v h0 r0 l o) as [ignored | e]
       end.
  all: try (cbn [app]; rewrite <- ?app_assoc; reflexivity).
  all: try match goal with
       | |- context [for_each_repo ?v ?c0 ?L0 ?l ?h0] =>
           rewrite (pair_eta (for_each_repo v c0 L0 l h0)), for_each_repo_total
       end.
  all: cbn [app fst snd]; rewrite <- ?app_assoc; reflexivity.
Qed.

End WithEnv.

(** C7: with both [patterns_to_include] and [patterns_to_remove] set, the
    run ends at once: its last act is to mark the action as failed, and
    it makes no call outside the process at all (no repository listing, no
    content fetch, no mutation, no file read, no helper call).  Whenever the
    run gets as far as the check (supported trigger, token, repository and
    commit present), the failure is the mutual-exclusion one and the run
    has logged nothing else than the start line and two debug lines. *)
Theorem both_patterns_fail_fast :
  forall (env : Env) (cfg : Config) (h : History),
    truthy (getInput cfg "patterns_to_include") = true ->
    truthy (getInput cfg "patterns_to_remove") = true ->
    fst (run env cfg h) = Ok tt
    /\ existsb is_outside_call (snd (run env cfg h)) = false
    /\ (exists pre msg, snd (run env cfg h) = (pre ++ [ESetFailed msg])%list)
    /\ (reaches_pattern_check cfg = true ->
        exists start,
          snd (run env cfg h)
          = [EInfo start; EDebug; EDebug; ESetFailed mutually_exclusive_message]).
Proof.
  intros env cfg h Hinc Hrem.
  unfold run, main, getInput_required, reaches_pattern_check.
  destruct (opt_is (GITHUB_EVENT_NAME cfg) "push") eqn:Hpush;
    destruct (opt_is (GITHUB_EVENT_NAME cfg) "workflow_dispatch") eqn:Hdispatch.
  1: { exfalso. unfold opt_is in *. destruct (GITHUB_EVENT_NAME cfg) as [ev | ];
       [ | discriminate ].
       apply String.eqb_eq in Hpush, Hdispatch. subst ev. discriminate. }
  all: destruct (truthy_opt (GITHUB_TOKEN cfg));
    try destruct (truthy (getInput cfg "github_token"));
    destruct (GITHUB_REPOSITORY cfg);
    try destruct (payload_commits cfg) as [[ | c cs] | ];
    cbn -[split]; rewrite ?Hrem, ?Hinc; cbn -[split].
  all: repeat split; try reflexivity; try discriminate.
  all: try (intros _; eexists; reflexivity).
  all: match goal with
       | |- exists pre msg, ?t = _ =>
           exists (removelast t); eexists; cbn [removelast]; reflexivity
       end.
Qed.

Lemma both_patterns_fail_fast_witness :
  let env := world (healthy ["spoke1"] (fun _ _ => None)) checkout
               (mkFileLists ["README.md"] []) in
  let cfg := push_config [ ("patterns_to_include", "*.md");
                                    ("patterns_to_remove", "legacy/*.yml") ] in
  (truthy (getInput cfg "patterns_to_include") = true
   /\ truthy (getInput cfg "patterns_to_remove") = true)
  /\ fst (run env cfg []) = Ok tt
  /\ existsb is_outside_call (snd (run env cfg [])) = false
  /\ (exists pre msg, snd (run env cfg []) = (pre ++ [ESetFailed msg])%list)
  /\ (reaches_pattern_check cfg = true ->
      exists start,
        snd (run env cfg [])
        = [EInfo start; EDebug; EDebug; ESetFailed mutually_exclusive_message]).
Proof.
  cbv zeta. split.
  - split; reflexivity.
  - apply both_patterns_fail_fast; reflexivity.
Defined.

(** C2: with [patterns_to_remove] set (and [patterns_to_include] empty)
    the file selection of step 1 is never asked for, and the run never
    fetches remote content, never checks a remote file's existence, never
    reads a local file, never encodes a deletion and never creates a
    branch, a commit or a pull request.  Once the run gets as far as the
    pattern check it is exactly: the start line, two debug lines, the
    warning about [destination] if that input is set, the listing of the
    repositories, the call for the list of ignored ones, and the loop
    entered with [filesToReplicate] (and [filesToRemove]) still
    [undefined]; a failure of the listing or of that call marks the action
    as failed.  With [filesToReplicate] undefined, the processing of every
    repository that is not ignored throws
    'TypeError: filesToReplicate is not iterable' right after the group
    start, before anything else is done for it; its iteration ends
    normally with the group end and the warning for that error; and the
    loop over any list of repositories ends normally with exactly these
    events for every repository that is not ignored. *)
Theorem removal_mode_never_mutates :
  forall (env : Env) (cfg : Config) (h : History),
    truthy (getInput cfg "patterns_to_remove") = true ->
    truthy (getInput cfg "patterns_to_include") = false ->
    forallb removal_mode_allows (snd (run env cfg h)) = true
    /\ (reaches_pattern_check cfg = true ->
        run env cfg h =
        let pre := removal_prelude cfg in
        match list_repositories env cfg (h ++ pre)%list with
        | (Throw e, t) => (Ok tt, (pre ++ t ++ [action_failed e])%list)
        | (Ok reposList, t) =>
            let asked :=
              EGetListOfReposToIgnore (repo_of cfg) reposList (ignore_options cfg) in
            match utils_getListOfReposToIgnore env (h ++ pre ++ t)%list (repo_of cfg)
                    reposList (ignore_options cfg) with
            | Throw e => (Ok tt, (pre ++ t ++ [asked; action_failed e])%list)
            | Ok ignored =>
                let L := {| owner := owner_of cfg;
                            commitId := commitId_of cfg;
                            commitMessage := getInput cfg "commit_message";
                            destination := getInput cfg "destination";
                            customBranchName := getInput cfg "bot_branch_name";
                            filesToReplicate := None;
                            filesToRemove := None;
                            ignoredRepositories := ignored |} in
                (Ok tt,
                 (pre ++ t ++ asked
                  :: snd (for_each_repo env cfg L reposList
                            (h ++ pre ++ t ++ [asked])%list))%list)
            end
        end)
    /\ (forall (L : Locals) (repo : Repo) (h' : History),
          filesToReplicate L = None ->
          includes (ignoredRepositories L) (name repo) = false ->
          process_repo env cfg L repo h'
          = (Throw (TypeError "filesToReplicate is not iterable"), [started_line repo])
          /\ iteration env cfg L repo h'
             = (Ok tt,
                [ started_line repo;
                  EEndGroup;
                  EWarning "Failed replicating files for this repo: TypeError: filesToReplicate is not iterable" ]))
    /\ (forall (L : Locals) (repos : list Repo) (h' : History),
          filesToReplicate L = None ->
          for_each_repo env cfg L repos h'
          = (Ok tt, flat_map (undefined_selection_events L) repos)).
Proof.
  intros env cfg h Hrem Hinc. split; [ | split; [ | split ] ].
  - revert h. change (emits removal_mode_allows (run env cfg)).
    unfold run.
    apply emits_bind; [ emits_tac | intro ].
    apply emits_bind; [ emits_tac | intro ].
    match goal with |- emits _ (if ?c then _ else _) => destruct c end.
    + emits_tac.
    + apply emits_bind; [ emits_tac | intro ].
      apply emits_bind; [ emits_tac | intro ].
      apply emits_try_catch; [ | emits_tac ].
      apply main_removal_mode; assumption.
  - intros Hreach. apply (run_removal_exact env cfg h Hrem Hinc Hreach).
  - intros L repo h' HL Hselected. split.
    + apply process_repo_undefined_selection; assumption.
    + rewrite iteration_undefined_selection by exact HL.
      unfold undefined_selection_events. rewrite Hselected. reflexivity.
  - intros L repos h' HL. apply for_each_repo_undefined_selection. exact HL.
Qed.

Lemma removal_mode_never_mutates_witness :
  let env := world (healthy ["spoke1"; "spoke2"]
                               (fun _ path => if String.eqb path "legacy/old.yml"
                                              then Some "x" else None))
               checkout (mkFileLists [] []) in
  let cfg := push_config [("patterns_to_remove", "legacy/*.yml")] in
  (truthy (getInput cfg "patterns_to_remove") = true
   /\ truthy (getInput cfg "patterns_to_include") = false)
  /\ forallb removal_mode_allows (snd (run env cfg [])) = true
  /\ (reaches_pattern_check cfg = true ->
      run env cfg [] =
      let pre := removal_prelude cfg in
      match list_repositories env cfg ([] ++ pre)%list with
      | (Throw e, t) => (Ok tt, (pre ++ t ++ [action_failed e])%list)
      | (Ok reposList, t) =>
          let asked :=
            EGetListOfReposToIgnore (repo_of cfg) reposList (ignore_options cfg) in
          match utils_getListOfReposToIgnore env ([] ++ pre ++ t)%list (repo_of cfg)
                  reposList (ignore_options cfg) with
          | Throw e => (Ok tt, (pre ++ t ++ [asked; action_failed e])%list)
          | Ok ignored =>
              let L := {| owner := owner_of cfg;
                          commitId := commitId_of cfg;
                          commitMessage := getInput cfg "commit_message";
                          destination := getInput cfg "destination";
                          customBranchName := getInput cfg "bot_branch_name";
                          filesToReplicate := None;
                          filesToRemove := None;
                          ignoredRepositories := ignored |} in
              (Ok tt,
               (pre ++ t ++ asked
                :: snd (for_each_repo env cfg L reposList
                          ([] ++ pre ++ t ++ [asked])%list))%list)
          end
      end)
  /\ (forall (L : Locals) (repo : Repo) (h' : History),
        filesToReplicate L = None ->
        includes (ignoredRepositories L) (name repo) = false ->
        process_repo env cfg L repo h'
        = (Throw (TypeError "filesToReplicate is not iterable"), [started_line repo])
        /\ iteration env cfg L repo h'
           = (Ok tt,
              [ started_line repo;
                EEndGroup;
                EWarning "Failed replicating files for this repo: TypeError: filesToReplicate is not iterable" ]))
  /\ (forall (L : Locals) (repos : list Repo) (h' : History),
        filesToReplicate L = None ->
        for_each_repo env cfg L repos h'
        = (Ok tt, flat_map (undefined_selection_events L) repos)).
Proof.
  cbv zeta. split.
  - split; reflexivity.
  - apply removal_mode_never_mutates; reflexivity.
Defined.

(** Removal only, as the specification's scenario has it: the remote
    holds [legacy/old.yml] in both spokes.  The hub is ignored; each spoke
    gets its group start, its group end and the warning, and nothing else
    happens after the call for the ignored repositories. *)
Example removal_run :
  run (world (healthy ["hub"; "spoke1"; "spoke2"]
                (fun _ path => if String.eqb path "legacy/old.yml" then Some "x" else None))
         checkout (mkFileLists [] []))
    (push_config [("patterns_to_remove", "legacy/*.yml")]) []
  = (Ok tt,
     [ EInfo "Workflow started on push event"; EDebug; EDebug;
       EStartGroup "Getting list of all repositories owned by acme";
       EOrgsGet "acme";
       EPaginate listForOrg "acme" 100;
       EDebug; EDebug; EEndGroup;
       EGetListOfReposToIgnore (Some "hub")
         (map repoDetails_of (map spoke ["hub"; "spoke1"; "spoke2"]))
         {| reposToIgnore := ""; topicsToInclude := "";
            excludePrivate := false; excludeForked := false |};
       EStartGroup "Started updating spoke1 repo";
       EEndGroup;
       EWarning "Failed replicating files for this repo: TypeError: filesToReplicate is not iterable";
       EStartGroup "Started updating spoke2 repo";
       EEndGroup;
       EWarning "Failed replicating files for this repo: TypeError: filesToReplicate is not iterable" ]).
Proof. vm_compute. reflexivity. Qed.

(** Removal only, as the specification's scenario has it: the remote
    holds [legacy/old.yml] in both spokes, and both end in the warning. *)
Example removal_scenario :
  filter (fun ev => is_milestone ev || is_content_read ev)
    (snd (run
            (world (healthy ["spoke1"; "spoke2"]
                               (fun _ path => if String.eqb path "legacy/old.yml"
                                              then Some "x" else None))
               checkout (mkFileLists [] []))
            (push_config [("patterns_to_remove", "legacy/*.yml")]) []))
  = [ EWarning "Failed replicating files for this repo: TypeError: filesToReplicate is not iterable";
      EWarning "Failed replicating files for this repo: TypeError: filesToReplicate is not iterable" ].
Proof. vm_compute. reflexivity. Qed.

End ConfigClaims.

(** ** What the per-repository code may emit *)

Module RepoWork.

Import ApiCalls Action Vocabulary Coverage Isolation.

Lemma emits_weaken (P Q : Event -> bool) {A : Type} (m : Act A) :
  (forall ev, P ev = true -> Q ev = true) -> emits P m -> emits Q m.
Proof.
  intros HPQ Hm h. specialize (Hm h).
  induction (snd (m h)) as [ | ev t IH]; [ reflexivity | ].
  cbn [forallb] in *. apply andb_true_iff in Hm. destruct Hm as [Hev Ht].
  rewrite (HPQ ev Hev), (IH Ht). reflexivity.
Qed.

Ltac work_step :=
  first
    [ apply emits_ret
    | apply emits_throw
    | apply emits_emit; reflexivity
    | apply emits_ask; reflexivity
    | apply emits_when
    | match goal with |- emits _ (bind _ _) => apply emits_bind end
    | match goal with |- emits _ (try_catch _ _) => apply emits_try_catch end
    | match goal with |- forall _, _ => intro end
    | match goal with |- emits _ (match ?x with _ => _ end) => destruct x end
    | match goal with |- emits _ (if ?x then _ else _) => destruct x end
    | assumption ].

Ltac work_tac := repeat work_step.

Section WithEnv.

Variable env : Env.
Variable cfg : Config.
Variable L : Locals.

Lemma work_getRefOidAndRepoId (o r b : string) :
  emits repo_work_event (getRefOidAndRepoId env o r b).
Proof. unfold getRefOidAndRepoId. work_tac. Qed.

Lemma work_destructure_pr (response : option PrData) :
  emits repo_work_event (destructure_pr response).
Proof. unfold destructure_pr. work_tac. Qed.

Lemma work_createPr_loop (b i m d : string) (retries : nat) :
  forall count, emits repo_work_event (createPr_loop env b i m d retries count).
Proof.
  induction retries as [ | retries IH]; intros count; cbn [createPr_loop].
  - apply emits_ret.
  - apply emits_bind.
    + apply emits_try_catch; [ | work_tac ].
      unfold info, sleep.
      repeat (apply emits_bind; [ solve [ work_tac ] | intro ]).
      apply emits_bind; [ apply work_destructure_pr | work_tac ].
    + intros [u | ]; [ apply emits_ret | apply IH ].
Qed.

Lemma work_createBranch (o r nb b : string) : emits repo_work_event (createBranch env o r nb b).
Proof.
  unfold createBranch, info.
  apply emits_bind; [ work_tac | intro ].
  apply emits_bind; [ apply work_getRefOidAndRepoId | intro ].
  work_tac.
Qed.

Lemma work_getFile (o r rf p : string) : emits repo_work_event (getFile env o r rf p).
Proof. unfold getFile. work_tac. Qed.

Lemma work_fileExists (o r rf p : string) : emits repo_work_event (fileExists env o r rf p).
Proof.
  unfold fileExists. apply emits_bind; [ apply work_getFile | intro; apply emits_ret ].
Qed.

Lemma work_commit_url_of (d : CommitData) : emits repo_work_event (commit_url_of d).
Proof. unfold commit_url_of. work_tac. Qed.

Lemma work_commitFiles_loop (o r b : string) (fc : FileChanges) (m : string) (tries : nat) :
  emits repo_work_event (commitFiles_loop env o r b fc m tries).
Proof.
  induction tries as [ | tries IH]; cbn [commitFiles_loop].
  - apply emits_ret.
  - apply emits_bind.
    + apply emits_try_catch; [ | unfold sleep; work_tac ].
      apply emits_bind; [ apply work_getRefOidAndRepoId | intro ].
      unfold debug.
      repeat (apply emits_bind; [ solve [ work_tac ] | intro ]).
      match goal with |- emits _ (match ?x with _ => _ end) => destruct x end;
        [ | apply emits_throw ].
      apply emits_bind; [ apply work_commit_url_of | work_tac ].
    + intros [u | ]; [ apply emits_ret | apply IH ].
Qed.

Lemma work_commitFiles (o r b : string) (fc : FileChanges) (m : string) :
  emits repo_work_event (commitFiles env o r b fc m).
Proof.
  unfold commitFiles, info.
  apply emits_bind; [ work_tac | intro; apply work_commitFiles_loop ].
Qed.

Lemma work_replicate_loop (repo : Repo) (paths : list string) :
  forall fc, emits repo_work_event (replicate_loop env cfg L repo paths fc).
Proof.
  induction paths as [ | path rest IH]; intros fc; cbn [replicate_loop].
  - apply emits_ret.
  - apply emits_bind; [ apply work_getFile | intro ].
    unfold debug.
    repeat (apply emits_bind; [ solve [ work_tac ] | intro ]).
    apply IH.
Qed.

Lemma work_remove_loop (repo : Repo) (keys : list string) :
  forall fc, emits repo_work_event (remove_loop env L repo keys fc).
Proof.
  induction keys as [ | path rest IH]; intros fc; cbn [remove_loop].
  - apply emits_ret.
  - apply emits_bind; [ apply work_fileExists | intro ].
    apply emits_bind; [ work_tac | intro; apply IH ].
Qed.

Lemma work_diff (repo : Repo) : emits repo_work_event (diff env cfg L repo).
Proof.
  unfold diff.
  apply emits_bind; [ | intro; apply work_remove_loop ].
  destruct (filesToReplicate L); [ apply work_replicate_loop | apply emits_throw ].
Qed.

Lemma work_pr_step (repo : Repo) (nb : string) (was : bool) :
  emits repo_work_event (pr_step env L repo nb was).
Proof.
  unfold pr_step, info, endGroup.
  apply emits_bind.
  - apply emits_try_catch; [ apply work_createPr_loop | work_tac ].
  - intro. apply emits_bind; [ work_tac | intro ]. work_tac.
Qed.

Lemma work_commit_and_pr (repo : Repo) (fc : FileChanges) (nb : string) (was : bool) :
  emits repo_work_event (commit_and_pr env L repo fc nb was).
Proof.
  unfold commit_and_pr, info.
  apply emits_bind; [ work_tac | intro ].
  apply emits_bind; [ apply work_commitFiles | intro ].
  apply emits_bind; [ work_tac | intro; apply work_pr_step ].
Qed.

Lemma work_mutate (repo : Repo) (fc : FileChanges) : emits repo_work_event (mutate env L repo fc).
Proof.
  unfold mutate, info, endGroup. destruct (has_changes fc); [ | work_tac ].
  apply emits_bind; [ work_tac | intro ].
  apply emits_bind; [ apply work_createBranch | intro; apply work_commit_and_pr ].
Qed.

Lemma work_process_repo (repo : Repo) : emits repo_work_event (process_repo env cfg L repo).
Proof.
  unfold process_repo, startGroup.
  destruct (negb (includes (ignoredRepositories L) (name repo))); [ | apply emits_ret ].
  apply emits_bind; [ work_tac | intro ].
  apply emits_bind; [ apply work_diff | intro; apply work_mutate ].
Qed.

Lemma work_iteration (repo : Repo) : emits repo_work_event (iteration env cfg L repo).
Proof.
  unfold iteration, endGroup, warning.
  apply emits_try_catch; [ apply work_process_repo | work_tac ].
Qed.

Lemma work_for_each_repo (repos : list Repo) :
  emits repo_work_event (for_each_repo env cfg L repos).
Proof.
  induction repos as [ | repo rest IH]; cbn [for_each_repo].
  - apply emits_ret.
  - apply emits_bind; [ apply work_iteration | intro; apply IH ].
Qed.

End WithEnv.

End RepoWork.

(** ** The run as a whole *)

Module RunFacts.

Import ApiCalls Action Vocabulary Coverage Isolation RepoWork.

Lemma quiet_of_work (ev : Event) : repo_work_event ev = true -> quiet ev = true.
Proof. destruct ev; intros H; try reflexivity; discriminate H. Qed.

Lemma prepend_quiet (p t : Trace) :
  forallb quiet p = true -> failed_last_or_never t -> failed_last_or_never (p ++ t)%list.
Proof.
  intros Hp [Ht | [pre [msg [-> Hpre]]]].
  - left. rewrite forallb_app, Hp, Ht. reflexivity.
  - right. exists (p ++ pre)%list, msg. split.
    + rewrite app_assoc. reflexivity.
    + rewrite forallb_app, Hp, Hpre. reflexivity.
Qed.

Lemma tidy_of_emits {A : Type} (m : Act A) : emits quiet m -> tidy m.
Proof.
  intros Hm h. specialize (Hm h).
  destruct (fst (m h)); [ left | ]; exact Hm.
Qed.

Lemma tidy_bind {A B : Type} (m : Act A) (f : A -> Act B) :
  emits quiet m -> (forall a, tidy (f a)) -> tidy (bind m f).
Proof.
  intros Hm Hf h. unfold bind. specialize (Hm h).
  destruct (m h) as [[a | e] t]; cbn [fst snd] in *; [ | exact Hm ].
  specialize (Hf a (h ++ t)%list).
  destruct (f a (h ++ t)%list) as [[b | e] t']; cbn [fst snd] in *.
  - apply prepend_quiet; assumption.
  - rewrite forallb_app, Hm, Hf. reflexivity.
Qed.

Section WithEnv.

Variable env : Env.
Variable cfg : Config.

Lemma quiet_getRepo (o rname : string) : emits quiet (getRepo env o rname).
Proof. unfold getRepo, info, debug. work_tac. Qed.

Lemma quiet_getReposList (o : string) : emits quiet (getReposList env o).
Proof. unfold getReposList, startGroup, endGroup, debug. work_tac. Qed.

Lemma quiet_for_each_repo (L : Locals) (repos : list Repo) :
  emits quiet (for_each_repo env cfg L repos).
Proof. apply (emits_weaken repo_work_event); [ exact quiet_of_work | apply work_for_each_repo ]. Qed.

Lemma main_tidy (isPush isWorkflowDispatch : bool) :
  tidy (main env cfg isPush isWorkflowDispatch).
Proof.
  unfold main, getInput_required. cbv zeta.
  apply tidy_bind; [ work_tac | intro gitHubKey ].
  apply tidy_bind; [ work_tac | intro pieces ].
  apply tidy_bind; [ work_tac | intro commitId ].
  match goal with |- tidy (if ?c then _ else _) => destruct c end.
  - intros h. right. exists [], mutually_exclusive_message. split; reflexivity.
  - apply tidy_of_emits. unfold warning.
    apply emits_bind; [ work_tac | intro ].
    apply emits_bind; [ work_tac | intro selection ].
    match goal with |- emits _ (if ?c then _ else _) => destruct c end;
      [ apply emits_ret | ].
    apply emits_bind.
    + match goal with |- emits _ (if ?c then _ else _) => destruct c end.
      * apply emits_bind; [ apply quiet_getRepo | intro; apply emits_ret ].
      * apply quiet_getReposList.
    + intro reposList.
      apply emits_bind; [ work_tac | intro; apply quiet_for_each_repo ].
Qed.

Lemma calm_then (m : Act unit) (k : Act unit) (h : History) :
  (forall h', fst (m h') = Ok tt /\ forallb quiet (snd (m h')) = true) ->
  (forall h', fst (k h') = Ok tt /\ failed_last_or_never (snd (k h'))) ->
  fst (bind m (fun _ => k) h) = Ok tt /\ failed_last_or_never (snd (bind m (fun _ => k) h)).
Proof.
  intros Hm Hk. destruct (Hm h) as [Hr Hq].
  rewrite (bind_Ok m (fun _ => k) h tt (snd (m h))) by (rewrite <- Hr; apply pair_eta).
  cbn [fst snd]. destruct (Hk (h ++ snd (m h))%list) as [Hr' Hq'].
  split; [ exact Hr' | apply prepend_quiet; assumption ].
Qed.

Lemma calm_when_info (b : bool) (msg : string) (h : History) :
  fst (when b (info msg) h) = Ok tt /\ forallb quiet (snd (when b (info msg) h)) = true.
Proof. destruct b; split; reflexivity. Qed.

Lemma calm_debug (h : History) :
  fst (debug h) = Ok tt /\ forallb quiet (snd (debug h)) = true.
Proof. split; reflexivity. Qed.

Lemma guarded_main_tidy (isPush isWorkflowDispatch : bool) (h : History) :
  let guarded :=
    try_catch (main env cfg isPush isWorkflowDispatch)
      (fun error => setFailed ("Action failed because of: " ++ exn_toString error)) in
  fst (guarded h) = Ok tt /\ failed_last_or_never (snd (guarded h)).
Proof.
  cbv zeta. unfold try_catch.
  pose proof (main_tidy isPush isWorkflowDispatch h) as Hmain.
  destruct (main env cfg isPush isWorkflowDispatch h) as [[[] | e] t]; cbn [fst snd] in *.
  - split; [ reflexivity | exact Hmain ].
  - split; [ reflexivity | ].
    right. exists t, ("Action failed because of: " ++ exn_toString e). split; [ reflexivity | exact Hmain ].
Qed.

Lemma run_tidy (h : History) :
  fst (run env cfg h) = Ok tt /\ failed_last_or_never (snd (run env cfg h)).
Proof.
  unfold run.
  apply calm_then; [ apply calm_when_info | intro h1 ].
  apply calm_then; [ apply calm_when_info | intro h2 ].
  match goal with |- context [if ?c then _ else _] => destruct c end.
  - split; [ reflexivity | ]. right. exists [], trigger_message. split; reflexivity.
  - apply calm_then; [ apply calm_debug | intro h3 ].
    apply calm_then; [ apply calm_debug | intro h4 ].
    apply guarded_main_tidy.
Qed.

End WithEnv.

End RunFacts.

Module RunProperties.

Import ApiCalls Action Vocabulary Coverage Isolation RepoWork RunFacts.

(** X1: [run] never throws: it always ends normally, and it calls
    [setFailed] at most once, as its very last act (unsupported trigger,
    both pattern inputs set, or an error escaping the outer [try]).
    Nothing inside the repository loop ever marks the run as failed: a
    repository's failure is a warning, never a [setFailed]. *)
Theorem run_fails_at_most_once_and_last :
  forall (env : Env) (cfg : Config) (h : History),
    fst (run env cfg h) = Ok tt
    /\ failed_last_or_never (snd (run env cfg h))
    /\ (forall (L : Locals) (repos : list Repo) (h' : History),
          existsb is_setFailed (snd (for_each_repo env cfg L repos h')) = false).
Proof.
  intros env cfg h.
  destruct (run_tidy env cfg h) as [Hr Ht].
  split; [ exact Hr | split; [ exact Ht | ] ].
  intros L repos h'.
  pose proof (quiet_for_each_repo env cfg L repos h') as Hq.
  induction (snd (for_each_repo env cfg L repos h')) as [ | ev t IH]; [ reflexivity | ].
  cbn [forallb existsb] in *. apply andb_true_iff in Hq. destruct Hq as [Hev Hrest].
  unfold quiet in Hev. apply negb_true_iff in Hev. rewrite Hev, (IH Hrest). reflexivity.
Qed.

(** X2: the loop over a list of repositories does exactly what it does
    over the same list with the ignored repositories left out: an ignored
    repository contributes no event and changes nothing for the others. *)
Theorem ignored_repositories_are_skipped :
  forall (env : Env) (cfg : Config) (L : Locals) (repos : list Repo) (h : History),
    for_each_repo env cfg L repos h
    = for_each_repo env cfg L (filter (selected L) repos) h.
Proof.
  intros env cfg L repos. induction repos as [ | repo rest IH]; intros h.
  - reflexivity.
  - cbn [filter]. unfold selected at 1.
    destruct (includes (ignoredRepositories L) (name repo)) eqn:Hin; cbn [negb].
    + rewrite for_each_repo_cons.
      assert (Hit : iteration env cfg L repo h = (Ok tt, [])).
      { unfold iteration, process_repo, try_catch. rewrite Hin. reflexivity. }
      rewrite Hit. cbn [snd app]. rewrite app_nil_r, <- IH.
      symmetry. apply pair_eta.
    + rewrite !for_each_repo_cons, IH. reflexivity.
Qed.

(** X3: unless the preamble of [run] succeeds (supported trigger, a
    token, [GITHUB_REPOSITORY] set and, on a push, a commit in the payload)
    the run makes no call outside the process and ends in [setFailed]; for
    an unsupported trigger that call is the only event of the run. *)
Theorem failed_preamble_makes_no_call :
  forall (env : Env) (cfg : Config) (h : History),
    reaches_pattern_check cfg = false ->
    existsb is_outside_call (snd (run env cfg h)) = false
    /\ (exists pre msg, snd (run env cfg h) = (pre ++ [ESetFailed msg])%list)
    /\ (opt_is (GITHUB_EVENT_NAME cfg) "push" = false ->
        opt_is (GITHUB_EVENT_NAME cfg) "workflow_dispatch" = false ->
        snd (run env cfg h) = [ESetFailed trigger_message]).
Proof.
  intros env cfg h Hpre.
  unfold run, main, getInput_required.
  unfold reaches_pattern_check in Hpre.
  destruct (opt_is (GITHUB_EVENT_NAME cfg) "push") eqn:Hpush;
    destruct (opt_is (GITHUB_EVENT_NAME cfg) "workflow_dispatch") eqn:Hdispatch.
  1: { exfalso. unfold opt_is in *. destruct (GITHUB_EVENT_NAME cfg) as [ev | ];
       [ | discriminate ].
       apply String.eqb_eq in Hpush, Hdispatch. subst ev. discriminate. }
  all: destruct (truthy_opt (GITHUB_TOKEN cfg));
    try destruct (truthy (getInput cfg "github_token"));
    destruct (GITHUB_REPOSITORY cfg);
    try destruct (payload_commits cfg) as [[ | c cs] | ];
    cbn in Hpre; try discriminate Hpre.
  all: cbn -[split].
  all: repeat split; try reflexivity; try discriminate.
  all: match goal with
       | |- exists pre msg, ?t = _ =>
           exists (removelast t); eexists; cbn [removelast]; reflexivity
       end.
Qed.

Lemma failed_preamble_makes_no_call_witness :
  let env := Scenario.world (Scenario.healthy ["spoke1"] (fun _ _ => None)) Scenario.checkout
               (mkFileLists ["README.md"] []) in
  let cfg := {| GITHUB_EVENT_NAME := Some "pull_request";
                GITHUB_TOKEN := Some "token";
                GITHUB_REPOSITORY := Some "acme/hub";
                payload_inputs := None;
                payload_commits := None;
                cwd := "/work";
                getInput := fun _ => "" |} in
  reaches_pattern_check cfg = false
  /\ existsb is_outside_call (snd (run env cfg [])) = false
  /\ (exists pre msg, snd (run env cfg []) = (pre ++ [ESetFailed msg])%list)
  /\ (opt_is (GITHUB_EVENT_NAME cfg) "push" = false ->
      opt_is (GITHUB_EVENT_NAME cfg) "workflow_dispatch" = false ->
      snd (run env cfg []) = [ESetFailed trigger_message]).
Proof.
  cbv zeta. split.
  - reflexivity.
  - apply failed_preamble_makes_no_call. reflexivity.
Defined.

(** X4: outside removal mode, when the selection helper answers with no
    file to replicate and none to remove, the run ends normally right
    there: the helper call is its only call outside the process (no
    repository is looked up or listed) and nothing is marked failed. *)
Theorem empty_selection_stops_the_run :
  forall (env : Env) (cfg : Config) (h : History) (fl : FileLists),
    reaches_pattern_check cfg = true ->
    truthy (getInput cfg "patterns_to_remove") = false ->
    (forall h' c o r,
       utils_getListOfFilesToReplicate env h' c o r (getInput cfg "patterns_to_ignore")
         (getInput cfg "patterns_to_include") (GITHUB_EVENT_NAME cfg) = Ok fl) ->
    filesForReplication fl = [] ->
    filesForRemoval fl = [] ->
    fst (run env cfg h) = Ok tt
    /\ exists start c o r,
         snd (run env cfg h)
         = [ EInfo start; EDebug; EDebug;
             EGetListOfFilesToReplicate c o r (getInput cfg "patterns_to_ignore")
               (getInput cfg "patterns_to_include") (GITHUB_EVENT_NAME cfg) ].
Proof.
  intros env cfg h fl Hpre Hrem Hsel Hrep Hdel.
  unfold run, main, getInput_required.
  unfold reaches_pattern_check in Hpre.
  destruct (opt_is (GITHUB_EVENT_NAME cfg) "push") eqn:Hpush;
    destruct (opt_is (GITHUB_EVENT_NAME cfg) "workflow_dispatch") eqn:Hdispatch.
  1: { exfalso. unfold opt_is in *. destruct (GITHUB_EVENT_NAME cfg) as [ev | ];
       [ | discriminate ].
       apply String.eqb_eq in Hpush, Hdispatch. subst ev. discriminate. }
  all: destruct (truthy_opt (GITHUB_TOKEN cfg));
    try destruct (truthy (getInput cfg "github_token"));
    destruct (GITHUB_REPOSITORY cfg);
    try destruct (payload_commits cfg) as [[ | c cs] | ];
    cbn in Hpre; try discriminate Hpre.
  all: rewrite ?Hrem.
  all: cbv beta iota zeta delta
         [try_catch bind ret ask throw emit when info debug warning setFailed
          fst snd app option_map negb andb];
    rewrite Hsel;
    cbv beta iota zeta delta
      [try_catch bind ret ask throw emit when info debug warning setFailed
       fst snd app option_map negb andb];
    rewrite Hrep, Hdel;
    cbv beta iota zeta delta
      [try_catch bind ret ask throw emit when info debug warning setFailed
       fst snd app option_map negb andb length Nat.eqb].
  all: split; [ reflexivity | ]; do 4 eexists; reflexivity.
Qed.

Lemma empty_selection_stops_the_run_witness :
  let fl := mkFileLists [] [] in
  let env := Scenario.world (Scenario.healthy ["spoke1"] (fun _ _ => None)) Scenario.checkout fl in
  let cfg := Scenario.push_config [("patterns_to_include", "*.md")] in
  (reaches_pattern_check cfg = true
   /\ truthy (getInput cfg "patterns_to_remove") = false
   /\ filesForReplication fl = [] /\ filesForRemoval fl = [])
  /\ fst (run env cfg []) = Ok tt
  /\ exists start c o r,
       snd (run env cfg [])
       = [ EInfo start; EDebug; EDebug;
           EGetListOfFilesToReplicate c o r (getInput cfg "patterns_to_ignore")
             (getInput cfg "patterns_to_include") (GITHUB_EVENT_NAME cfg) ].
Proof.
  cbv zeta. split.
  - repeat split; reflexivity.
  - apply (empty_selection_stops_the_run _ _ [] (mkFileLists [] [])); reflexivity.
Defined.

End RunProperties.

Module ManualTarget.

Import ApiCalls Action Vocabulary Coverage Isolation RepoWork RunFacts.

Lemma manual_of_work (rname : string) (ev : Event) :
  repo_work_event ev = true -> manual_target_only rname ev = true.
Proof. destruct ev; intros H; try reflexivity; discriminate H. Qed.

Lemma manual_getRepo (env : Env) (o rname : string) :
  emits (manual_target_only rname) (getRepo env o rname).
Proof.
  unfold getRepo, info, debug.
  apply emits_bind; [ work_tac | intro ].
  apply emits_bind; [ | work_tac ].
  apply emits_ask. cbn [manual_target_only]. apply String.eqb_refl.
Qed.

Lemma manual_main (env : Env) (cfg : Config) (rname : string) :
  payload_inputs cfg = Some {| repo_name := Some rname |} ->
  truthy rname = true ->
  emits (manual_target_only rname) (main env cfg false true).
Proof.
  intros Hinputs Hname.
  unfold main, getInput_required. cbv zeta.
  rewrite Hinputs. cbn [repo_name truthy_opt template_opt andb]. rewrite Hname.
  apply emits_bind; [ work_tac | intro gitHubKey ].
  apply emits_bind; [ work_tac | intro pieces ].
  apply emits_bind; [ work_tac | intro commitId ].
  match goal with |- emits _ (if ?c then _ else _) => destruct c end;
    [ unfold setFailed; work_tac | ].
  unfold warning.
  apply emits_bind; [ work_tac | intro ].
  apply emits_bind; [ work_tac | intro selection ].
  match goal with |- emits _ (if ?c then _ else _) => destruct c end;
    [ apply emits_ret | ].
  apply emits_bind.
  - apply emits_bind; [ apply manual_getRepo | intro; apply emits_ret ].
  - intro reposList.
    apply emits_bind; [ work_tac | intro ignored ].
    apply (emits_weaken repo_work_event);
      [ apply manual_of_work | apply work_for_each_repo ].
Qed.

(** X5: on a [workflow_dispatch] event whose payload names a repository,
    the run never looks the account up and never lists its repositories:
    the only repository request it can make is the one for the named
    repository. *)
Theorem manual_dispatch_asks_for_one_repository :
  forall (env : Env) (cfg : Config) (rname : string) (h : History),
    GITHUB_EVENT_NAME cfg = Some "workflow_dispatch" ->
    payload_inputs cfg = Some {| repo_name := Some rname |} ->
    truthy rname = true ->
    forallb (manual_target_only rname) (snd (run env cfg h)) = true.
Proof.
  intros env cfg rname h Hevent Hinputs Hname.
  revert h. change (emits (manual_target_only rname) (run env cfg)).
  unfold run. rewrite Hevent.
  change (opt_is (Some "workflow_dispatch") "push") with false.
  change (opt_is (Some "workflow_dispatch") "workflow_dispatch") with true.
  cbn [negb andb when]. unfold info, debug, setFailed.
  apply emits_bind; [ work_tac | intro ].
  apply emits_bind; [ work_tac | intro ].
  apply emits_bind; [ work_tac | intro ].
  apply emits_bind; [ work_tac | intro ].
  apply emits_try_catch; [ | work_tac ].
  apply manual_main; assumption.
Qed.

Lemma manual_dispatch_asks_for_one_repository_witness :
  let env := Scenario.world (Scenario.healthy ["spoke1"; "spoke2"] (fun _ _ => None))
               Scenario.checkout (mkFileLists ["README.md"] []) in
  let cfg := {| GITHUB_EVENT_NAME := Some "workflow_dispatch";
                GITHUB_TOKEN := Some "token";
                GITHUB_REPOSITORY := Some "acme/hub";
                payload_inputs := Some {| repo_name := Some "spoke2" |};
                payload_commits := None;
                cwd := "/work";
                getInput := fun _ => "" |} in
  (GITHUB_EVENT_NAME cfg = Some "workflow_dispatch"
   /\ payload_inputs cfg = Some {| repo_name := Some "spoke2" |}
   /\ truthy "spoke2" = true)
  /\ forallb (manual_target_only "spoke2") (snd (run env cfg [])) = true.
Proof.
  cbv zeta. split.
  - repeat split; reflexivity.
  - apply manual_dispatch_asks_for_one_repository; reflexivity.
Defined.

(** The named repository alone is processed. *)
Example manual_dispatch_scenario :
  filter (fun ev => is_outside_call ev && negb (repo_work_event ev))
    (snd (run
            (Scenario.world (Scenario.healthy ["spoke1"; "spoke2"] (fun _ _ => None))
               Scenario.checkout (mkFileLists ["README.md"] []))
            {| GITHUB_EVENT_NAME := Some "workflow_dispatch";
               GITHUB_TOKEN := Some "token";
               GITHUB_REPOSITORY := Some "acme/hub";
               payload_inputs := Some {| repo_name := Some "spoke2" |};
               payload_commits := None;
               cwd := "/work";
               getInput := fun _ => "" |} []))
  = [ EGetListOfFilesToReplicate "" "acme" (Some "hub") "" "" (Some "workflow_dispatch");
      EReposGet "acme" "spoke2";
      EGetListOfReposToIgnore (Some "hub")
        [repoDetails_of (Scenario.spoke "spoke2")]
        {| reposToIgnore := ""; topicsToInclude := "";
           excludePrivate := false; excludeForked := false |} ].
Proof. vm_compute. reflexivity. Qed.

End ManualTarget.

(** ** Listing the account's repositories *)

Module Listing.

Import ApiCalls Action Vocabulary Coverage.

(** X6: [getReposList] always asks for the organisation first; it asks
    for the user only when the platform answered that lookup with a 404,
    and lists with the endpoint that matches the lookup that succeeded, 100
    per page, exactly once.  An organisation lookup refused with another
    status, or a user lookup that is refused, ends it before any listing
    call, with the platform's own error in the message.  What it returns
    is what the listing answered: one descriptor per listed repository, in
    the order of the listing, or the listing's error. *)
Theorem getReposList_probes_then_lists :
  forall (env : Env) (o : string) (h : History),
    let res := getReposList env o h in
    let calls := filter is_outside_call (snd res) in
    let opened := EStartGroup ("Getting list of all repositories owned by " ++ o) in
    let org := orgs_get env (h ++ [opened])%list o in
    let user := users_getByUsername env (h ++ [opened; EOrgsGet o])%list o in
    (exists e, org = Throw e /\ status_is e 404 = false
               /\ calls = [EOrgsGet o]
               /\ fst res = Throw (new_Error ("Failed checking if workflow runs for org or user: "
                                              ++ exn_toString e)))
    \/ (exists e e', org = Throw e /\ status_is e 404 = true /\ user = Throw e'
                     /\ calls = [EOrgsGet o; EUsersGetByUsername o]
                     /\ fst res = Throw (new_Error ("Invalid user/org: " ++ exn_toString e')))
    \/ (org = Ok tt
        /\ calls = [EOrgsGet o; EPaginate listForOrg o 100]
        /\ fst res = listing_result
                       (paginate env (h ++ [opened; EOrgsGet o])%list listForOrg o 100))
    \/ (exists e, org = Throw e /\ status_is e 404 = true /\ user = Ok tt
                  /\ calls = [EOrgsGet o; EUsersGetByUsername o; EPaginate listForUser o 100]
                  /\ fst res = listing_result
                                 (paginate env (h ++ [opened; EOrgsGet o; EUsersGetByUsername o])%list
                                    listForUser o 100)).
Proof.
  intros env o h.
  cbv beta iota zeta delta
    [getReposList bind try_catch ask ret throw emit startGroup endGroup debug fst snd].
  rewrite <- ?app_assoc. cbn [app].
  destruct (orgs_get env (h ++ [_])%list o) as [[] | e].
  - right. right. left.
    split; [ reflexivity | ].
    rewrite <- ?app_assoc. cbn [app].
    destruct (paginate env _ listForOrg o 100) as [data | e];
      (split; reflexivity).
  - destruct (status_is e 404) eqn:Hstatus.
    + rewrite <- ?app_assoc. cbn [app].
      destruct (users_getByUsername env _ o) as [[] | e'].
      * right. right. right. exists e.
        split; [ reflexivity | split; [ exact Hstatus | split; [ reflexivity | ] ] ].
        rewrite <- ?app_assoc. cbn [app].
        destruct (paginate env _ listForUser o 100) as [data | e''];
          (split; reflexivity).
      * right. left. exists e, e'.
        split; [ reflexivity | split; [ exact Hstatus | split; [ reflexivity | ] ] ].
        split; reflexivity.
    + left. exists e.
      split; [ reflexivity | split; [ exact Hstatus | split; reflexivity ] ].
Qed.

End Listing.

(** ** What [createPr] resolves to *)

Module PrOutcomes.

Import ApiCalls Action Vocabulary Coverage PrRetry.

Section WithEnv.

Variable env : Env.
Variables branchName rid commitMessage base : string.

Local Abbreviation answer := (pr_answer env branchName rid commitMessage base).

Lemma pr_result_of_none (a : Result (option PrData)) :
  pr_result_of a = Ok None -> refused_too_quickly a = true.
Proof.
  destruct a as [response | e]; cbn [pr_result_of refused_too_quickly].
  - destruct (fst (destructure_pr response [])); discriminate.
  - destruct (retryable e); [ reflexivity | discriminate ].
Qed.

Lemma pr_result_of_refused (a : Result (option PrData)) :
  refused_too_quickly a = true -> pr_result_of a = Ok None.
Proof.
  destruct a as [response | e]; cbn [pr_result_of refused_too_quickly].
  - discriminate.
  - intros ->. reflexivity.
Qed.

(** The attempt [createPr] stops at is the first one that is not refused
    as submitted too quickly. *)
Lemma first_not_refused (h : History) (last k : nat) :
  (forall j, j < last -> refused_too_quickly (answer h j) = true) ->
  (refused_too_quickly (answer h last) = true -> last = 4) ->
  k < 5 ->
  (forall j, j < k -> refused_too_quickly (answer h j) = true) ->
  refused_too_quickly (answer h k) = false ->
  k = last.
Proof.
  intros Hbefore Hstop Hk Hbefore' Hnot.
  destruct (Nat.lt_total k last) as [Hlt | [Heq | Hgt]].
  - rewrite (Hbefore k Hlt) in Hnot. discriminate.
  - exact Heq.
  - specialize (Hstop (Hbefore' last Hgt)). lia.
Qed.

End WithEnv.

(** X7: the three outcomes of [createPr], each told from the platform's
    answers.  It ends without a URL and without an error exactly when all
    five attempts were refused as submitted too quickly (and its trace is
    then the five attempts).  It returns a URL exactly when some attempt
    k < 5 was answered with a payload carrying that URL, all attempts
    before it having been refused as submitted too quickly.  It throws
    exactly when some attempt k < 5, all attempts before it having been
    refused as submitted too quickly, was answered with an error other
    than that refusal or with a payload that cannot be read, and the error
    thrown is 'Unable to create a PR: ...' around that cause. *)
Theorem createPr_outcomes :
  forall (env : Env) (branchName rid commitMessage base : string) (h : History),
    let res := createPr env branchName rid commitMessage base h in
    (fst res = Ok None <->
     forall j, j < 5 ->
       refused_too_quickly (pr_answer env branchName rid commitMessage base h j) = true)
    /\ (fst res = Ok None ->
        snd res = flat_map (attempt_events branchName rid commitMessage base) [1; 2; 3; 4; 5])
    /\ (forall u, fst res = Ok (Some u) <->
          exists k response,
            k < 5
            /\ (forall j, j < k ->
                  refused_too_quickly (pr_answer env branchName rid commitMessage base h j) = true)
            /\ pr_answer env branchName rid commitMessage base h k = Ok response
            /\ fst (destructure_pr response []) = Ok u)
    /\ (forall e, fst res = Throw e <->
          exists k cause,
            k < 5
            /\ (forall j, j < k ->
                  refused_too_quickly (pr_answer env branchName rid commitMessage base h j) = true)
            /\ ((pr_answer env branchName rid commitMessage base h k = Throw cause
                 /\ retryable cause = false)
                \/ (exists response,
                      pr_answer env branchName rid commitMessage base h k = Ok response
                      /\ fst (destructure_pr response []) = Throw cause))
            /\ e = new_Error ("Unable to create a PR: " ++ exn_toString cause)).
Proof.
  intros env branchName rid commitMessage base h. cbv zeta.
  destruct (createPr_exact env branchName rid commitMessage base h)
    as [last [Hlast [Htrace [Hbefore [Hstop Hresult]]]]].
  assert (Hnone : fst (createPr env branchName rid commitMessage base h) = Ok None ->
                  last = 4).
  { intros Hres. apply Hstop, pr_result_of_none. congruence. }
  split; [ | split; [ | split ] ].
  - split.
    + intros Hres j Hj. specialize (Hnone Hres).
      destruct (Nat.eq_dec j last) as [-> | Hne].
      * apply pr_result_of_none. congruence.
      * apply Hbefore. lia.
    + intros Hall. rewrite Hresult. apply pr_result_of_refused, Hall, Hlast.
  - intros Hres. rewrite Htrace, (Hnone Hres). reflexivity.
  - intros u. split.
    + intros Hres. rewrite Hresult in Hres.
      destruct (pr_answer env branchName rid commitMessage base h last)
        as [response | e] eqn:Hanswer; cbn [pr_result_of] in Hres.
      * exists last, response.
        split; [ exact Hlast | split; [ exact Hbefore | split; [ exact Hanswer | ] ] ].
        destruct (fst (destructure_pr response [])); congruence.
      * destruct (retryable e); discriminate.
    + intros [k [response [Hk [Hbefore' [Hanswer Hurl]]]]].
      assert (k = last) as ->.
      { apply (first_not_refused env branchName rid commitMessage base h); try assumption.
        rewrite Hanswer. reflexivity. }
      rewrite Hresult, Hanswer. cbn [pr_result_of]. rewrite Hurl. reflexivity.
  - intros e. split.
    + intros Hres. rewrite Hresult in Hres.
      destruct (pr_answer env branchName rid commitMessage base h last)
        as [response | cause] eqn:Hanswer; cbn [pr_result_of] in Hres.
      * destruct (fst (destructure_pr response [])) as [u | cause] eqn:Hread;
          [ discriminate | ].
        exists last, cause.
        split; [ exact Hlast | split; [ exact Hbefore | split ] ].
        -- right. exists response. split; [ exact Hanswer | exact Hread ].
        -- congruence.
      * destruct (retryable cause) eqn:Hretry; [ discriminate | ].
        exists last, cause.
        split; [ exact Hlast | split; [ exact Hbefore | split ] ].
        -- left. split; [ exact Hanswer | exact Hretry ].
        -- congruence.
    + intros [k [cause [Hk [Hbefore' [[[Hanswer Hretry] | [response [Hanswer Hread]]] ->]]]]].
      * assert (k = last) as ->.
        { apply (first_not_refused env branchName rid commitMessage base h); try assumption.
          rewrite Hanswer. exact Hretry. }
        rewrite Hresult, Hanswer. cbn [pr_result_of]. rewrite Hretry. reflexivity.
      * assert (k = last) as ->.
        { apply (first_not_refused env branchName rid commitMessage base h); try assumption.
          rewrite Hanswer. reflexivity. }
        rewrite Hresult, Hanswer. cbn [pr_result_of]. rewrite Hread. reflexivity.
Qed.

End PrOutcomes.

(** ** The commit step's retry policy *)

Module CommitRetry.

Import ApiCalls Action Vocabulary Coverage.

Lemma count_app (P : Event -> bool) (t1 t2 : Trace) :
  count P (t1 ++ t2)%list = count P t1 + count P t2.
Proof. unfold count. rewrite filter_app, length_app. reflexivity. Qed.

Section WithEnv.

Variable env : Env.
Variables o r b : string.
Variable fc : FileChanges.
Variable m : string.

Lemma getRefOidAndRepoId_trace (branch : string) (h : History) :
  snd (getRefOidAndRepoId env o r branch h) = [EHeadOidQuery o r ("refs/heads/" ++ branch)].
Proof.
  cbv beta iota zeta delta [getRefOidAndRepoId bind ask ret throw fst snd app].
  destruct (graphql_headOid env h o r ("refs/heads/" ++ branch)) as [[d | ] | e];
    try reflexivity.
  destruct (hd_repository d) as [rn | ]; try reflexivity.
  destruct (rn_ref rn) as [rf | ]; try reflexivity.
  destruct (ref_target rf); reflexivity.
Qed.

Lemma commit_url_of_pure (d : CommitData) (h : History) :
  commit_url_of d h = (fst (commit_url_of d []), []).
Proof.
  unfold commit_url_of.
  destruct (cd_createCommitOnBranch d) as [p | ]; [ | reflexivity ].
  destruct (cp_commit p); reflexivity.
Qed.

Lemma commit_url_of_error (d : CommitData) (e : Exn) :
  fst (commit_url_of d []) = Throw e ->
  String.eqb (exn_message e) "Response is null" = false.
Proof.
  unfold commit_url_of.
  destruct (cd_createCommitOnBranch d) as [p | ]; [ | intros H; inversion H; reflexivity ].
  destruct (cp_commit p); intros H; inversion H; reflexivity.
Qed.

(** One pass of the loop, case by case. *)
Lemma commitFiles_loop_pass (tries : nat) (h : History) :
  commitFiles_loop env o r b fc m (S tries) h =
  let query := EHeadOidQuery o r ("refs/heads/" ++ b) in
  match fst (getRefOidAndRepoId env o r b h) with
  | Throw e => after_commit_error env o r b fc m tries h e [query]
  | Ok (headOid, _) =>
      let sent := [query; EDebug; EDebug; EDebug;
                   ECreateCommitOnBranch (o ++ "/" ++ r) b fc m headOid] in
      match graphql_createCommitOnBranch env (h ++ [query; EDebug; EDebug; EDebug])%list
              (o ++ "/" ++ r) b fc m headOid with
      | Throw e => after_commit_error env o r b fc m tries h e sent
      | Ok None =>
          after_commit_error env o r b fc m tries h (new_Error "Response is null")
            (sent ++ [EDebug; EDebug])%list
      | Ok (Some d) =>
          match fst (commit_url_of d []) with
          | Ok u => (Ok (Some u), (sent ++ [EDebug; EDebug])%list)
          | Throw e =>
              after_commit_error env o r b fc m tries h e (sent ++ [EDebug; EDebug])%list
          end
      end
  end.
Proof.
  cbv zeta. cbn [commitFiles_loop].
  unfold bind at 1. unfold try_catch at 1. unfold bind at 1.
  pose proof (getRefOidAndRepoId_trace b h) as Htrace.
  destruct (getRefOidAndRepoId env o r b h) as [[[headOid repoId] | e] tg];
    cbn [fst snd] in *; subst tg.
  - unfold bind at 1. unfold debug at 1, emit at 1.
    unfold bind at 1. unfold debug at 1, emit at 1.
    unfold bind at 1. unfold debug at 1, emit at 1.
    unfold bind at 1. unfold ask at 1.
    cbn [app].
    replace ((((h ++ [EHeadOidQuery o r ("refs/heads/" ++ b)]) ++ [EDebug]) ++ [EDebug])
             ++ [EDebug])%list
      with (h ++ [EHeadOidQuery o r ("refs/heads/" ++ b); EDebug; EDebug; EDebug])%list
      by (rewrite <- !app_assoc; reflexivity).
    destruct (graphql_createCommitOnBranch env _ (o ++ "/" ++ r) b fc m headOid)
      as [[d | ] | e].
    + unfold bind at 1. unfold debug at 1, emit at 1.
      unfold bind at 1. unfold debug at 1, emit at 1.
      unfold bind at 1.
      rewrite commit_url_of_pure.
      destruct (fst (commit_url_of d [])) as [u | e] eqn:Hurl.
      * reflexivity.
      * unfold after_commit_error. rewrite (commit_url_of_error d e Hurl).
        reflexivity.
    + unfold after_commit_error.
      cbn. unfold bind, ret. cbn [app].
      rewrite <- ?app_assoc. cbn [app].
      destruct (commitFiles_loop env o r b fc m tries _) as [r' t']. reflexivity.
    + unfold after_commit_error. cbn [app fst snd].
      destruct (String.eqb (exn_message e) "Response is null").
      * unfold bind, sleep, emit, ret. cbn [app].
        rewrite <- ?app_assoc. cbn [app].
        destruct (commitFiles_loop env o r b fc m tries _) as [r' t']. reflexivity.
      * reflexivity.
  - unfold after_commit_error. cbn [app fst snd].
    destruct (String.eqb (exn_message e) "Response is null").
    + unfold bind, sleep, emit, ret. cbn [app].
      rewrite <- ?app_assoc. cbn [app].
      destruct (commitFiles_loop env o r b fc m tries _) as [r' t']. reflexivity.
    + reflexivity.
Qed.

Lemma after_commit_error_close (tries : nat) (h : History) (e : Exn) (t : Trace) :
  after_commit_error env o r b fc m tries h e t =
  match close_pass e t with
  | (PassRetry, t') =>
      let next := commitFiles_loop env o r b fc m tries (h ++ t')%list in
      (fst next, (t' ++ snd next)%list)
  | (p, t') => (commit_result_of r p, t')
  end.
Proof.
  unfold after_commit_error, close_pass.
  destruct (String.eqb (exn_message e) "Response is null"); [ | reflexivity ].
  cbv zeta. rewrite <- app_assoc. reflexivity.
Qed.

(** One pass of the loop, told from how the pass ends. *)
Lemma commitFiles_loop_step (tries : nat) (h : History) :
  commitFiles_loop env o r b fc m (S tries) h =
  match commit_pass env o r b fc m h with
  | (PassRetry, t) =>
      let next := commitFiles_loop env o r b fc m tries (h ++ t)%list in
      (fst next, (t ++ snd next)%list)
  | (p, t) => (commit_result_of r p, t)
  end.
Proof.
  rewrite commitFiles_loop_pass. unfold commit_pass. cbv zeta.
  destruct (fst (getRefOidAndRepoId env o r b h)) as [[headOid repoId] | e];
    [ | apply after_commit_error_close ].
  destruct (graphql_createCommitOnBranch env _ (o ++ "/" ++ r) b fc m headOid)
    as [[d | ] | e]; try apply after_commit_error_close.
  destruct (fst (commit_url_of d [])) as [u | e]; [ reflexivity | ].
  apply after_commit_error_close.
Qed.

Local Abbreviation before := (history_before_pass env o r b fc m).

(** The loop entered for pass number [j], all passes before it made: it
    stops at the first pass that does not end in a retry, or at its last
    pass, and resolves as that pass ended. *)
Lemma commitFiles_loop_exact (tries : nat) :
  forall (j : nat) (h : History),
  exists last,
    j <= last < j + S tries
    /\ (before h j ++ snd (commitFiles_loop env o r b fc m (S tries) (before h j)))%list
       = before h (S last)
    /\ (forall i, j <= i < last -> fst (commit_pass env o r b fc m (before h i)) = PassRetry)
    /\ (fst (commit_pass env o r b fc m (before h last)) = PassRetry -> last = j + tries)
    /\ fst (commitFiles_loop env o r b fc m (S tries) (before h j))
       = commit_result_of r (fst (commit_pass env o r b fc m (before h last))).
Proof.
  induction tries as [ | tries IH]; intros j h; rewrite commitFiles_loop_step;
    cbn [history_before_pass];
    destruct (commit_pass env o r b fc m (before h j)) as [[u | | cause] t] eqn:Hpass.
  1, 3, 4, 6:
    exists j; rewrite Hpass; cbn [fst snd commit_result_of];
    (split; [ lia | split; [ reflexivity | split; [ intros; lia | split;
       [ discriminate | reflexivity ] ] ] ]).
  - exists j. rewrite Hpass. cbn [commitFiles_loop ret fst snd commit_result_of].
    rewrite app_nil_r.
    split; [ lia | split; [ reflexivity | split; [ intros; lia | split;
      [ intros; lia | reflexivity ] ] ] ].
  - destruct (IH (S j) h) as [last [Hlast [Htrace [Hbefore [Hstop Hresult]]]]].
    cbn [history_before_pass] in Htrace, Hresult.
    rewrite Hpass in Htrace, Hresult. cbn [snd] in Htrace, Hresult.
    exists last. cbv zeta. cbn [fst snd].
    split; [ lia | split; [ | split; [ | split ] ] ].
    + rewrite app_assoc. exact Htrace.
    + intros i Hi. destruct (Nat.eq_dec i j) as [-> | Hne].
      * rewrite Hpass. reflexivity.
      * apply Hbefore. lia.
    + intros Hretry. specialize (Hstop Hretry). lia.
    + exact Hresult.
Qed.

Lemma after_commit_error_policy (tries : nat) (h : History) (e : Exn) (t : Trace) :
  count is_head_query t = 1 ->
  count is_commit_mutation t <= 1 ->
  count is_one_second_sleep t = 0 ->
  Forall (commit_event_ok o r b fc m) t ->
  (forall h', commit_policy o r b fc m tries (commitFiles_loop env o r b fc m tries h')) ->
  commit_policy o r b fc m (S tries) (after_commit_error env o r b fc m tries h e t).
Proof.
  intros Hq Hc Hs Hok IH. unfold after_commit_error.
  destruct (String.eqb (exn_message e) "Response is null") eqn:Hmsg.
  - specialize (IH (h ++ t ++ [ESleep 1000])%list).
    destruct (commitFiles_loop env o r b fc m tries (h ++ t ++ [ESleep 1000])%list)
      as [res t'].
    unfold commit_policy in *. cbn [fst snd] in *.
    destruct IH as [Iq [Ic [Is [Iok [Inone Isome]]]]].
    rewrite !count_app.
    change (count is_head_query [ESleep 1000]) with 0.
    change (count is_commit_mutation [ESleep 1000]) with 0.
    change (count is_one_second_sleep [ESleep 1000]) with 1.
    repeat split.
    + lia.
    + lia.
    + lia.
    + apply Forall_app. split; [ exact Hok | ].
      apply Forall_cons; [ reflexivity | exact Iok ].
    + destruct (Inone H). lia.
    + destruct (Inone H). lia.
    + intros u Hu. specialize (Isome u Hu). lia.
  - unfold commit_policy. cbn [fst snd].
    repeat split; try lia; try discriminate; try assumption.
Qed.

Lemma commitFiles_loop_policy (tries : nat) :
  forall h, commit_policy o r b fc m tries (commitFiles_loop env o r b fc m tries h).
Proof.
  induction tries as [ | tries IH]; intros h.
  - unfold commit_policy, count. cbn.
    repeat split; try lia; try constructor; intros; discriminate.
  - rewrite commitFiles_loop_pass. cbv zeta.
    destruct (fst (getRefOidAndRepoId env o r b h)) as [[headOid repoId] | e];
      [ destruct (graphql_createCommitOnBranch env _ (o ++ "/" ++ r) b fc m headOid)
          as [[d | ] | e];
        [ destruct (fst (commit_url_of d [])) as [u | e] | | ] | ].
    1: { unfold commit_policy, count. cbn.
         repeat split; try lia; try discriminate.
         repeat (apply Forall_cons; [ cbn; repeat split; reflexivity | ]).
         apply Forall_nil. }
    all: apply after_commit_error_policy;
      [ reflexivity
      | unfold count; cbn; lia
      | reflexivity
      | cbn [app];
        repeat (apply Forall_cons; [ cbn; repeat split; reflexivity | ]);
        apply Forall_nil
      | exact IH ].
Qed.

End WithEnv.

Lemma commitFiles_policy (env : Env) (o r b : string) (fc : FileChanges) (m : string)
    (h : History) :
  exists t,
    snd (commitFiles env o r b fc m h)
    = EInfo ("Committing changes to the " ++ r ++ " repository") :: t
    /\ commit_policy o r b fc m 10 (fst (commitFiles env o r b fc m h), t).
Proof.
  unfold commitFiles.
  rewrite (bind_Ok _ _ h tt [EInfo ("Committing changes to the " ++ r ++ " repository")])
    by reflexivity.
  cbn [fst snd app].
  eexists. split; [ reflexivity | ].
  rewrite <- pair_eta. apply commitFiles_loop_policy.
Qed.

(** X8: [commitFiles] logs its line and then makes passes number 0 to
    [last], [last] < 10.  Every pass before the last one ended in a retry,
    that is, with an error whose message is 'Response is null' (thrown by
    the head query, by the mutation, by the code itself on a null
    response, or while reading the URL) followed by a one-second sleep;
    the last pass did not, or was the tenth.  What [commitFiles] emitted
    is its line and the passes' events one after the other, and it
    resolves as its last pass ended: the URL read from the answer, the
    error 'Unable to commit changes to the ... repository: ...' around the
    very error that ended the pass, or nothing at all when the tenth pass
    too ended in a retry.  Hence at most 10 head queries, at most one
    commit mutation and one one-second sleep per head query, and nothing
    but log lines, those sleeps, head queries for that branch and commit
    mutations for that branch, change set and message. *)
Theorem commitFiles_retry_policy :
  forall (env : Env) (o r b : string) (fc : FileChanges) (m : string) (h : History),
    (exists last,
       last < 10
       /\ (forall j, j < last -> commit_pass_end env o r b fc m h j = PassRetry)
       /\ (commit_pass_end env o r b fc m h last = PassRetry -> last = 9)
       /\ (h ++ snd (commitFiles env o r b fc m h))%list
          = history_before_pass env o r b fc m
              (h ++ [EInfo ("Committing changes to the " ++ r ++ " repository")])%list (S last)
       /\ fst (commitFiles env o r b fc m h)
          = commit_result_of r (commit_pass_end env o r b fc m h last))
    /\ (exists t,
          snd (commitFiles env o r b fc m h)
          = EInfo ("Committing changes to the " ++ r ++ " repository") :: t
          /\ commit_policy o r b fc m 10 (fst (commitFiles env o r b fc m h), t)).
Proof.
  intros env o r b fc m h. split; [ | apply commitFiles_policy ].
  destruct (commitFiles_loop_exact env o r b fc m 9 0
              (h ++ [EInfo ("Committing changes to the " ++ r ++ " repository")])%list)
    as [last [Hlast [Htrace [Hbefore [Hstop Hresult]]]]].
  change (history_before_pass env o r b fc m
            (h ++ [EInfo ("Committing changes to the " ++ r ++ " repository")])%list 0)
    with (h ++ [EInfo ("Committing changes to the " ++ r ++ " repository")])%list
    in Htrace, Hresult.
  exists last. unfold commit_pass_end, commitFiles.
  rewrite (bind_Ok _ _ h tt [EInfo ("Committing changes to the " ++ r ++ " repository")])
    by reflexivity.
  cbn [fst snd].
  split; [ lia | split; [ | split; [ exact Hstop | split; [ | exact Hresult ] ] ] ].
  - intros j Hj. apply Hbefore. lia.
  - rewrite app_assoc. exact Htrace.
Qed.

(** X9: a head query answered with no ref for the branch (the branch is
    not visible yet) is not retried: [commitFiles] throws at that pass,
    having sent no commit mutation and slept not at all. *)
Theorem missing_ref_is_fatal_at_once :
  forall (env : Env) (o r b : string) (fc : FileChanges) (m : string) (h : History)
         (repoId : string),
    graphql_headOid env (h ++ [EInfo ("Committing changes to the " ++ r ++ " repository")])%list
      o r ("refs/heads/" ++ b)
    = Ok (Some {| hd_repository := Some {| rn_id := repoId; rn_ref := None |} |}) ->
    exists cause,
      exn_name cause = "TypeError"
      /\ commitFiles env o r b fc m h
         = (Throw (commit_error r cause),
            [ EInfo ("Committing changes to the " ++ r ++ " repository");
              EHeadOidQuery o r ("refs/heads/" ++ b) ]).
Proof.
  intros env o r b fc m h repoId Hhead.
  assert (Hquery :
            getRefOidAndRepoId env o r b
              (h ++ [EInfo ("Committing changes to the " ++ r ++ " repository")])%list
            = (Throw (TypeError "Cannot read properties of null (reading 'target')"),
               [EHeadOidQuery o r ("refs/heads/" ++ b)])).
  { unfold getRefOidAndRepoId, bind, ask. rewrite Hhead. reflexivity. }
  exists (TypeError "Cannot read properties of null (reading 'target')").
  split; [ reflexivity | ].
  unfold commitFiles.
  rewrite (bind_Ok _ _ h tt [EInfo ("Committing changes to the " ++ r ++ " repository")])
    by reflexivity.
  rewrite commitFiles_loop_pass. cbv zeta. rewrite Hquery. reflexivity.
Qed.

End CommitRetry.

Module CommitLag.

Import ApiCalls Action Vocabulary Coverage.

Lemma missing_ref_is_fatal_at_once_witness :
  graphql_headOid lagging_env
    ([] ++ [EInfo ("Committing changes to the " ++ "spoke1" ++ " repository")])%list
    "acme" "spoke1" ("refs/heads/" ++ "sync/abc123")
  = Ok (Some {| hd_repository := Some {| rn_id := "id-spoke1"; rn_ref := None |} |})
  /\ exists cause,
       exn_name cause = "TypeError"
       /\ commitFiles lagging_env "acme" "spoke1" "sync/abc123" (mkFileChanges None None)
            "sync files" []
          = (Throw (commit_error "spoke1" cause),
             [ EInfo ("Committing changes to the " ++ "spoke1" ++ " repository");
               EHeadOidQuery "acme" "spoke1" ("refs/heads/" ++ "sync/abc123") ]).
Proof.
  split.
  - reflexivity.
  - apply (CommitRetry.missing_ref_is_fatal_at_once lagging_env "acme" "spoke1" "sync/abc123"
             (mkFileChanges None None) "sync files" [] "id-spoke1").
    reflexivity.
Defined.

(** The branch is created, its head is not visible yet: the repository
    ends in the warning, with no commit and no pull request. *)
Example lagging_branch_scenario :
  filter Scenario.is_milestone
    (snd (run lagging_env (Scenario.push_config [("commit_message", "sync files")]) []))
  = [ ECreateRef "id-spoke1" "refs/heads/sync/abc123" "0a1b2c";
      EInfo "Branch sync/abc123 was created in the spoke1 repo";
      EWarning "Failed replicating files for this repo: Error: Unable to commit changes to the spoke1 repository: TypeError: Cannot read properties of null (reading 'target')" ].
Proof. vm_compute. reflexivity. Qed.

End CommitLag.

(** ** The diff step: what it reads and how much *)

Module DiffScope.

Import ApiCalls Action Vocabulary Coverage CommitRetry.

Section Combinators.

Variable ok : Event -> Prop.
Variable P : Event -> bool.

Lemma within_ret {A : Type} (a : A) : within ok (ret a).
Proof. intros h. apply Forall_nil. Qed.

Lemma within_throw {A : Type} (e : Exn) : within ok (@throw A e).
Proof. intros h. apply Forall_nil. Qed.

Lemma within_emit (ev : Event) : ok ev -> within ok (emit ev).
Proof. intros H h. apply Forall_cons; [ exact H | apply Forall_nil ]. Qed.

Lemma within_ask {A : Type} (ev : Event) (answer : History -> Result A) :
  ok ev -> within ok (ask ev answer).
Proof. intros H h. apply Forall_cons; [ exact H | apply Forall_nil ]. Qed.

Lemma within_bind {A B : Type} (m : Act A) (f : A -> Act B) :
  within ok m -> (forall a, within ok (f a)) -> within ok (bind m f).
Proof.
  intros Hm Hf h. unfold bind. specialize (Hm h).
  destruct (m h) as [[a | e] t]; cbn [snd] in *; [ | exact Hm ].
  specialize (Hf a (h ++ t)%list). destruct (f a (h ++ t)%list) as [res t'].
  cbn [snd] in *. apply Forall_app. split; assumption.
Qed.

Lemma within_try_catch {A : Type} (m : Act A) (k : Exn -> Act A) :
  within ok m -> (forall e, within ok (k e)) -> within ok (try_catch m k).
Proof.
  intros Hm Hk h. unfold try_catch. specialize (Hm h).
  destruct (m h) as [[a | e] t]; cbn [snd] in *; [ exact Hm | ].
  specialize (Hk e (h ++ t)%list). destruct (k e (h ++ t)%list) as [res t'].
  cbn [snd] in *. apply Forall_app. split; assumption.
Qed.

Lemma at_most_ret {A : Type} (a : A) : at_most P 0 (ret a).
Proof. intros h. apply Nat.le_refl. Qed.

Lemma at_most_throw {A : Type} (e : Exn) : at_most P 0 (@throw A e).
Proof. intros h. apply Nat.le_refl. Qed.

Lemma at_most_silent (ev : Event) : P ev = false -> at_most P 0 (emit ev).
Proof. intros H h. unfold count. cbn. rewrite H. apply Nat.le_refl. Qed.

Lemma at_most_silent_ask {A : Type} (ev : Event) (answer : History -> Result A) :
  P ev = false -> at_most P 0 (ask ev answer).
Proof. intros H h. unfold count. cbn. rewrite H. apply Nat.le_refl. Qed.

Lemma at_most_one_ask {A : Type} (ev : Event) (answer : History -> Result A) :
  at_most P 1 (ask ev answer).
Proof. intros h. unfold count. cbn. destruct (P ev); cbn; lia. Qed.

Lemma at_most_bind {A B : Type} (n k : nat) (m : Act A) (f : A -> Act B) :
  at_most P n m -> (forall a, at_most P k (f a)) -> at_most P (n + k) (bind m f).
Proof.
  intros Hm Hf h. unfold bind. specialize (Hm h).
  destruct (m h) as [[a | e] t]; cbn [snd] in *; [ | lia ].
  specialize (Hf a (h ++ t)%list). destruct (f a (h ++ t)%list) as [res t'].
  cbn [snd] in *. rewrite count_app. lia.
Qed.

Lemma at_most_try_catch {A : Type} (n k : nat) (m : Act A) (handler : Exn -> Act A) :
  at_most P n m -> (forall e, at_most P k (handler e)) -> at_most P (n + k) (try_catch m handler).
Proof.
  intros Hm Hk h. unfold try_catch. specialize (Hm h).
  destruct (m h) as [[a | e] t]; cbn [snd] in *; [ lia | ].
  specialize (Hk e (h ++ t)%list). destruct (handler e (h ++ t)%list) as [res t'].
  cbn [snd] in *. rewrite count_app. lia.
Qed.

Lemma at_most_weaken {A : Type} (n n' : nat) (m : Act A) :
  n <= n' -> at_most P n m -> at_most P n' m.
Proof. intros Hn Hm h. specialize (Hm h). lia. Qed.

End Combinators.

Section WithEnv.

Variable env : Env.
Variable cfg : Config.
Variable L : Locals.
Variable repo : Repo.

Local Abbreviation scoped := (diff_event_ok cfg L repo).

Lemma scoped_getFile (path : string) :
  within scoped (getFile env (owner L) (name repo) (defaultBranch repo) path).
Proof.
  unfold getFile.
  apply within_try_catch.
  - apply within_bind; [ | intro; apply within_ret ].
    apply within_ask. cbn. repeat split; reflexivity.
  - intro e. destruct (status_is e 404); [ apply within_ret | apply within_throw ].
Qed.

Lemma one_request_getFile (path : string) :
  at_most is_content_request 1 (getFile env (owner L) (name repo) (defaultBranch repo) path).
Proof.
  unfold getFile.
  apply (at_most_try_catch _ 1 0).
  - apply (at_most_bind _ 1 0); [ apply at_most_one_ask | intro; apply at_most_ret ].
  - intro e. destruct (status_is e 404); [ apply at_most_ret | apply at_most_throw ].
Qed.

Lemma no_read_getFile (path : string) :
  at_most is_local_read 0 (getFile env (owner L) (name repo) (defaultBranch repo) path).
Proof.
  unfold getFile.
  apply (at_most_try_catch _ 0 0).
  - apply (at_most_bind _ 0 0); [ apply at_most_silent_ask; reflexivity | intro; apply at_most_ret ].
  - intro e. destruct (status_is e 404); [ apply at_most_ret | apply at_most_throw ].
Qed.

Lemma scoped_replicate_loop (paths : list string) :
  forall fc, within scoped (replicate_loop env cfg L repo paths fc).
Proof.
  induction paths as [ | path rest IH]; intros fc; cbn [replicate_loop].
  - apply within_ret.
  - apply within_bind; [ apply scoped_getFile | intro target ].
    apply within_bind; [ apply within_ask; exists path; reflexivity | intro source ].
    unfold debug.
    do 4 (apply within_bind; [ apply within_emit; exact I | intro ]).
    apply within_bind; [ | intro; apply IH ].
    destruct (negb (String.eqb source (getFile_toString target))); [ | apply within_ret ].
    apply within_bind; [ | intro; apply within_ret ].
    apply within_ask. split; reflexivity.
Qed.

Lemma requests_replicate_loop (paths : list string) :
  forall fc, at_most is_content_request (length paths) (replicate_loop env cfg L repo paths fc).
Proof.
  induction paths as [ | path rest IH]; intros fc; cbn [replicate_loop length].
  - apply at_most_ret.
  - apply (at_most_bind _ 1 (length rest)); [ apply one_request_getFile | intro target ].
    apply (at_most_bind _ 0 (length rest));
      [ apply at_most_silent_ask; reflexivity | intro source ].
    unfold debug.
    do 4 (apply (at_most_bind _ 0 (length rest)); [ apply at_most_silent; reflexivity | intro ]).
    apply (at_most_bind _ 0 (length rest)); [ | intro; apply IH ].
    destruct (negb (String.eqb source (getFile_toString target))); [ | apply at_most_ret ].
    apply (at_most_bind _ 0 0); [ apply at_most_silent_ask; reflexivity | intro; apply at_most_ret ].
Qed.

Lemma reads_replicate_loop (paths : list string) :
  forall fc, at_most is_local_read (length paths) (replicate_loop env cfg L repo paths fc).
Proof.
  induction paths as [ | path rest IH]; intros fc; cbn [replicate_loop length].
  - apply at_most_ret.
  - apply (at_most_bind _ 0 (S (length rest))); [ apply no_read_getFile | intro target ].
    apply (at_most_bind _ 1 (length rest)); [ apply at_most_one_ask | intro source ].
    unfold debug.
    do 4 (apply (at_most_bind _ 0 (length rest)); [ apply at_most_silent; reflexivity | intro ]).
    apply (at_most_bind _ 0 (length rest)); [ | intro; apply IH ].
    destruct (negb (String.eqb source (getFile_toString target))); [ | apply at_most_ret ].
    apply (at_most_bind _ 0 0); [ apply at_most_silent_ask; reflexivity | intro; apply at_most_ret ].
Qed.

Lemma scoped_remove_loop (keys : list string) :
  forall fc, within scoped (remove_loop env L repo keys fc).
Proof.
  induction keys as [ | key rest IH]; intros fc; cbn [remove_loop].
  - apply within_ret.
  - unfold fileExists.
    apply within_bind;
      [ apply within_bind; [ apply scoped_getFile | intro; apply within_ret ] | intro ex ].
    apply within_bind; [ | intro; apply IH ].
    destruct ex; [ | apply within_ret ].
    apply within_bind; [ | intro; apply within_ret ].
    apply within_ask. split; reflexivity.
Qed.

Lemma requests_remove_loop (keys : list string) :
  forall fc, at_most is_content_request (length keys) (remove_loop env L repo keys fc).
Proof.
  induction keys as [ | key rest IH]; intros fc; cbn [remove_loop length].
  - apply at_most_ret.
  - unfold fileExists.
    apply (at_most_bind _ 1 (length rest));
      [ apply (at_most_bind _ 1 0); [ apply one_request_getFile | intro; apply at_most_ret ]
      | intro ex ].
    apply (at_most_bind _ 0 (length rest)); [ | intro; apply IH ].
    destruct ex; [ | apply at_most_ret ].
    apply (at_most_bind _ 0 0); [ apply at_most_silent_ask; reflexivity | intro; apply at_most_ret ].
Qed.

Lemma reads_remove_loop (keys : list string) :
  forall fc, at_most is_local_read 0 (remove_loop env L repo keys fc).
Proof.
  induction keys as [ | key rest IH]; intros fc; cbn [remove_loop].
  - apply at_most_ret.
  - unfold fileExists.
    apply (at_most_bind _ 0 0);
      [ apply (at_most_bind _ 0 0); [ apply no_read_getFile | intro; apply at_most_ret ]
      | intro ex ].
    apply (at_most_bind _ 0 0); [ | intro; apply IH ].
    destruct ex; [ | apply at_most_ret ].
    apply (at_most_bind _ 0 0); [ apply at_most_silent_ask; reflexivity | intro; apply at_most_ret ].
Qed.

Lemma for_in_keys_length {A : Type} (arr : list A) : length (for_in_keys arr) = length arr.
Proof. unfold for_in_keys. rewrite length_map, length_seq. reflexivity. Qed.

Lemma scoped_diff : within scoped (diff env cfg L repo).
Proof.
  unfold diff.
  apply within_bind; [ | intro; apply scoped_remove_loop ].
  destruct (filesToReplicate L); [ apply scoped_replicate_loop | apply within_throw ].
Qed.

Lemma requests_diff :
  at_most is_content_request (replicate_count L + remove_count L) (diff env cfg L repo).
Proof.
  unfold diff, replicate_count, remove_count.
  apply at_most_bind.
  - destruct (filesToReplicate L); [ apply requests_replicate_loop | apply at_most_throw ].
  - intro fc. destruct (filesToRemove L) as [arr | ].
    + rewrite <- (for_in_keys_length arr). apply requests_remove_loop.
    + apply at_most_ret.
Qed.

Lemma reads_diff : at_most is_local_read (replicate_count L) (diff env cfg L repo).
Proof.
  unfold diff, replicate_count.
  apply (at_most_weaken _ (match filesToReplicate L with
                           | Some paths => length paths
                           | None => 0
                           end + 0)); [ lia | ].
  apply at_most_bind.
  - destruct (filesToReplicate L); [ apply reads_replicate_loop | apply at_most_throw ].
  - intro fc. apply reads_remove_loop.
Qed.

End WithEnv.

Lemma scoped_is_no_mutation (cfg : Config) (L : Locals) (repo : Repo) (t : Trace) :
  Forall (diff_event_ok cfg L repo) t -> filter is_mutation t = [].
Proof.
  induction 1 as [ | ev t Hev _ IH]; [ reflexivity | ].
  cbn [filter]. rewrite IH. destruct ev; try reflexivity; contradiction.
Qed.

(** X10: the diff step only reads.  For any repository it emits nothing
    but debug lines, content requests for that repository at its default
    branch, reads of files below the working directory, and encoder calls
    on the run's two lists; it makes at most one content request per
    entry of the two lists and at most one local read per replicated
    path. *)
Theorem diff_only_reads :
  forall (env : Env) (cfg : Config) (L : Locals) (repo : Repo) (h : History),
    Forall (diff_event_ok cfg L repo) (snd (diff env cfg L repo h))
    /\ count is_content_request (snd (diff env cfg L repo h))
       <= replicate_count L + remove_count L
    /\ count is_local_read (snd (diff env cfg L repo h)) <= replicate_count L
    /\ filter is_mutation (snd (diff env cfg L repo h)) = [].
Proof.
  intros env cfg L repo h. repeat split.
  - apply scoped_diff.
  - apply requests_diff.
  - apply reads_diff.
  - apply (scoped_is_no_mutation cfg L repo). apply scoped_diff.
Qed.

(** X11: when the diff of a repository that is not ignored yields a
    change set with neither additions nor deletions, the repository is
    closed with the 'No changes' line and its whole processing has made
    no mutation: no branch, no commit, no pull request. *)
Theorem no_change_means_no_mutation :
  forall (env : Env) (cfg : Config) (L : Locals) (repo : Repo) (h : History)
         (fc : FileChanges) (t : Trace),
    selected L repo = true ->
    diff env cfg L repo (h ++ [EStartGroup ("Started updating " ++ name repo ++ " repo")])%list
    = (Ok fc, t) ->
    has_changes fc = false ->
    process_repo env cfg L repo h
    = (Ok tt,
       EStartGroup ("Started updating " ++ name repo ++ " repo")
       :: (t ++ [EInfo ("No changes in repo " ++ name repo ++ " detected"); EEndGroup])%list)
    /\ filter is_mutation (snd (process_repo env cfg L repo h)) = [].
Proof.
  intros env cfg L repo h fc t Hsel Hdiff Hnone.
  assert (Hrun : process_repo env cfg L repo h
                 = (Ok tt,
                    EStartGroup ("Started updating " ++ name repo ++ " repo")
                    :: (t ++ [EInfo ("No changes in repo " ++ name repo ++ " detected");
                              EEndGroup])%list)).
  { unfold process_repo. unfold selected in Hsel. rewrite Hsel.
    rewrite (bind_Ok _ _ h tt [EStartGroup ("Started updating " ++ name repo ++ " repo")])
      by reflexivity.
    rewrite (bind_Ok _ _ _ fc t Hdiff).
    unfold mutate. rewrite Hnone. reflexivity. }
  split; [ exact Hrun | ].
  rewrite Hrun. cbn [snd filter is_mutation is_ref_mutation is_commit_mutation is_pr_mutation orb].
  rewrite filter_app.
  pose proof (scoped_diff env cfg L repo
                (h ++ [EStartGroup ("Started updating " ++ name repo ++ " repo")])%list) as Hs.
  rewrite Hdiff in Hs. cbn [snd] in Hs.
  rewrite (scoped_is_no_mutation cfg L repo t Hs). reflexivity.
Qed.

Lemma no_change_means_no_mutation_witness :
  let fl := mkFileLists [] ["legacy/old.yml"] in
  let env := Scenario.one_spoke (fun _ => None) Scenario.checkout fl in
  let cfg := Scenario.push_config Scenario.sync_inputs in
  let L := Scenario.locals (Some fl) in
  let repo := Scenario.spoke1 in
  let t := [EReposGetContent "acme" "spoke1" "0" "main"] in
  (selected L repo = true
   /\ diff env cfg L repo ([] ++ [EStartGroup ("Started updating " ++ name repo ++ " repo")])%list
      = (Ok (mkFileChanges None None), t)
   /\ has_changes (mkFileChanges None None) = false)
  /\ process_repo env cfg L repo []
     = (Ok tt,
        EStartGroup ("Started updating " ++ name repo ++ " repo")
        :: (t ++ [EInfo ("No changes in repo " ++ name repo ++ " detected"); EEndGroup])%list)
  /\ filter is_mutation (snd (process_repo env cfg L repo [])) = [].
Proof.
  cbv zeta. split.
  - repeat split; vm_compute; reflexivity.
  - apply (no_change_means_no_mutation _ _ _ _ [] (mkFileChanges None None)).
    + reflexivity.
    + vm_compute. reflexivity.
    + reflexivity.
Defined.

End DiffScope.

(** ** The order of the mutations *)

Module StepOrder.

Import ApiCalls Action Vocabulary Coverage Isolation RepoWork CommitRetry DiffScope.

Lemma snd_bind {A B : Type} (m : Act A) (f : A -> Act B) (h : History) :
  snd (bind m f h)
  = (snd (m h)
     ++ match fst (m h) with
        | Ok a => snd (f a (h ++ snd (m h))%list)
        | Throw _ => []
        end)%list.
Proof.
  unfold bind. destruct (m h) as [[a | e] t]; cbn [fst snd].
  - destruct (f a (h ++ t)%list) as [res t']. reflexivity.
  - rewrite app_nil_r. reflexivity.
Qed.

Lemma snd_try_catch {A : Type} (m : Act A) (k : Exn -> Act A) (h : History) :
  snd (try_catch m k h)
  = (snd (m h)
     ++ match fst (m h) with
        | Ok _ => []
        | Throw e => snd (k e (h ++ snd (m h))%list)
        end)%list.
Proof.
  unfold try_catch. destruct (m h) as [[a | e] t]; cbn [fst snd].
  - rewrite app_nil_r. reflexivity.
  - destruct (k e (h ++ t)%list) as [res t']. reflexivity.
Qed.

Lemma no_mutation_emitted {A : Type} (m : Act A) (h : History) :
  emits no_mutation m -> filter is_mutation (snd (m h)) = [].
Proof.
  intros Hm. specialize (Hm h).
  induction (snd (m h)) as [ | ev t IH]; [ reflexivity | ].
  cbn [forallb filter] in *. apply andb_true_iff in Hm. destruct Hm as [Hev Ht].
  unfold no_mutation in Hev. apply negb_true_iff in Hev. rewrite Hev. exact (IH Ht).
Qed.

Lemma attempts_are_pr_mutations (b i m d : string) (ks : list nat) :
  filter is_mutation (flat_map (attempt_events b i m d) ks)
  = map (fun _ => ECreatePullRequest b i m d) ks.
Proof.
  induction ks as [ | k ks IH]; [ reflexivity | ].
  cbn [flat_map map]. rewrite filter_app, IH. reflexivity.
Qed.

Lemma commit_events_mutations (o r b : string) (fc : FileChanges) (m : string) (t : Trace) :
  Forall (commit_event_ok o r b fc m) t ->
  filter is_mutation t = filter is_commit_mutation t.
Proof.
  induction 1 as [ | ev t Hev _ IH]; [ reflexivity | ].
  cbn [filter]. rewrite IH. destruct ev; try reflexivity; contradiction.
Qed.

Lemma filter_all (P : Event -> bool) (t : Trace) : forallb P (filter P t) = true.
Proof.
  induction t as [ | ev t IH]; [ reflexivity | ].
  cbn [filter]. destruct (P ev) eqn:Hev; [ cbn [forallb]; rewrite Hev | ]; exact IH.
Qed.

Section WithEnv.

Variable env : Env.
Variable L : Locals.
Variable repo : Repo.

Lemma commitFiles_mutations (nb : string) (fc : FileChanges) (h : History) :
  let t := snd (commitFiles env (owner L) (name repo) nb fc (commitMessage L) h) in
  length (filter is_mutation t) <= 10
  /\ forallb is_commit_mutation (filter is_mutation t) = true.
Proof.
  cbv zeta.
  destruct (commitFiles_policy env (owner L) (name repo) nb fc (commitMessage L) h)
    as [t [Ht Hpolicy]].
  rewrite Ht. cbn [filter is_mutation is_ref_mutation is_commit_mutation is_pr_mutation orb].
  unfold commit_policy in Hpolicy. cbn [fst snd] in Hpolicy.
  destruct Hpolicy as [Hq [Hc [_ [Hok _]]]].
  rewrite (commit_events_mutations _ _ _ _ _ _ Hok).
  split; [ unfold count in *; lia | apply filter_all ].
Qed.

Lemma destructure_pr_silent (response : option PrData) :
  at_most is_mutation 0 (destructure_pr response).
Proof.
  unfold destructure_pr.
  destruct response as [d | ]; [ | apply at_most_throw ].
  destruct (pd_createPullRequest d) as [p | ]; [ | apply at_most_throw ].
  destruct (pp_pullRequest p); [ apply at_most_ret | apply at_most_throw ].
Qed.

Lemma createPr_loop_at_most (b i m d : string) (retries : nat) :
  forall count, at_most is_mutation retries (createPr_loop env b i m d retries count).
Proof.
  induction retries as [ | retries IH]; intros count; cbn [createPr_loop].
  - apply at_most_ret.
  - apply (at_most_bind _ 1 retries).
    + apply (at_most_try_catch _ 1 0).
      * unfold info, sleep.
        apply (at_most_bind _ 0 1); [ apply at_most_silent; reflexivity | intro ].
        apply (at_most_bind _ 0 1); [ apply at_most_silent; reflexivity | intro ].
        apply (at_most_bind _ 0 1); [ apply at_most_silent; reflexivity | intro ].
        apply (at_most_bind _ 1 0); [ apply at_most_one_ask | intro response ].
        apply (at_most_bind _ 0 0); [ apply destructure_pr_silent | intro; apply at_most_ret ].
      * intro e. destruct (negb _); [ apply at_most_throw | apply at_most_ret ].
    + intros [u | ]; [ | apply IH ].
      apply (at_most_weaken _ 0); [ lia | apply at_most_ret ].
Qed.

Lemma createPr_loop_kind (b i m d : string) (retries : nat) :
  forall count, emits pr_or_none (createPr_loop env b i m d retries count).
Proof.
  induction retries as [ | retries IH]; intros count; cbn [createPr_loop].
  - apply emits_ret.
  - apply emits_bind.
    + apply emits_try_catch; [ | work_tac ].
      unfold info, sleep.
      repeat (apply emits_bind; [ solve [ work_tac ] | intro ]).
      unfold destructure_pr. work_tac.
    + intros [u | ]; [ apply emits_ret | apply IH ].
Qed.

Lemma pr_step_at_most (nb : string) (was : bool) :
  at_most is_mutation 5 (pr_step env L repo nb was).
Proof.
  unfold pr_step, endGroup, info.
  apply (at_most_bind _ 5 0).
  - apply (at_most_try_catch _ 5 0); [ apply createPr_loop_at_most | intro e ].
    apply (at_most_bind _ 0 0); [ | intro; apply at_most_ret ].
    destruct was; [ apply at_most_silent; reflexivity | apply at_most_ret ].
  - intro url. apply (at_most_bind _ 0 0); [ apply at_most_silent; reflexivity | intro ].
    destruct (truthy_opt url); cbn [negb andb]; [ | destruct was ];
      apply at_most_silent; reflexivity.
Qed.

Lemma pr_step_kind (nb : string) (was : bool) :
  emits pr_or_none (pr_step env L repo nb was).
Proof.
  unfold pr_step, endGroup, info.
  apply emits_bind.
  - apply emits_try_catch; [ apply createPr_loop_kind | work_tac ].
  - intro url. work_tac.
Qed.

Lemma kind_filtered (t : Trace) :
  forallb pr_or_none t = true -> forallb is_pr_mutation (filter is_mutation t) = true.
Proof.
  induction t as [ | ev t IH]; [ reflexivity | ].
  cbn [forallb filter]. intros H. apply andb_true_iff in H. destruct H as [Hev Ht].
  unfold pr_or_none in Hev.
  destruct (is_mutation ev); cbn [negb orb forallb] in *; [ rewrite Hev | ]; exact (IH Ht).
Qed.

Lemma pr_step_mutations (nb : string) (was : bool) (h : History) :
  let t := snd (pr_step env L repo nb was h) in
  length (filter is_mutation t) <= 5
  /\ forallb is_pr_mutation (filter is_mutation t) = true.
Proof.
  cbv zeta. split.
  - apply (pr_step_at_most nb was h).
  - apply kind_filtered. apply pr_step_kind.
Qed.

(** The mutations of [createBranch]: none when the head query failed, the
    one ref creation otherwise; and a resolved [createBranch] has made it. *)
Lemma createBranch_mutations (nb : string) (h : History) :
  let res := createBranch env (owner L) (name repo) nb (defaultBranch repo) h in
  (filter is_mutation (snd res) = [] /\ exists e, fst res = Throw e)
  \/ exists rid ref oid, filter is_mutation (snd res) = [ECreateRef rid ref oid].
Proof.
  cbv zeta. rewrite BranchClaims.createBranch_cases.
  pose proof (getRefOidAndRepoId_trace env (owner L) (name repo) (defaultBranch repo)
                (h ++ [creating_line (name repo) nb])%list) as Htrace.
  destruct (getRefOidAndRepoId env (owner L) (name repo) (defaultBranch repo)
              (h ++ [creating_line (name repo) nb])%list) as [[[headOid repoId] | e] t];
    cbn [snd] in Htrace; subst t.
  - right. exists repoId, ("refs/heads/" ++ nb), headOid. cbv zeta.
    destruct (graphql_createRef env _ repoId ("refs/heads/" ++ nb) headOid) as [[] | e];
      [ reflexivity | ].
    destruct (status_is e 422); reflexivity.
  - left. split; [ reflexivity | exists e; reflexivity ].
Qed.

Lemma commit_and_pr_mutations (fc : FileChanges) (nb : string) (was : bool) (h : History) :
  exists commits prs,
    filter is_mutation (snd (commit_and_pr env L repo fc nb was h)) = (commits ++ prs)%list
    /\ length commits <= 10 /\ forallb is_commit_mutation commits = true
    /\ length prs <= 5 /\ forallb is_pr_mutation prs = true.
Proof.
  unfold commit_and_pr.
  rewrite snd_bind.
  assert (Hline : forall hh,
            (if was
             then info ("Branch " ++ nb ++ " already exists in the " ++ name repo ++ " repo")
             else info ("Branch " ++ nb ++ " was created in the " ++ name repo ++ " repo")) hh
            = (Ok tt,
               [EInfo ("Branch " ++ nb
                       ++ (if was then " already exists in the " else " was created in the ")
                       ++ name repo ++ " repo")])).
  { intros hh. destruct was; reflexivity. }
  rewrite Hline. cbn [fst snd].
  rewrite snd_bind.
  set (h1 := (h ++ _)%list).
  destruct (commitFiles_mutations nb fc h1) as [Hlen Hkind].
  set (tc := snd (commitFiles env (owner L) (name repo) nb fc (commitMessage L) h1)) in *.
  destruct (fst (commitFiles env (owner L) (name repo) nb fc (commitMessage L) h1))
    as [url | e].
  - rewrite snd_bind. unfold info at 1, emit at 1. cbn [fst snd].
    set (h2 := ((h1 ++ tc) ++ _)%list).
    destruct (pr_step_mutations nb was h2) as [Hplen Hpkind].
    exists (filter is_mutation tc), (filter is_mutation (snd (pr_step env L repo nb was h2))).
    repeat split; try assumption.
    cbn [app filter is_mutation is_ref_mutation is_commit_mutation is_pr_mutation orb].
    rewrite !filter_app. reflexivity.
  - exists (filter is_mutation tc), [].
    repeat split; try assumption; try (cbn; lia).
    cbn [app filter is_mutation is_ref_mutation is_commit_mutation is_pr_mutation orb].
    rewrite !app_nil_r. reflexivity.
Qed.

Lemma mutate_in_step_order (fc : FileChanges) (h : History) :
  in_step_order (snd (mutate env L repo fc h)).
Proof.
  unfold in_step_order.
  rewrite BranchClaims.mutate_cases.
  destruct (has_changes fc).
  2: { exists [], [], []. cbn. repeat split; try lia; reflexivity. }
  cbv zeta.
  destruct (utils_getBranchName env h (customBranchName L) (commitId L)) as [nb | e].
  2: { exists [], [], []. cbn. repeat split; try lia; reflexivity. }
  pose proof (createBranch_mutations nb (h ++ [EGetBranchName (customBranchName L) (commitId L)])%list)
    as Hbranch.
  cbv zeta in Hbranch.
  destruct (createBranch env (owner L) (name repo) nb (defaultBranch repo)
              (h ++ [EGetBranchName (customBranchName L) (commitId L)])%list)
    as [[was | e] t]; cbn [fst snd] in *.
  - destruct Hbranch as [[_ [e He]] | [rid [ref [oid Href]]]]; [ discriminate He | ].
    destruct (commit_and_pr_mutations fc nb was
                (h ++ EGetBranchName (customBranchName L) (commitId L) :: t)%list)
      as [commits [prs [Hrest [Hc [Hck [Hp Hpk]]]]]].
    exists [ECreateRef rid ref oid], commits, prs.
    cbn [filter is_mutation is_ref_mutation is_commit_mutation is_pr_mutation orb].
    rewrite filter_app, Href, Hrest.
    repeat split; try assumption; try (cbn; lia); discriminate.
  - destruct Hbranch as [[Hnone _] | [rid [ref [oid Href]]]].
    + exists [], [], [].
      cbn [filter is_mutation is_ref_mutation is_commit_mutation is_pr_mutation orb].
      rewrite Hnone. cbn. repeat split; try lia; reflexivity.
    + exists [ECreateRef rid ref oid], [], [].
      cbn [filter is_mutation is_ref_mutation is_commit_mutation is_pr_mutation orb].
      rewrite Href. cbn. repeat split; try lia; discriminate.
Qed.

End WithEnv.

(** X12: whatever the platform answers, the mutations made while one
    repository is processed come in the order of the steps: at most one
    ref creation, then at most 10 commit mutations, then at most 5 pull
    request mutations; and no commit or pull request mutation is made
    unless the ref creation was made first. *)
Theorem mutations_follow_the_steps :
  forall (env : Env) (cfg : Config) (L : Locals) (repo : Repo) (h : History),
    in_step_order (snd (iteration env cfg L repo h)).
Proof.
  intros env cfg L repo h.
  assert (Hprocess : in_step_order (snd (process_repo env cfg L repo h))).
  { unfold process_repo.
    destruct (negb (includes (ignoredRepositories L) (name repo))).
    2: { exists [], [], []. cbn. repeat split; try lia; reflexivity. }
    rewrite snd_bind. unfold startGroup, emit. cbn [fst snd].
    rewrite snd_bind.
    set (h1 := (h ++ _)%list).
    pose proof (scoped_diff env cfg L repo h1) as Hscoped.
    apply (scoped_is_no_mutation cfg L repo) in Hscoped.
    destruct (fst (diff env cfg L repo h1)) as [fc | e].
    - destruct (mutate_in_step_order env L repo fc (h1 ++ snd (diff env cfg L repo h1))%list)
        as [refs [commits [prs [Hm Hrest]]]].
      exists refs, commits, prs. split; [ | exact Hrest ].
      cbn [app filter is_mutation is_ref_mutation is_commit_mutation is_pr_mutation orb].
      rewrite filter_app, Hscoped, Hm. reflexivity.
    - exists [], [], [].
      cbn [app filter is_mutation is_ref_mutation is_commit_mutation is_pr_mutation orb].
      rewrite app_nil_r, Hscoped. cbn. repeat split; try lia; reflexivity. }
  rewrite iteration_catches.
  destruct (process_repo env cfg L repo h) as [[[] | e] t]; cbn [snd] in *;
    [ exact Hprocess | ].
  destruct Hprocess as [refs [commits [prs [Hm Hrest]]]].
  exists refs, commits, prs. split; [ | exact Hrest ].
  rewrite filter_app, Hm. cbn. rewrite app_nil_r. reflexivity.
Qed.

End StepOrder.

(** ** A failing diff *)

Module DiffFailure.

Import ApiCalls Action Vocabulary Coverage Isolation DiffScope.

(** X13: when the diff of a repository that is not ignored throws (a
    local file that cannot be read, a content request refused with
    anything but 404, a replication list that is not there), the
    iteration ends normally with the warning that carries that very error,
    and no mutation has been made for the repository. *)
Theorem failing_diff_makes_no_mutation :
  forall (env : Env) (cfg : Config) (L : Locals) (repo : Repo) (h : History)
         (e : Exn) (t : Trace),
    selected L repo = true ->
    diff env cfg L repo (h ++ [EStartGroup ("Started updating " ++ name repo ++ " repo")])%list
    = (Throw e, t) ->
    iteration env cfg L repo h
    = (Ok tt,
       EStartGroup ("Started updating " ++ name repo ++ " repo")
       :: (t ++ failure_report e)%list)
    /\ filter is_mutation (snd (iteration env cfg L repo h)) = [].
Proof.
  intros env cfg L repo h e t Hsel Hdiff.
  assert (Hrun : iteration env cfg L repo h
                 = (Ok tt,
                    EStartGroup ("Started updating " ++ name repo ++ " repo")
                    :: (t ++ failure_report e)%list)).
  { rewrite iteration_catches.
    unfold process_repo. unfold selected in Hsel. rewrite Hsel.
    rewrite (bind_Ok _ _ h tt [EStartGroup ("Started updating " ++ name repo ++ " repo")])
      by reflexivity.
    rewrite (bind_Throw _ _ _ e t Hdiff). reflexivity. }
  split; [ exact Hrun | ].
  rewrite Hrun. cbn [snd filter is_mutation is_ref_mutation is_commit_mutation is_pr_mutation orb].
  rewrite filter_app.
  pose proof (scoped_diff env cfg L repo
                (h ++ [EStartGroup ("Started updating " ++ name repo ++ " repo")])%list) as Hs.
  rewrite Hdiff in Hs. cbn [snd] in Hs.
  rewrite (scoped_is_no_mutation cfg L repo t Hs). reflexivity.
Qed.

Lemma failing_diff_makes_no_mutation_witness :
  let fl := mkFileLists ["MISSING.md"] [] in
  let env := Scenario.one_spoke (fun _ => None) Scenario.checkout fl in
  let cfg := Scenario.push_config Scenario.sync_inputs in
  let L := Scenario.locals (Some fl) in
  let repo := Scenario.spoke1 in
  let t := [EReposGetContent "acme" "spoke1" "MISSING.md" "main"; EReadFile "/work/MISSING.md"] in
  (selected L repo = true
   /\ diff env cfg L repo ([] ++ [EStartGroup ("Started updating " ++ name repo ++ " repo")])%list
      = (Throw Scenario.enoent, t))
  /\ iteration env cfg L repo []
     = (Ok tt,
        EStartGroup ("Started updating " ++ name repo ++ " repo")
        :: (t ++ failure_report Scenario.enoent)%list)
  /\ filter is_mutation (snd (iteration env cfg L repo [])) = [].
Proof.
  cbv zeta. split.
  - split; vm_compute; reflexivity.
  - apply (failing_diff_makes_no_mutation _ _ _ _ [] Scenario.enoent).
    + reflexivity.
    + vm_compute. reflexivity.
Defined.

End DiffFailure.
